(** * The ATTA test-session engine: a shallow embedding and its properties

  The development follows the Python sources of the accessibility test
  adapter (wai-aria/tools): the platform-independent base class [Atta]
  (atta_base.py) and the ATK adapter [AtkAtta] (atk_atta.py).

  Python dictionaries are finite maps ([gmap]), lists are lists, [None] is
  the [None] of an option, and code that reads the platform or raises is
  written in a small state-and-exception monad. *)

From Stdlib Require Import String Ascii List ZArith Lia Bool.
From Equations Require Import Equations.
From stdpp Require Import base option list sorting gmap strings.
Import ListNotations.

Local Open Scope string_scope.
Local Open Scope list_scope.

(** ** Python string primitives used by the adapters *)

Module PyStr.

(** [sub in s] on strings. *)
Fixpoint contains (sub s : string) : bool :=
  String.prefix sub s ||
  match s with
  | EmptyString => false
  | String _ t => contains sub t
  end.

(** [s.startswith(p)]. *)
Definition startswith (p s : string) : bool := String.prefix p s.

(** The scan of [s.replace(old, new)] for a non-empty [old]: left to right,
    non-overlapping; [skip] counts the characters of a matched occurrence
    that are still to be dropped. *)
Fixpoint replace_from (old new : string) (skip : nat) (s : string) : string :=
  match s with
  | EmptyString => EmptyString
  | String c t =>
      match skip with
      | S k => replace_from old new k t
      | O =>
          if String.prefix old s
          then new +:+ replace_from old new (String.length old - 1) t
          else String c (replace_from old new 0 t)
      end
  end.

(** With an empty [old] Python puts [new] before every character and at
    the end. *)
Fixpoint replace_empty (new s : string) : string :=
  match s with
  | EmptyString => new
  | String c t => new +:+ String c (replace_empty new t)
  end.

(** [s.replace(old, new)]. *)
Definition replace (old new s : string) : string :=
  match old with
  | EmptyString => replace_empty new s
  | _ => replace_from old new 0 s
  end.

End PyStr.

(** ** Event correlation: [Atta._create_platform_assertions] *)

Module Events.
Section Correlation.

(** The expected value of a harness assertion is a dynamically typed JSON
    value; the function never inspects it. *)
Context {Value : Type}.

(** A harness assertion is the 4-tuple [(test_type, name, verb, value)]. *)
Definition assertion : Type := string * string * string * Value.

(** The last component of a platform assertion is either the harness value
    or the dictionary [properties] of a combined event assertion. *)
Inductive platform_value : Type :=
| Plain (v : Value)
| Properties (d : gmap string Value).

Definition platform_assertion : Type := string * string * string * platform_value.

(** [is_new_event = lambda x: x and x[0] == "event" and x[1] == "type"];
    a 4-tuple is always truthy. *)
Definition is_new_event (x : assertion) : bool :=
  let '(test_type, name, _, _) := x in
  String.eqb test_type "event" && String.eqb name "type".

(** [enumerate(l)]. *)
Definition enumerate {A : Type} (l : list A) : list (nat * A) :=
  combine (seq 0 (length l)) l.

(** [indices = [i for i, x in enumerate(assertions) if is_new_event(x)]]
    followed by [indices.append(len(assertions))]. *)
Definition indices (assertions : list assertion) : list nat :=
  map fst (List.filter (fun ix => is_new_event (snd ix)) (enumerate assertions))
    ++ [length assertions].

(** One iteration of the [for] loop; the loop state is
    [(platform_assertions, properties)]. *)
Definition loop_body (indices : list nat)
    (st : list platform_assertion * gmap string Value)
    (ix : nat * assertion) : list platform_assertion * gmap string Value :=
  let '(platform_assertions, properties) := st in
  let '(i, (test_type, name, verb, value)) := ix in
  if negb (String.eqb test_type "event")
  then (platform_assertions ++ [(test_type, name, verb, Plain value)], properties)
  else
    let properties := <[name := value]> properties in
    if bool_decide (i + 1 ∈ indices)
    then (platform_assertions ++ [("event", "event", "contains", Properties properties)], ∅)
    else (platform_assertions, properties).

Definition _create_platform_assertions (assertions : list assertion)
    : list platform_assertion :=
  fst (fold_left (loop_body (indices assertions)) (enumerate assertions) ([], ∅)).

(** The same loop read structurally: [starts_group rest] says that the
    index after the current one is in [indices]. *)
Definition starts_group (rest : list assertion) : bool :=
  match rest with
  | [] => true
  | x :: _ => is_new_event x
  end.

Fixpoint correlate (properties : gmap string Value) (l : list assertion)
    : list platform_assertion :=
  match l with
  | [] => []
  | (test_type, name, verb, value) :: rest =>
      if negb (String.eqb test_type "event")
      then (test_type, name, verb, Plain value) :: correlate properties rest
      else
        let properties := <[name := value]> properties in
        if starts_group rest
        then ("event", "event", "contains", Properties properties) :: correlate ∅ rest
        else correlate properties rest
  end.

(** *** Event groups *)

(** An event tuple that does not open a new event. *)
Definition is_event_detail (x : assertion) : bool :=
  let '(test_type, _, _, _) := x in
  String.eqb test_type "event" && negb (is_new_event x).

(** A logical event: a tuple whose property name is [type], then the
    tuples giving its other properties. *)
Definition is_event_group (g : list assertion) : bool :=
  match g with
  | [] => false
  | x :: more => is_new_event x && forallb is_event_detail more
  end.

(** The dictionary built by [properties[name] = value] over the tuples. *)
Definition add_property (d : gmap string Value) (x : assertion)
    : gmap string Value :=
  let '(_, name, _, value) := x in <[name := value]> d.

Definition combined (d : gmap string Value) : platform_assertion :=
  ("event", "event", "contains", Properties d).

Definition plain (x : assertion) : platform_assertion :=
  let '(test_type, name, verb, value) := x in (test_type, name, verb, Plain value).

Definition is_event (x : assertion) : bool :=
  let '(test_type, _, _, _) := x in String.eqb test_type "event".

(** Index [k] opens a new event or is the end of the list. *)
Definition boundary_at (assertions : list assertion) (k : nat) : bool :=
  match assertions !! k with
  | Some x => is_new_event x
  | None => Nat.eqb k (length assertions)
  end.

End Correlation.

Arguments assertion : clear implicits.
Arguments platform_value : clear implicits.
Arguments platform_assertion : clear implicits.

End Events.

(** ** Python results: a value or a raised exception *)

Module Py.

Inductive exn : Type :=
| AttributeError
| ValueError
| IndexError
| TypeError
| RecursionError   (* the interpreter's recursion limit was reached *)
| PlatformError.   (* an error reported by a platform or network call *)

Inductive result (A : Type) : Type :=
| Return (a : A)
| Raise (e : exn).

Arguments Return {A} a.
Arguments Raise {A} e.

#[export] Instance result_ret : MRet result := fun A a => Return a.

#[export] Instance result_bind : MBind result := fun A B f r =>
  match r with
  | Return a => f a
  | Raise e => Raise e
  end.

(** [l.index(x)]: raises [ValueError] when [x] is absent. *)
Fixpoint index (x : string) (l : list string) : result nat :=
  match l with
  | [] => Raise ValueError
  | y :: rest => if String.eqb y x then Return 0 else n ← index x rest; Return (S n)
  end.

(** [l[i]] for a non-negative [i]: raises [IndexError] out of range. *)
Definition getitem {A : Type} (l : list A) (i : nat) : result A :=
  match l !! i with
  | Some a => Return a
  | None => Raise IndexError
  end.

End Py.

(** ** Platform method resolution: [AtkAtta.get_client_side_method] *)

Module Resolver.
Import Py.

(** What the resolver reads of a GObject-introspection function: the name of
    its container (the interface) and its C symbol. *)
Record FunctionInfo : Type := {
  get_container_name : string;
  get_symbol : string
}.

(** The dict comprehension [{m.get_symbol(): m for m in methods}]: a later
    method replaces an earlier one with the same symbol. *)
Definition methods_dict (methods : list FunctionInfo) : gmap string FunctionInfo :=
  fold_left (fun d m => <[get_symbol m := m]> d) methods ∅.

(** [list(d.keys())] of that dict: the symbols in order of first insertion. *)
Definition methods_keys (methods : list FunctionInfo) : list string :=
  fold_left (fun keys m =>
               if bool_decide (get_symbol m ∈ keys) then keys else keys ++ [get_symbol m])
            methods [].

(** The manual table of the source. *)
Definition mappings : gmap string string :=
  list_to_map
    [("atk_selection_add_selection", "atspi_selection_select_child");
     ("atk_selection_ref_selection", "atspi_selection_get_selected_child");
     ("atk_selection_remove_selection", "atspi_selection_deselect_selected_child");
     ("atk_selection_select_all_selection", "atspi_selection_select_all");
     ("atk_value_set_value", "atspi_value_set_current_value");
     ("atk_value_get_increment", "atspi_value_get_minimum_increment")].

(** [x in l] where [x] may be [None] and [l] is a list of strings. *)
Definition opt_in (x : option string) (l : list string) : bool :=
  match x with
  | Some s => bool_decide (s ∈ l)
  | None => false
  end.

(** [d.get(x)] where [x] may be [None]. *)
Definition opt_get (d : gmap string FunctionInfo) (x : option string)
    : option FunctionInfo :=
  match x with
  | Some s => d !! s
  | None => None
  end.

(** The substitution that the code makes, [s.replace("atk", "atspi")], and
    the substitution of the prefix that the specification speaks of. *)
Definition replace_api_name (s : string) : string := PyStr.replace "atk" "atspi" s.

Definition substitute_api_prefix (s : string) : string :=
  match s with
  | String "a" (String "t" (String "k" rest)) => "atspi" +:+ rest
  | _ => s
  end.

Section Repository.

(** [gir.find_by_name(namespace, name)] followed by [get_methods()]: the
    methods of the named interface, or [None] when the repository does not
    know it. *)
Variable find_by_name : string -> string -> option (list FunctionInfo).

Definition get_client_side_method (server_side_method : FunctionInfo)
    : result (option FunctionInfo) :=
  let interface := get_container_name server_side_method in
  match find_by_name "Atspi" interface with
  | None => Return None
  | Some info =>
      let server_side_symbol := get_symbol server_side_method in
      let client_side_methods := methods_dict info in
      let client_side_symbols := methods_keys info in
      let mapped := mappings !! server_side_symbol in
      if opt_in mapped client_side_symbols
      then Return (opt_get client_side_methods mapped)
      else
        let candidate_symbol := PyStr.replace "atk" "atspi" server_side_symbol in
        if bool_decide (candidate_symbol ∈ client_side_symbols)
        then Return (client_side_methods !! candidate_symbol)
        else
          let replaced := PyStr.replace "_ref_" "_get_" candidate_symbol in
          if bool_decide (replaced ∈ client_side_symbols)
          then Return (client_side_methods !! replaced)
          else
            let replaced := PyStr.replace "_ref_at" "_get_accessible_at" candidate_symbol in
            if bool_decide (replaced ∈ client_side_symbols)
            then Return (client_side_methods !! replaced)
            else
              let collapsed := PyStr.replace "_" "" candidate_symbol in
              let matches := map (PyStr.replace "_" "") client_side_symbols in
              if bool_decide (collapsed ∈ matches)
              then
                index ← Py.index collapsed matches;
                key ← getitem client_side_symbols index;
                Return (client_side_methods !! key)
              else
                if PyStr.contains "_get_" server_side_symbol
                   && PyStr.contains "_count" server_side_symbol
                then
                  let matches := List.filter (PyStr.contains "get_n_") client_side_symbols in
                  if Nat.eqb (length matches) 1
                  then key ← getitem matches 0; Return (client_side_methods !! key)
                  else Return None
                else Return None
  end.

(** *** The resolution order as the specification words it

    An ordered list of strategies from a symbol to an optional client-side
    symbol, tried in sequence; the first that answers wins. The strategies
    after the manual table start from the symbol with the name of the API
    substituted, [substitute s]. *)

Definition found (symbols : list string) (s : string) : option string :=
  if bool_decide (s ∈ symbols) then Some s else None.

Definition by_override_table (symbols : list string) (s : string) : option string :=
  mappings !! s ≫= found symbols.

Definition by_prefix_substitution (substitute : string -> string)
    (symbols : list string) (s : string) : option string :=
  found symbols (substitute s).

Definition by_ref_to_get (substitute : string -> string)
    (symbols : list string) (s : string) : option string :=
  found symbols (PyStr.replace "_ref_" "_get_" (substitute s)).

Definition by_ref_at_to_get_accessible_at (substitute : string -> string)
    (symbols : list string) (s : string) : option string :=
  found symbols (PyStr.replace "_ref_at" "_get_accessible_at" (substitute s)).

Definition by_collapsed_symbol (substitute : string -> string)
    (symbols : list string) (s : string) : option string :=
  let collapsed := PyStr.replace "_" "" (substitute s) in
  List.find (fun x => String.eqb (PyStr.replace "_" "" x) collapsed) symbols.

Definition by_count_getter (symbols : list string) (s : string) : option string :=
  if PyStr.contains "_get_" s && PyStr.contains "_count" s
  then match List.filter (PyStr.contains "get_n_") symbols with
       | [x] => Some x
       | _ => None
       end
  else None.

Definition strategies (substitute : string -> string)
    : list (list string -> string -> option string) :=
  [by_override_table;
   by_prefix_substitution substitute;
   by_ref_to_get substitute;
   by_ref_at_to_get_accessible_at substitute;
   by_collapsed_symbol substitute;
   by_count_getter].

(** The answer of the first strategy that has one. *)
Fixpoint first_match (ss : list (list string -> string -> option string))
    (symbols : list string) (s : string) : option string :=
  match ss with
  | [] => None
  | f :: rest =>
      match f symbols s with
      | Some x => Some x
      | None => first_match rest symbols s
      end
  end.

Definition resolve (substitute : string -> string) (server_side_method : FunctionInfo)
    : option FunctionInfo :=
  info ← find_by_name "Atspi" (get_container_name server_side_method);
  key ← first_match (strategies substitute) (methods_keys info)
          (get_symbol server_side_method);
  methods_dict info !! key.

End Repository.

(** A small symbol table against which the resolver can be run. *)
Definition sample_repository (namespace name : string) : option (list FunctionInfo) :=
  if String.eqb namespace "Atspi" then
    if String.eqb name "Value" then
      Some [ {| get_container_name := "Value"; get_symbol := "atspi_value_get_current_value" |};
             {| get_container_name := "Value"; get_symbol := "atspi_value_set_current_value" |};
             {| get_container_name := "Value"; get_symbol := "atspi_value_get_minimum_increment" |} ]
    else if String.eqb name "Selection" then
      Some [ {| get_container_name := "Selection"; get_symbol := "atspi_selection_get_n_selected_children" |};
             {| get_container_name := "Selection"; get_symbol := "atspi_selection_get_selected_child" |};
             {| get_container_name := "Selection"; get_symbol := "atspi_selection_select_child" |} ]
    else if String.eqb name "Foo" then
      Some [ {| get_container_name := "Foo"; get_symbol := "atspi_foo_get_n_bar" |};
             {| get_container_name := "Foo"; get_symbol := "atspi_foo_do_thing" |} ]
    else None
  else None.

End Resolver.

(** ** The session state machine of [Atta] *)

Module Session.
Import Py.

(** What [self._ready] can hold: a boolean, or the empty string that
    [uri and uri == test_uri] evaluates to when [uri] is empty. *)
Inductive ready_value : Type :=
| Truth (b : bool)
| EmptyStr.

Definition truthy (r : ready_value) : bool :=
  match r with
  | Truth b => b
  | EmptyStr => false
  end.

(** Truth value of a string or [None]. *)
Definition nonempty (s : string) : bool := negb (String.eqb s "").

Definition truthy_name (name : option string) : bool :=
  match name with
  | Some s => nonempty s
  | None => false
  end.

Section Adapter.

(** Handles into the accessibility tree, compared with [==]; the payload of
    an event is opaque. *)
Context {Element : Type} `{!EqDecision Element} {Data : Type}.

(** A platform event as the listener receives it. *)
Record Event : Type := {
  source : option Element;
  type : string;
  detail1 : Z;
  detail2 : Z;
  any_data : Data
}.

(** The fields of [Atta] that make up the session and its event buffer. *)
Record Atta : Type := {
  _enabled : bool;
  _load_notifications : bool;
  _ready : ready_value;
  _next_test : option string * string;
  _current_document : option Element;
  _current_window : option Element;
  _current_application : option Element;
  _monitored_event_types : list string;
  _event_history : list Event
}.

(** The session part of [Atta.__init__]; the two flags come from the command
    line and from the accessibility bootstrap. *)
Definition init (enabled load_notifications : bool) : Atta :=
  {| _enabled := enabled;
     _load_notifications := load_notifications;
     _ready := Truth false;
     _next_test := (None, "");
     _current_document := None;
     _current_window := None;
     _current_application := None;
     _monitored_event_types := [];
     _event_history := [] |}.

Definition set_ready (r : ready_value) (s : Atta) : Atta :=
  {| _enabled := _enabled s;
     _load_notifications := _load_notifications s;
     _ready := r;
     _next_test := _next_test s;
     _current_document := _current_document s;
     _current_window := _current_window s;
     _current_application := _current_application s;
     _monitored_event_types := _monitored_event_types s;
     _event_history := _event_history s |}.

Definition set_next_test (t : option string * string) (s : Atta) : Atta :=
  {| _enabled := _enabled s;
     _load_notifications := _load_notifications s;
     _ready := _ready s;
     _next_test := t;
     _current_document := _current_document s;
     _current_window := _current_window s;
     _current_application := _current_application s;
     _monitored_event_types := _monitored_event_types s;
     _event_history := _event_history s |}.

Definition set_current_document (d : option Element) (s : Atta) : Atta :=
  {| _enabled := _enabled s;
     _load_notifications := _load_notifications s;
     _ready := _ready s;
     _next_test := _next_test s;
     _current_document := d;
     _current_window := _current_window s;
     _current_application := _current_application s;
     _monitored_event_types := _monitored_event_types s;
     _event_history := _event_history s |}.

Definition set_current_window (w : option Element) (s : Atta) : Atta :=
  {| _enabled := _enabled s;
     _load_notifications := _load_notifications s;
     _ready := _ready s;
     _next_test := _next_test s;
     _current_document := _current_document s;
     _current_window := w;
     _current_application := _current_application s;
     _monitored_event_types := _monitored_event_types s;
     _event_history := _event_history s |}.

Definition set_current_application (a : option Element) (s : Atta) : Atta :=
  {| _enabled := _enabled s;
     _load_notifications := _load_notifications s;
     _ready := _ready s;
     _next_test := _next_test s;
     _current_document := _current_document s;
     _current_window := _current_window s;
     _current_application := a;
     _monitored_event_types := _monitored_event_types s;
     _event_history := _event_history s |}.

Definition set_monitored_event_types (l : list string) (s : Atta) : Atta :=
  {| _enabled := _enabled s;
     _load_notifications := _load_notifications s;
     _ready := _ready s;
     _next_test := _next_test s;
     _current_document := _current_document s;
     _current_window := _current_window s;
     _current_application := _current_application s;
     _monitored_event_types := l;
     _event_history := _event_history s |}.

Definition set_event_history (h : list Event) (s : Atta) : Atta :=
  {| _enabled := _enabled s;
     _load_notifications := _load_notifications s;
     _ready := _ready s;
     _next_test := _next_test s;
     _current_document := _current_document s;
     _current_window := _current_window s;
     _current_application := _current_application s;
     _monitored_event_types := _monitored_event_types s;
     _event_history := h |}.

(** The fields that the readiness invariant reads. *)
Definition core (s : Atta) : ready_value * (option string * string) * option Element :=
  (_ready s, _next_test s, _current_document s).

(** A method of [Atta]: it may change the fields before it returns or
    raises, and the changes made before an exception stay. *)
Definition M (A : Type) : Type := Atta -> result A * Atta.

Definition ret {A : Type} (a : A) : M A := fun s => (Return a, s).

Definition bind {A B : Type} (m : M A) (k : A -> M B) : M B := fun s =>
  match m s with
  | (Return a, s') => k a s'
  | (Raise e, s') => (Raise e, s')
  end.

Definition get : M Atta := fun s => (Return s, s).

Definition modify (f : Atta -> Atta) : M unit := fun s => (Return tt, f s).

(** A platform call made from a method. *)
Definition call {A : Type} (r : result A) : M A := fun s => (r, s).

End Adapter.

Arguments Event : clear implicits.
Arguments Atta : clear implicits.
Arguments M : clear implicits.

Declare Scope atta_scope.
Delimit Scope atta_scope with atta.
Notation "x <- m ;; k" := (bind m (fun x => k))
  (at level 100, m at next level, right associativity) : atta_scope.
Notation "m ;; k" := (bind m (fun _ => k))
  (at level 100, right associativity) : atta_scope.

Section Methods.

Context {Element : Type} `{!EqDecision Element} {Data : Type}.

Local Abbreviation Atta := (Atta Element Data).
Local Abbreviation M := (M Element Data).
Local Abbreviation Event := (Event Element Data).

(** The platform hooks that the concrete adapters override. Each is a read
    of the platform and may raise. *)
Variable _get_uri : Element -> result string.
Variable get_property_value : Element -> string -> result (option string).
Variable _get_title_property_names : list string.
Variable _get_children : Element -> result (list Element).
Variable _get_parent : Element -> result (option Element).
Variable _get_running_applications : result (list Element).
Variable _is_document : option Element -> result bool.
Variable _register_listener : string -> result unit.
Variable _deregister_listener : string -> result unit.

(** [" ".join(name.split())]. *)
Variable simplify_whitespace : string -> string.

(** The depth at which the interpreter stops a recursion. *)
Variable recursion_limit : nat.

Fixpoint _get_title_from (obj : Element) (simplify : bool) (names : list string)
    : result string :=
  match names with
  | [] => Return ""
  | attribute :: rest =>
      name ← get_property_value obj attribute;
      match name with
      | Some n =>
          if nonempty n
          then Return (if simplify then simplify_whitespace n else n)
          else _get_title_from obj simplify rest
      | None => _get_title_from obj simplify rest
      end
  end.

Definition _get_title (obj : option Element) (simplify : bool) : result string :=
  match obj with
  | None => Return ""
  | Some o => _get_title_from o simplify _get_title_property_names
  end.

Fixpoint _find_descendant (depth : nat) (root : option Element)
    (pred : option Element -> result bool) : result (option Element) :=
  match depth with
  | O => Raise RecursionError
  | S depth =>
      p ← pred root;
      match root with
      | None => Return None
      | Some r =>
          if (p : bool) then Return root
          else
            children ← _get_children r;
            (fix each (children : list Element) : result (option Element) :=
               match children with
               | [] => Return None
               | child :: rest =>
                   descendant ← _find_descendant depth (Some child) pred;
                   match descendant with
                   | Some _ => Return descendant
                   | None => each rest
                   end
               end) children
      end
  end.

(** The two nested [for] loops of [_find_test_window]. *)
Fixpoint first_titled (name : string) (windows : list Element)
    : result (option Element) :=
  match windows with
  | [] => Return None
  | window :: rest =>
      title ← _get_title (Some window) true;
      if PyStr.contains name title then Return (Some window)
      else first_titled name rest
  end.

Fixpoint search_applications (name : string) (apps : list Element)
    : result (option Element) :=
  match apps with
  | [] => Return None
  | app :: rest =>
      windows ← _get_children app;
      found ← first_titled name windows;
      match found with
      | Some _ => Return found
      | None => search_applications name rest
      end
  end.

Local Open Scope atta_scope.

Definition _find_test_window : M (option Element) :=
  s <- get ;;
  let name := fst (_next_test s) in
  if negb (truthy_name name) then ret None
  else
    let name := simplify_whitespace (default "" name) in
    cached <-
      (match _current_window s with
       | Some w =>
           title <- call (_get_title (Some w) true) ;;
           if PyStr.contains name title then ret (Some (Some w))
           else (modify (set_current_window None) ;; ret None)
       | None => ret None
       end) ;;
    match cached with
    | Some w => ret w
    | None =>
        apps <- call _get_running_applications ;;
        call (search_applications name apps)
    end.

Definition is_ready (document : option Element) : M bool :=
  s <- get ;;
  if truthy (_ready s) then ret true
  else
    let document :=
      match document with
      | Some d => Some d
      | None => _current_document s
      end in
    document <-
      (match document with
       | None =>
           if negb (_load_notifications s)
           then
             w <- _find_test_window ;;
             modify (set_current_window w) ;;
             call (_find_descendant recursion_limit w _is_document)
           else ret None
       | Some _ => ret document
       end) ;;
    match document with
    | None => ret false
    | Some doc =>
        let '(test_name, test_uri) := _next_test s in
        uri <- call (_get_uri doc) ;;
        let ready := if nonempty uri then Truth (String.eqb uri test_uri) else EmptyStr in
        modify (set_ready ready) ;;
        if truthy ready
        then (modify (set_current_document (Some doc)) ;; ret true)
        else
          ready <-
            (if negb (nonempty uri) && truthy_name test_name
             then
               name <- call (_get_title (Some doc) false) ;;
               let ready := Truth (bool_decide (Some name = test_name)) in
               modify (set_ready ready) ;; ret ready
             else ret ready) ;;
          if truthy ready
          then (modify (set_current_document (Some doc)) ;; ret true)
          else ret false
    end.

Definition start_test_run (name : option string) (url : string) : M unit :=
  s <- get ;;
  if bool_decide (_next_test s = (name, url)) then ret tt
  else
    modify (set_ready (Truth false)) ;;
    modify (set_next_test (name, url)).

Definition end_test_run : M unit :=
  modify (set_current_document None) ;;
  modify (set_next_test (None, "")) ;;
  modify (set_ready (Truth false)).

(** [shutdown]: what follows [self._ready = False] (the summary of the
    results and the stop of the server) touches none of the session fields. *)
Definition shutdown : M unit :=
  s <- get ;;
  if negb (_enabled s) then ret tt
  else modify (set_ready (Truth false)).

Fixpoint register_all (event_types : list string) : M unit :=
  match event_types with
  | [] => ret tt
  | event_type :: rest =>
      call (_register_listener event_type) ;;
      modify (fun s => set_monitored_event_types (_monitored_event_types s ++ [event_type]) s) ;;
      register_all rest
  end.

Definition start_listen (event_types : list string) : M unit :=
  modify (set_monitored_event_types []) ;;
  modify (set_event_history []) ;;
  register_all event_types.

Fixpoint deregister_all (event_types : list string) : M unit :=
  match event_types with
  | [] => ret tt
  | event_type :: rest =>
      call (_deregister_listener event_type) ;; deregister_all rest
  end.

Definition stop_listen : M unit :=
  s <- get ;;
  deregister_all (_monitored_event_types s) ;;
  modify (set_monitored_event_types []) ;;
  modify (set_event_history []).

(** The [while parent:] loop of [_find_ancestor]. A cyclic parent chain
    keeps it running for ever: [None] says that the loop has not ended
    within [steps] parent lookups. *)
Fixpoint climb (steps : nat) (parent : option Element) (pred : Element -> bool)
    : option (result (option Element)) :=
  match parent with
  | None => Some (Return None)
  | Some p =>
      if pred p then Some (Return (Some p))
      else
        match steps with
        | O => None
        | S steps =>
            match _get_parent p with
            | Raise e => Some (Raise e)
            | Return parent => climb steps parent pred
            end
        end
  end.

Definition _find_ancestor (steps : nat) (obj : option Element) (pred : Element -> bool)
    : option (result (option Element)) :=
  match obj with
  | None => Some (Return None)
  | Some o =>
      match _get_parent o with
      | Raise e => Some (Raise e)
      | Return parent => climb steps parent pred
      end
  end.

Definition _in_current_document (steps : nat) (obj : option Element) (s : Atta)
    : option (result bool) :=
  match _current_document s with
  | None => Some (Return false)
  | Some document =>
      let pred := fun x => bool_decide (x = document) in
      if from_option pred false obj then Some (Return true)
      else
        match _find_ancestor steps obj pred with
        | None => None
        | Some (Raise e) => Some (Raise e)
        | Some (Return ancestor) => Some (Return (bool_decide (is_Some ancestor)))
        end
  end.

(** The listener callback [_on_test_event] of the concrete adapters. *)
Definition _on_test_event (steps : nat) (data : Event) (s : Atta)
    : option (result unit * Atta) :=
  match _in_current_document steps (source data) s with
  | None => None
  | Some (Raise e) => Some (Raise e, s)
  | Some (Return false) => Some (Return tt, s)
  | Some (Return true) =>
      Some (Return tt, set_event_history (_event_history s ++ [data]) s)
  end.

(** Events delivered one after the other; a callback that raises or never
    returns leaves the buffer as it was. *)
Definition deliver (steps : nat) (events : list Event) (s : Atta) : Atta :=
  fold_left (fun s data =>
               match _on_test_event steps data s with
               | Some (_, s') => s'
               | None => s
               end) events s.

(** The operations that touch the session, and a run of them. The value an
    operation returns, or the exception it raises, is dropped here; the
    fields it has set are kept. *)
Inductive operation : Type :=
| IsReady (document : option Element)
| StartTestRun (name : option string) (url : string)
| EndTestRun
| Shutdown.

Definition run_operation (s : Atta) (op : operation) : Atta :=
  match op with
  | IsReady document => snd (is_ready document s)
  | StartTestRun name url => snd (start_test_run name url s)
  | EndTestRun => snd (end_test_run s)
  | Shutdown => snd (shutdown s)
  end.

Definition run_operations (ops : list operation) (s : Atta) : Atta :=
  fold_left run_operation ops s.

(** *** What the specification says of the session *)

(** The cached document answers for the pending test: its URI is not empty
    and is the pending URL, or it has no URI and its title is the pending
    name. *)
Definition document_matches (s : Atta) : Prop :=
  exists document,
    _current_document s = Some document
    /\ ((exists uri, _get_uri document = Return uri
                     /\ uri <> "" /\ uri = snd (_next_test s))
        \/ (_get_uri document = Return ""
            /\ exists name, fst (_next_test s) = Some name
                            /\ _get_title (Some document) false = Return name)).

Definition readiness_invariant (s : Atta) : Prop :=
  truthy (_ready s) = true -> document_matches s.

(** [a] is reached from [x] by repeated parent lookups. *)
Inductive ancestor : Element -> Element -> Prop :=
| ancestor_parent x p :
    _get_parent x = Return (Some p) -> ancestor x p
| ancestor_step x p a :
    _get_parent x = Return (Some p) -> ancestor p a -> ancestor x a.

Definition in_document (document : Element) (obj : option Element) : Prop :=
  obj = Some document \/ exists x, obj = Some x /\ ancestor x document.

(** Every field of the session is back to its value in [init]. *)
Definition session_cleared (s : Atta) : Prop :=
  _next_test s = (None, "")
  /\ truthy (_ready s) = false
  /\ _current_document s = None
  /\ _current_window s = None
  /\ _current_application s = None.

End Methods.

(** *** A small platform on which the methods can be run

    Elements are numbered; element [n + 2] has parent [n + 1], and elements
    [0] and [1] have none. Element [1] is the application, [2] its window
    titled [test one], and [3] the document at [http://localhost/one.html]. *)

Definition sample_parent (x : nat) : result (option nat) :=
  Return (match x with
          | 0 | 1 => None
          | S x' => Some x'
          end).

Definition sample_children (x : nat) : result (list nat) :=
  Return (if Nat.ltb x 6 then [S x] else []).

Definition sample_uri (x : nat) : result string :=
  Return (if Nat.eqb x 3 then "http://localhost/one.html" else "").

Definition sample_property (x : nat) (property_name : string) : result (option string) :=
  if String.eqb property_name "name"
  then Return (if Nat.eqb x 2 then Some "test one" else None)
  else Raise ValueError.

Definition sample_is_document (obj : option nat) : result bool :=
  Return (match obj with
          | Some x => Nat.eqb x 3
          | None => false
          end).

Definition sample_is_ready (document : option nat) : M nat unit bool :=
  is_ready sample_uri sample_property ["name"] sample_children (Return [1])
    sample_is_document (fun x => x) 1000 document.

(** The session after a test was announced and its document found by the
    search of the running applications. *)
Definition sample_session : Atta nat unit :=
  snd (sample_is_ready None
         (snd (start_test_run (Some "test one") "http://localhost/one.html"
                 (init true false)))).

End Session.

(** ** The retrying platform reads of [AtkAtta] *)

Module Retry.
Import Py.

(** [self._retry_limit = 2]. *)
Definition _retry_limit : nat := 2.

(** The keys of [self._supported_properties]. *)
Definition _supported_properties : list string :=
  ["accessible"; "application"; "childCount"; "description"; "name"; "interfaces";
   "objectAttributes"; "parent"; "relations"; "role"; "states"; "textAttributes"].

Section AtkAtta.

(** Accessible objects, and the values of properties that the adapter only
    passes on. *)
Context {Element Payload : Type}.

(** The value of a property. *)
Inductive value : Type :=
| VNone
| VBool (b : bool)
| VDict (items : list (string * string))
| VList (items : list string)
| VPlatform (v : Payload).

(** What a call does to the world outside: the platform calls and the
    logging of an error with their outcome ([ok] is false when the call
    raised), and the sleeps in milliseconds. *)
Inductive action : Type :=
| ClearCache (obj : Element) (ok : bool)
| Getter (property_name : string) (obj : option Element) (ok : bool)
| GetDocumentAttributeValue (document : Element) (name : string) (ok : bool)
| Sleep (ms : nat)
| PrintError (ok : bool).

Definition is_return {A : Type} (r : result A) : bool :=
  match r with
  | Return _ => true
  | Raise _ => false
  end.

(** The platform: the outcome of a call may depend on everything that
    happened before it. *)
Variable clear_cache_outcome : list action -> Element -> result unit.
Variable getter_outcome : list action -> string -> option Element -> result value.
Variable document_attribute_outcome :
  list action -> Element -> string -> result (option string).

(** [self._print(self.LOG_ERROR, ...)]: at this level [_print] splits the
    URL of the pending test with [parse.urlsplit] and writes to the standard
    output, outside any [try]; either may raise. *)
Variable print_outcome : list action -> result unit.

Definition print_error (t : list action) : result unit * list action :=
  let r := print_outcome t in (r, t ++ [PrintError (is_return r)]).

(** [Atspi.Accessible.clear_cache(obj)]. *)
Definition clear_cache (obj : Element) (t : list action) : result unit * list action :=
  let r := clear_cache_outcome t obj in (r, t ++ [ClearCache obj (is_return r)]).

(** [getter(obj)]: the getter of [accessible] is [lambda x: x is not None],
    the others call the platform. *)
Definition getter (property_name : string) (obj : option Element) (t : list action)
    : result value * list action :=
  if String.eqb property_name "accessible"
  then (Return (VBool (bool_decide (is_Some obj))), t)
  else
    let r := getter_outcome t property_name obj in
    (r, t ++ [Getter property_name obj (is_return r)]).

(** [Atspi.Document.get_document_attribute_value(document, name)]. *)
Definition get_document_attribute_value (document : Element) (name : string)
    (t : list action) : result (option string) * list action :=
  let r := document_attribute_outcome t document name in
  (r, t ++ [GetDocumentAttributeValue document name (is_return r)]).

(** The two [raise] statements that open [get_property_value]. *)
Definition precondition (obj : option Element) (property_name : string) : option exn :=
  if negb (bool_decide (is_Some obj)) && negb (String.eqb property_name "accessible")
  then Some AttributeError
  else if negb (bool_decide (property_name ∈ _supported_properties))
       then Some ValueError
       else None.

(** [if obj: Atspi.Accessible.clear_cache(obj)], outside any [try]. *)
Definition clear_cache_if (obj : option Element) (t : list action)
    : result unit * list action :=
  match obj with
  | Some o => clear_cache o t
  | None => (Return tt, t)
  end.

(** The conversion of the [textAttributes] dict to a list of [key:value]. *)
Definition text_attributes_as_list (property_name : string) (res : value) : value :=
  match res with
  | VDict items =>
      if String.eqb property_name "textAttributes"
      then VList (map (fun xy => fst xy +:+ ":" +:+ snd xy) items)
      else res
  | _ => res
  end.

(** [AtkAtta.get_property_value(obj, property_name, retries=...)]. *)
Equations? get_property_value (obj : option Element) (property_name : string)
    (retries : nat) (t : list action) : result value * list action
    by wf (S _retry_limit - retries) lt :=
get_property_value obj property_name retries t with precondition obj property_name := {
  | Some e := (Raise e, t);
  | None with clear_cache_if obj t := {
      | (Raise e, t1) := (Raise e, t1);
      | (Return _, t1) with lt_dec _retry_limit retries := {
          | left _ with print_error t1 := {
              | (Raise e, t2) := (Raise e, t2);
              | (Return _, t2) := (Return VNone, t2) };
          | right _ with getter property_name obj t1 := {
              | (Return res, t2) :=
                  (Return (text_attributes_as_list property_name res), t2);
              | (Raise _, t2) :=
                  get_property_value obj property_name (S retries)
                    (t2 ++ [Sleep 500]) } } } }.
Proof. unfold _retry_limit in *. lia. Qed.

(** The outcome of the loop [for name in ("DocURL", "URI")] up to its first
    [return] or exception. *)
Inductive attribute_outcome : Type :=
| Found (uri : string)
| NotFound
| Failed.

Fixpoint first_attribute (document : Element) (names : list string) (t : list action)
    : attribute_outcome * list action :=
  match names with
  | [] => (NotFound, t)
  | name :: rest =>
      match get_document_attribute_value document name t with
      | (Raise _, t1) => (Failed, t1 ++ [Sleep 500])
      | (Return uri, t1) =>
          match uri with
          | Some u => if String.eqb u "" then first_attribute document rest t1
                      else (Found u, t1)
          | None => first_attribute document rest t1
          end
      end
  end.

(** [try: Atspi.Accessible.clear_cache(document)] with its
    [except: time.sleep(0.5)]. *)
Definition try_clear_cache (document : Element) (t : list action) : list action :=
  match clear_cache document t with
  | (Return _, t1) => t1
  | (Raise _, t1) => t1 ++ [Sleep 500]
  end.

(** [AtkAtta._get_uri(document, retries=...)]. *)
Equations? _get_uri (document : option Element) (retries : nat) (t : list action)
    : result string * list action by wf (S _retry_limit - retries) lt :=
_get_uri None retries t := (Return "", t);
_get_uri (Some document) retries t with lt_dec _retry_limit retries := {
  | left _ with print_error t := {
      | (Raise e, t1) := (Raise e, t1);
      | (Return _, t1) := (Return "", t1) };
  | right _ with first_attribute document ["DocURL"; "URI"]
                   (try_clear_cache document t) := {
      | (Found uri, t1) := (Return uri, t1);
      | (NotFound, t1) := (Return "", t1);
      | (Failed, t1) := _get_uri (Some document) (S retries) t1 } }.
Proof. unfold _retry_limit in *. lia. Qed.

(** Counters over the history. *)
Definition is_read (a : action) : bool :=
  match a with
  | Getter _ _ _ | GetDocumentAttributeValue _ _ _ => true
  | _ => false
  end.

Definition is_failed_read (a : action) : bool :=
  match a with
  | Getter _ _ false | GetDocumentAttributeValue _ _ false => true
  | _ => false
  end.

Definition is_sleep (a : action) : bool :=
  match a with
  | Sleep _ => true
  | _ => false
  end.

Definition count (f : action -> bool) (t : list action) : nat :=
  length (List.filter f t).

End AtkAtta.

Arguments value : clear implicits.
Arguments action : clear implicits.

(** A platform on which every read fails and [clear_cache] works. *)
Definition always_failing_getter (t : list (action nat)) (property_name : string)
    (obj : option nat) : result (value unit) := Raise PlatformError.

Definition always_failing_attribute (t : list (action nat)) (document : nat)
    (name : string) : result (option string) := Raise PlatformError.

Definition working_clear_cache (t : list (action nat)) (obj : nat) : result unit :=
  Return tt.

Definition working_print (t : list (action nat)) : result unit := Return tt.

(** A platform on which [clear_cache] fails, one on which it fails once the
    object has been read, and a pending test whose URL [parse.urlsplit]
    refuses. *)
Definition failing_clear_cache (t : list (action nat)) (obj : nat) : result unit :=
  Raise PlatformError.

Definition clear_cache_failing_after_read (t : list (action nat)) (obj : nat)
    : result unit :=
  if existsb (fun a => match a with Getter _ _ _ => true | _ => false end) t
  then Raise PlatformError
  else Return tt.

Definition failing_print (t : list (action nat)) : result unit := Raise ValueError.

End Retry.

(** ** The bug cache: [Atta.get_bug_details] *)

Module Bugs.
Import Py.

(** A decoded JSON document; the items of an object have distinct keys. *)
#[warnings="-register-all"]
Inductive json : Type :=
| JNull
| JBool (b : bool)
| JNumber (n : Z)
| JString (s : string)
| JList (l : list json)
| JDict (items : list (string * json)).

(** [d.get(key)] on the items of an object. *)
Fixpoint lookup_item (key : string) (items : list (string * json)) : option json :=
  match items with
  | [] => None
  | (k, v) :: rest => if String.eqb k key then Some v else lookup_item key rest
  end.

(** [self._bugs] and the requests sent to the network so far. A stored
    [None] is the Python [None], which [get] cannot tell from an absent key. *)
Record State : Type := {
  _bugs : gmap string (option string);
  requests : list string
}.

Section Network.

Context {Response : Type}.

(** [request.urlopen(uri)]: the answer may depend on the requests made
    before; [None] when it raises. *)
Variable urlopen_outcome : list string -> string -> option Response.

(** The library functions that the method applies to what it fetched:
    [str(response.peek())], the match of the title pattern,
    [html.unescape], [str.strip], [str.upper], [response.geturl()],
    [parse.urlsplit], [parse.urlunsplit], the decoding of the body with
    [json.loads] ([None] when reading or decoding raises) and the [%s]
    rendering of a JSON value. *)
Variable peek : Response -> string.
Variable search_title : string -> option string.
Variable unescape : string -> string.
Variable strip : string -> string.
Variable upper : string -> string.
Variable geturl : Response -> string.
Variable urlsplit : string -> string * string * string * string * string.
Variable urlunsplit : string * string * string * string * string -> string.
Variable loads : Response -> option json.
Variable str : json -> string.

Definition urlopen (uri : string) (st : State) : option Response * State :=
  (urlopen_outcome (requests st) uri,
   {| _bugs := _bugs st; requests := requests st ++ [uri] |}).

(** [content.get(key, content)] and, for a list, its first element; [None]
    when one of them raises inside the [try]. *)
Definition info_of (key : string) (content : json) : option json :=
  match content with
  | JDict items =>
      match default content (lookup_item key items) with
      | JList [] => None
      | JList (first :: _) => Some first
      | info => Some info
      end
  | _ => None
  end.

(** [info.get(key, "")] for the two operands of the join: [AttributeError]
    when [info] is not an object, [TypeError] when the item is not a string. *)
Definition string_item (info : json) (key : string) : result string :=
  match info with
  | JDict items =>
      match lookup_item key items with
      | None => Return ""
      | Some (JString s) => Return s
      | Some _ => Raise TypeError
      end
  | _ => Raise AttributeError
  end.

(** [info.get(valuemap.get("title"), details)] rendered with [%s]. *)
Definition title_item (info : json) (key : string) (details : option string)
    : result string :=
  match info with
  | JDict items =>
      match lookup_item key items with
      | Some v => Return (str v)
      | None => Return (default "None" details)
      end
  | _ => Raise AttributeError
  end.

(** The [else] clause of the second [try]. *)
Definition details_from_info (info : json) (status_key title_key : string)
    (details : option string) : result (option string) :=
  status ← string_item info status_key;
  resolution ← string_item info "resolution";
  let state := upper (strip (status +:+ " " +:+ resolution)) in
  if String.eqb state "" then Return details
  else
    title ← title_item info title_key details;
    Return (Some ("[" +:+ state +:+ "] " +:+ title)).

Definition get_bug_details (bug_uri : string) (st : State)
    : result (option string) * State :=
  match _bugs st !! bug_uri with
  | Some (Some details) => (Return (Some details), st)
  | _ =>
      match urlopen bug_uri st with
      | (None, st) => (Return (Some ""), st)
      | (Some response, st) =>
          let details :=
            option_map (fun m => strip (unescape m)) (search_title (peek response)) in
          let '(scheme, netloc, path, query, fragment) := urlsplit (geturl response) in
          let '(netloc, path, query, key, status_key, title_key) :=
            if String.eqb path "/show_bug.cgi" && PyStr.startswith "id=" query
            then (netloc, "/rest/bug/" +:+ PyStr.replace "id=" "" query, "",
                  "bugs", "status", "summary")
            else if String.eqb netloc "github.com" && PyStr.contains "issues" path
                 then ("api." +:+ netloc, "repos" +:+ path, query,
                       "", "state", "title")
                 else (netloc, path, query, "bugs", "status", "summary") in
          let uri := urlunsplit (scheme, netloc, path, query, fragment) in
          let '(response, st) := urlopen uri st in
          match (mbind (M := option) (info_of key)
                   (mbind (M := option) loads response)) with
          | None =>
              (Return details,
               {| _bugs := <[bug_uri := details]> (_bugs st); requests := requests st |})
          | Some info =>
              match details_from_info info status_key title_key details with
              | Raise e => (Raise e, st)
              | Return details =>
                  (Return details,
                   {| _bugs := <[bug_uri := details]> (_bugs st);
                      requests := requests st |})
              end
          end
      end
  end.

End Network.

(** A network on which every request fails. *)
Definition unreachable_network (history : list string) (uri : string) : option unit :=
  None.

(** A network that serves a page titled [Bug 1] and no JSON. *)
Definition page_network (history : list string) (uri : string) : option unit :=
  Some tt.

Definition sample_get_bug_details (network : list string -> string -> option unit)
    (bug_uri : string) (st : State) : result (option string) * State :=
  get_bug_details network (fun _ => "<title>Bug 1</title>")
    (fun _ => Some "Bug 1") (fun x => x) (fun x => x) (fun x => x)
    (fun _ => "https://bugs.example/show_bug.cgi?id=1")
    (fun _ => ("https", "bugs.example", "/show_bug.cgi", "id=1", ""))
    (fun parts => "https://bugs.example/rest/bug/1")
    (fun _ => None) (fun _ => "")
    bug_uri st.

Definition empty_state : State := {| _bugs := ∅; requests := [] |}.

(** The reading of the specification: whatever the state, a second call
    with the same URI sends no request. *)
Definition looked_up_at_most_once
    (get_bug_details : string -> State -> result (option string) * State) : Prop :=
  forall bug_uri st,
    let st1 := snd (get_bug_details bug_uri st) in
    requests (snd (get_bug_details bug_uri st1)) = requests st1.

End Bugs.

(** ** The result aggregator: [Atta._run_test] and [Atta.log_results_summary] *)

Module Results.
Import Py.

(** [len(set(x))]. *)
Definition distinct (x : list string) : nat :=
  size (list_to_set (C := gset string) x).

(** The lines of [_run_test] that file [assertion_string] under
    [self._results[key][test_file]]. *)
Definition record_result (key test_file assertion_string : string)
    (_results : gmap string (gmap string (list string)))
    : gmap string (gmap string (list string)) :=
  let status_results := default ∅ (_results !! key) in
  let file_results := default [] (status_results !! test_file) in
  let file_results := file_results ++ [assertion_string] in
  let status_results := <[test_file := file_results]> status_results in
  <[key := status_results]> _results.

(** [sum(map(lambda x: len(set(x)), result.values()))]. *)
Definition n_assertions (result : gmap string (list string)) : nat :=
  map_fold (fun _ n acc => n + acc) 0 (distinct <$> result).

(** [sorted(...)] on pairs whose first components, the keys of a dict, are
    distinct. *)
Definition key_le {A : Type} (a b : string * A) : Prop :=
  Is_true (String.leb (fst a) (fst b)).

#[export] Instance key_le_dec {A : Type} : RelDecision (@key_le A) :=
  fun a b => Is_true_dec (String.leb (fst a) (fst b)).

Definition sorted_items {A : Type} (items : list (string * A)) : list (string * A) :=
  merge_sort key_le items.

(** The numbered lines [(i + 1, test, len(set(assertions)))]. *)
Definition detail_lines (result : gmap string (list string)) : list (nat * string * nat) :=
  imap (fun i item => (i + 1, fst item, snd item))
    (sorted_items (map_to_list (distinct <$> result))).

(** What [output] prints: the label, the two counts and the detail lines. *)
Record line : Type := {
  label : string;
  assertions : nat;
  files : nat;
  details : list (nat * string * nat)
}.

(** The local function [output(key, label, detailed)]: it pops [key] from
    [results]. *)
Definition output (key : string) (label : option string) (detailed : bool)
    (results : gmap string (gmap string (list string)))
    : line * gmap string (gmap string (list string)) :=
  let label := default (key +:+ ": ") label in
  match results !! key with
  | None =>
      ({| label := label; assertions := 0; files := 0; details := [] |}, results)
  | Some result =>
      ({| label := label;
          assertions := n_assertions result;
          files := size result;
          details := if detailed then detail_lines result else [] |},
       delete key results)
  end.

Section Engine.

(** The assertion classes of [atta_assertion] and the other things that
    [_run_test] calls: the class of an assertion, the verdict
    [(result, message, log)] of running it on an element, the bug filed for
    it, the path of a URL and the rendering of an assertion with
    [" ".join(map(str, assertion))]. *)
Context {Element Assertion TestClass : Type}.
Variable STATUS_PASS STATUS_FAIL : string.
Variable _get_assertion_test_class : Assertion -> option TestClass.
Variable run : TestClass -> option Element -> Assertion -> string * string * string.
Variable get_bug : TestClass -> option Element -> Assertion -> string.
Variable urlsplit_path : string -> string.
Variable assertion_string : Assertion -> string.
Variable not_valid_message : Assertion -> string.

(** [Atta._run_test(obj, assertion)], with the URL of the pending test; the
    delay before an event assertion and the logging are left out. *)
Definition _run_test (url : string) (obj : option Element) (assertion : Assertion)
    (_results : gmap string (gmap string (list string)))
    : (string * string * string) * gmap string (gmap string (list string)) :=
  let '(bug, (result, message, log)) :=
    match _get_assertion_test_class assertion with
    | None =>
        let message := not_valid_message assertion in
        ("", (STATUS_FAIL, message, message))
    | Some test_class =>
        let '(result, message, log) := run test_class obj assertion in
        (if String.eqb result STATUS_FAIL then get_bug test_class obj assertion else "",
         (result, message, log))
    end in
  let test_file := urlsplit_path url in
  let key := if String.eqb bug "" then result else bug in
  ((result, message, log),
   record_result key test_file (assertion_string assertion) _results).

(** The key [bug or result] under which [_run_test] files an assertion. *)
Definition filed_under (obj : option Element) (assertion : Assertion) : string :=
  match _get_assertion_test_class assertion with
  | None => STATUS_FAIL
  | Some test_class =>
      let '(result, _, _) := run test_class obj assertion in
      let bug :=
        if String.eqb result STATUS_FAIL then get_bug test_class obj assertion else "" in
      if String.eqb bug "" then result else bug
  end.

(** [self.get_bug_details], on the state of the bug cache. *)
Variable get_bug_details : string -> Bugs.State -> result (option string) * Bugs.State.

(** The loop over the filed bugs that are left in [results]. *)
Fixpoint output_bugs (bugs : list string)
    (results : gmap string (gmap string (list string))) (cache : Bugs.State)
    : list line * result unit * gmap string (gmap string (list string)) * Bugs.State :=
  match bugs with
  | [] => ([], Return tt, results, cache)
  | bug :: rest =>
      match get_bug_details bug cache with
      | (Raise e, cache) => ([], Raise e, results, cache)
      | (Return details, cache) =>
          let label := "FAIL (" +:+ bug +:+ " " +:+ default "None" details +:+ "): " in
          let '(l, results) := output bug (Some label) false results in
          let '(lines, r, results, cache) := output_bugs rest results cache in
          (l :: lines, r, results, cache)
      end
  end.

(** [Atta.log_results_summary(clear_results)]: the lines printed, how the
    call ends, and [self._results] and the bug cache after it. Without
    [clear_results] the local [results] is [self._results] itself, so what
    [output] pops is gone from it. *)
Definition log_results_summary (clear_results : bool)
    (_results : gmap string (gmap string (list string))) (cache : Bugs.State)
    : list line * result unit * gmap string (gmap string (list string)) * Bugs.State :=
  let results := _results in
  let '(pass, results) := output STATUS_PASS None false results in
  let '(fail, results) := output STATUS_FAIL (Some "FAIL (unfiled): ") true results in
  let bugs := map fst (sorted_items (map_to_list results)) in
  let '(lines, r, results, cache) := output_bugs bugs results cache in
  (pass :: fail :: lines, r, if clear_results then ∅ else results, cache).

End Engine.

End Results.

(** ** More of [Atta._create_platform_assertions]: the shape of its output *)

Module EventsShape.
Import Events.

Section Shape.

Context {Value : Type}.

(** A platform assertion that carries the harness value, not a dictionary. *)
Definition is_plain (p : platform_assertion Value) : bool :=
  match p with
  | (_, _, _, Plain _) => true
  | (_, _, _, Properties _) => false
  end.

(** The value that the last tuple of [g] named [n] gives to [n]. *)
Definition last_value (n : string) (g : list (assertion Value)) : option Value :=
  fold_left (fun acc x =>
               let '(_, name, _, value) := x in
               if String.eqb name n then Some value else acc)
            g None.

End Shape.

End EventsShape.

(** ** The supported methods of [AtkAtta]: [get_supported_methods] *)

Module Supported.
Import Py Resolver.

Section Repository.

Context {Element : Type}.

(** The introspection repository, and [get_property_value(obj, "interfaces")]
    for an object, which is [None] when the reads have failed. *)
Variable find_by_name : string -> string -> option (list FunctionInfo).
Variable interfaces_of : Element -> result (option (list string)).

(** The local function [_include(method)]. *)
Definition _include (obj_interfaces : list string) (method : FunctionInfo) : bool :=
  bool_decide (get_container_name method ∈ obj_interfaces).

(** [for method in atk_info.get_methods()]: a method with a client-side
    counterpart is entered under its symbol. *)
Fixpoint add_methods (methods : list FunctionInfo)
    (_supported_methods : gmap string FunctionInfo)
    : result unit * gmap string FunctionInfo :=
  match methods with
  | [] => (Return tt, _supported_methods)
  | method :: rest =>
      match get_client_side_method find_by_name method with
      | Raise e => (Raise e, _supported_methods)
      | Return (Some _) =>
          add_methods rest (<[get_symbol method := method]> _supported_methods)
      | Return None => add_methods rest _supported_methods
      end
  end.

(** [for iface in self._interfaces]; [atk_info] is [None] for an interface
    that the repository does not know, and [None.get_methods()] raises. *)
Fixpoint add_interfaces (ifaces : list string)
    (_supported_methods : gmap string FunctionInfo)
    : result unit * gmap string FunctionInfo :=
  match ifaces with
  | [] => (Return tt, _supported_methods)
  | iface :: rest =>
      match find_by_name "Atk" iface with
      | None => (Raise AttributeError, _supported_methods)
      | Some methods =>
          match add_methods methods _supported_methods with
          | (Raise e, _supported_methods) => (Raise e, _supported_methods)
          | (Return _, _supported_methods) => add_interfaces rest _supported_methods
          end
      end
  end.

(** The dict comprehension [{k: v for k, v in d.items() if _include(v)}];
    [in None] raises as soon as there is an item to test. *)
Definition included (obj_interfaces : option (list string))
    (d : gmap string FunctionInfo) : result (gmap string FunctionInfo) :=
  match obj_interfaces with
  | Some obj_interfaces =>
      Return (filter (fun kv => _include obj_interfaces (snd kv) = true) d)
  | None => if bool_decide (d = ∅) then Return ∅ else Raise TypeError
  end.

(** [AtkAtta.get_supported_methods(obj)], on [self._interfaces] and
    [self._supported_methods]; it returns the dict and leaves the new
    [self._supported_methods]. *)
Definition get_supported_methods (_interfaces : list string) (obj : option Element)
    (_supported_methods : gmap string FunctionInfo)
    : result (gmap string FunctionInfo) * gmap string FunctionInfo :=
  match (match obj with
         | None => Return (Some _interfaces)
         | Some o => interfaces_of o
         end) with
  | Raise e => (Raise e, _supported_methods)
  | Return obj_interfaces =>
      if bool_decide (_supported_methods = ∅)
      then
        match add_interfaces _interfaces _supported_methods with
        | (Raise e, _supported_methods) => (Raise e, _supported_methods)
        | (Return _, _supported_methods) =>
            (included obj_interfaces _supported_methods, _supported_methods)
        end
      else (included obj_interfaces _supported_methods, _supported_methods)
  end.

(** A method of an ATK interface of [_interfaces] that has a client-side
    counterpart, filed under its own symbol. *)
Definition supported_entry (_interfaces : list string) (k : string) (m : FunctionInfo)
    : Prop :=
  get_symbol m = k
  /\ (exists iface methods,
        iface ∈ _interfaces /\ find_by_name "Atk" iface = Some methods /\ m ∈ methods)
  /\ exists client, get_client_side_method find_by_name m = Return (Some client).

End Repository.

(** The ATK side of a small repository whose client side is
    [sample_repository]. *)
Definition sample_atk_repository (namespace name : string) : option (list FunctionInfo) :=
  if String.eqb namespace "Atk" then
    if String.eqb name "Value" then
      Some [ {| get_container_name := "Value"; get_symbol := "atk_value_get_current_value" |};
             {| get_container_name := "Value"; get_symbol := "atk_value_set_value" |};
             {| get_container_name := "Value"; get_symbol := "atk_value_get_range" |} ]
    else if String.eqb name "Selection" then
      Some [ {| get_container_name := "Selection"; get_symbol := "atk_selection_ref_selection" |} ]
    else None
  else sample_repository namespace name.

End Supported.

(** ** Walks of the accessibility tree *)

Module Tree.
Import Py.

Section Walks.

Context {Element : Type}.
Variable _get_children : Element -> result (list Element).
Variable _get_parent : Element -> result (option Element).

(** [x] is [root], or is reached from it by repeated reads of the
    children. *)
Inductive in_subtree : Element -> Element -> Prop :=
| in_subtree_root root : in_subtree root root
| in_subtree_child root children child x :
    _get_children root = Return children ->
    child ∈ children ->
    in_subtree child x ->
    in_subtree root x.

(** The element [n] parent lookups above [x], if the chain is that long. *)
Fixpoint nth_parent (n : nat) (x : Element) : option Element :=
  match n with
  | O => Some x
  | S n =>
      match _get_parent x with
      | Return (Some p) => nth_parent n p
      | _ => None
      end
  end.

End Walks.

End Tree.

(** ** Titles *)

Module Titles.
Import Py.

Section Properties.

Context {Element : Type}.
Variable get_property_value : Element -> string -> result (option string).

(** A property that does not give a title: it is missing or empty. *)
Definition untitled (obj : Element) (attribute : string) : Prop :=
  get_property_value obj attribute = Return None
  \/ get_property_value obj attribute = Return (Some "").

End Properties.

End Titles.

(** ** Running the assertions of a test: [run_tests] *)

Module Runner.
Import Py Events Session Results.

(** The dict that [run_tests] returns: the status, the message of a run
    that was refused, and the verdicts [(result, message, log)]. *)
Record response : Type := {
  status : string;
  message : option string;
  results : list (string * string * string)
}.

Definition STATUS_ERROR : string := "ERROR".
Definition STATUS_OK : string := "OK".
Definition FAILURE_ATTA_NOT_ENABLED : string := "ATTA not enabled".
Definition FAILURE_ATTA_NOT_READY : string := "ATTA not ready".

Section RunTests.

Context {Element : Type} `{!EqDecision Element} {Data Value TestClass : Type}.

Local Abbreviation Atta := (Session.Atta Element Data).

(** The platform hooks of the session, and [_get_id]. *)
Variable _get_uri : Element -> result string.
Variable get_property_value : Element -> string -> result (option string).
Variable _get_title_property_names : list string.
Variable _get_children : Element -> result (list Element).
Variable _get_running_applications : result (list Element).
Variable _is_document : option Element -> result bool.
Variable _get_id : option Element -> result string.
Variable simplify_whitespace : string -> string.
Variable recursion_limit : nat.

(** What [_run_test] calls. *)
Variable STATUS_PASS STATUS_FAIL : string.
Variable _get_assertion_test_class : platform_assertion Value -> option TestClass.
Variable run :
  TestClass -> option Element -> platform_assertion Value -> string * string * string.
Variable get_bug : TestClass -> option Element -> platform_assertion Value -> string.
Variable urlsplit_path : string -> string.
Variable assertion_string : platform_assertion Value -> string.
Variable not_valid_message : platform_assertion Value -> string.

(** [Atta._get_element_with_id(root, element_id)]. *)
Definition _get_element_with_id (root : option Element) (element_id : option string)
    : result (option Element) :=
  if negb (truthy_name element_id) then Return None
  else
    let pred := fun x => id ← _get_id x; Return (bool_decide (Some id = element_id)) in
    _find_descendant _get_children recursion_limit root pred.

(** The list comprehension [[self._run_test(obj, a) for a in to_run]]. *)
Fixpoint run_each (url : string) (obj : option Element)
    (to_run : list (platform_assertion Value))
    (_results : gmap string (gmap string (list string)))
    : list (string * string * string) * gmap string (gmap string (list string)) :=
  match to_run with
  | [] => ([], _results)
  | a :: rest =>
      let '(verdict, _results) :=
        _run_test STATUS_FAIL _get_assertion_test_class run get_bug urlsplit_path
          assertion_string not_valid_message url obj a _results in
      let '(verdicts, _results) := run_each url obj rest _results in
      (verdict :: verdicts, _results)
  end.

(** [Atta.run_tests(obj_id, assertions)], on the session and on
    [self._results]. *)
Definition run_tests (obj_id : option string) (assertions : list (assertion Value))
    (s : Atta) (_results : gmap string (gmap string (list string)))
    : result response * Atta * gmap string (gmap string (list string)) :=
  if negb (_enabled s)
  then (Return {| status := STATUS_ERROR;
                  message := Some FAILURE_ATTA_NOT_ENABLED;
                  results := [] |}, s, _results)
  else
    match is_ready _get_uri get_property_value _get_title_property_names
            _get_children _get_running_applications _is_document
            simplify_whitespace recursion_limit None s with
    | (Raise e, s) => (Raise e, s, _results)
    | (Return false, s) =>
        (Return {| status := STATUS_ERROR;
                   message := Some FAILURE_ATTA_NOT_READY;
                   results := [] |}, s, _results)
    | (Return true, s) =>
        let to_run := _create_platform_assertions assertions in
        match _get_element_with_id (_current_document s) obj_id with
        | Raise e => (Raise e, s, _results)
        | Return obj =>
            let '(verdicts, _results) :=
              run_each (snd (_next_test s)) obj to_run _results in
            (Return {| status := STATUS_OK; message := None; results := verdicts |},
             s, _results)
        end
    end.

End RunTests.

(** The ids of the elements of the sample platform: element [n] has the id
    [e] followed by [n] strokes. *)
Definition sample_id (obj : option nat) : result string :=
  Return match obj with
         | Some n => String "e" (string_of_list_ascii (repeat "|"%char n))
         | None => ""
         end.

End Runner.

(** ** The load-complete callbacks of the adapters *)

Module LoadComplete.
Import Py Session.

Section Callbacks.

Context {Element : Type} `{!EqDecision Element} {Data Pid : Type}.

Local Abbreviation Atta := (Session.Atta Element Data).
Local Abbreviation M := (Session.M Element Data).

Variable _get_uri : Element -> result string.
Variable get_property_value : Element -> string -> result (option string).
Variable _get_title_property_names : list string.
Variable _get_children : Element -> result (list Element).
Variable _get_running_applications : result (list Element).
Variable _is_document : option Element -> result bool.
Variable simplify_whitespace : string -> string.
Variable recursion_limit : nat.

(** [get_property_value(obj, "application")], which raises for [None], and
    [Atspi.Accessible.set_cache_mask]. *)
Variable get_application : option Element -> result (option Element).
Variable set_cache_mask : Element -> result unit.

(** [AXUIElementGetPid] and [self._user_agents.get]. *)
Variable get_pid : option Element -> result Pid.
Variable _user_agents : Pid -> option Element.

(** What the other threads do to the adapter while the callback sleeps. *)
Variable during_sleep : Atta -> Atta.

Local Abbreviation is_ready :=
  (is_ready (Data := Data) _get_uri get_property_value _get_title_property_names
     _get_children _get_running_applications _is_document simplify_whitespace
     recursion_limit).

Local Open Scope atta_scope.

(** The two tests of [self._next_test] that open both callbacks: [true] when
    the callback is to go on. *)
Definition wait_for_test : M bool :=
  s <- get ;;
  (if bool_decide (_next_test s = (None, "")) then modify during_sleep else ret tt) ;;
  s <- get ;;
  ret (negb (bool_decide (_next_test s = (None, "")))).

(** [AtkAtta._on_load_complete(data)], on [data.source]. *)
Definition atk_on_load_complete (source : option Element) : M unit :=
  pending <- wait_for_test ;;
  if negb pending then ret tt
  else
    application <- call (get_application source) ;;
    match application with
    | None => ret tt
    | Some application =>
        app_name <- call (get_property_value application "name") ;;
        match app_name with
        | None => ret tt
        | Some app_name =>
            if String.eqb app_name "WebKitWebProcess" then ret tt
            else
              ready <- is_ready source ;;
              if (ready : bool)
              then
                call (set_cache_mask application) ;;
                modify (set_current_application (Some application))
              else ret tt
        end
    end.

(** [AxapiAtta._on_load_complete(data)]. *)
Definition axapi_on_load_complete (data : option Element) : M unit :=
  pending <- wait_for_test ;;
  if negb pending then ret tt
  else
    ready <- is_ready data ;;
    if (ready : bool)
    then
      pid <- call (get_pid data) ;;
      modify (set_current_application (_user_agents pid))
    else ret tt.

(** The adapter when the callback goes on after its wait. *)
Definition after_wait (s : Atta) : Atta :=
  if bool_decide (_next_test s = (None, "")) then during_sleep s else s.

End Callbacks.

End LoadComplete.

(** ** The request handler: [dispatch] and [get_params] *)

Module Handler.
Import Py Bugs.

(** [s.endswith(suffix)]: [suffix] is [s] or the end of its tail. *)
Fixpoint endswith (suffix s : string) : bool :=
  String.eqb suffix s
  || match s with
     | EmptyString => false
     | String _ rest => endswith suffix rest
     end.

(** The method of the handler that [dispatch] calls. *)
Inductive handler : Type :=
| StartTestRun
| StartListen
| RunTests
| StopListen
| EndTestRun
| SendError (code : Z) (message : string).

Definition dispatch (path : string) : handler :=
  if endswith "start" path then StartTestRun
  else if endswith "startlisten" path then StartListen
  else if endswith "test" path then RunTests
  else if endswith "stoplisten" path then StopListen
  else if endswith "end" path then EndTestRun
  else SendError 400 ("UNHANDLED PATH: " +:+ path).

(** The [for] loop of [get_params]: [submission.get(param)] raises when the
    submission is not an object, and a [null] counts as missing. *)
Fixpoint collect (submission : json) (params : list string)
    (response : gmap string json) (errors : list string)
    : result (gmap string json * list string) :=
  match params with
  | [] => Return (response, errors)
  | param :: rest =>
      match submission with
      | JDict items =>
          match lookup_item param items with
          | None | Some JNull =>
              collect submission rest response
                (errors ++ ["Parameter " +:+ param +:+ " not found"])
          | Some value => collect submission rest (<[param := value]> response) errors
          end
      | _ => Raise AttributeError
      end
  end.

(** [AttaRequestHandler.get_params]. The body of the request is
    read and decoded inside the [try]: [inr] is the decoded submission,
    [inl] the text of the traceback when something there raised. *)
Definition get_params (body : string + json) (params : list string)
    : result (gmap string json) :=
  let '(submission, errors) :=
    match body with
    | inr submission => (submission, [])
    | inl error => (JDict [], [error])
    end in
  '(response, errors) ← collect submission params ∅ errors;
  Return (<["error" := JString (String.concat "; " errors)]> response).

(** [submission.get(param)] with [null] read as missing. *)
Definition submitted (items : list (string * json)) (param : string) : option json :=
  match lookup_item param items with
  | None | Some JNull => None
  | Some value => Some value
  end.

End Handler.

(** ** Calls written as strings: [string_to_method_and_arguments] *)

Module Calls.
Import Py Resolver Supported.

(** [re.split("\(", s, maxsplit=1)] when the parenthesis occurs: the text
    before its first occurrence and the text after it. *)
Fixpoint split_once (sep : ascii) (s : string) : option (string * string) :=
  match s with
  | EmptyString => None
  | String c rest =>
      if Ascii.eqb c sep then Some ("", rest)
      else
        match split_once sep rest with
        | Some (before, after) => Some (String c before, after)
        | None => None
        end
  end.

(** [s.split(sep)] for a separator of one character. *)
Fixpoint split (sep : ascii) (s : string) : list string :=
  match s with
  | EmptyString => [""]
  | String c rest =>
      if Ascii.eqb c sep then "" :: split sep rest
      else
        match split sep rest with
        | [] => [String c ""]
        | x :: xs => String c x :: xs
        end
  end.

(** [s[:-1]]. *)
Fixpoint drop_last (s : string) : string :=
  match s with
  | EmptyString => ""
  | String c EmptyString => ""
  | String c rest => String c (drop_last rest)
  end.

(** The [try] that opens the method in both adapters, with its [except] and
    [else]: the name of the method and the list of the arguments. *)
Definition method_and_args (callable_as_string : string) : string * list string :=
  match split_once "(" callable_as_string with
  | Some (method_string, args_string) =>
      let args_string := drop_last args_string in
      (method_string,
       List.filter (fun x => negb (String.eqb x "")) (split "," args_string))
  | None => (callable_as_string, [])
  end.

(** [c] occurs in [s]. *)
Fixpoint occurs (c : ascii) (s : string) : bool :=
  match s with
  | EmptyString => false
  | String c' rest => Ascii.eqb c' c || occurs c rest
  end.

(** How the method ends when it does not return. *)
Inductive error : Type :=
| NameError (name : string)
| Error (e : exn).

(** *** The AXAPI adapter *)

(** [AxapiAtta.get_supported_methods()]: the names of the dict. *)
Definition axapi_supported_methods : list string :=
  ["AXUIElementIsAttributeSettable"].

(** [AxapiAtta.string_to_method_and_arguments]: the method, by its name,
    and the arguments with the [None] that is appended. *)
Definition axapi_string_to_method_and_arguments (callable_as_string : string)
    : error + (string * list (option string)) :=
  let '(method_string, args_list) := method_and_args callable_as_string in
  if bool_decide (method_string ∈ axapi_supported_methods)
  then inr (method_string, map Some args_list ++ [None])
  else inl (NameError method_string).

(** *** The ATK adapter *)

(** The tags of [gi.docstring.TypeTag] that the adapter tells apart. *)
Inductive TypeTag : Type :=
| BOOLEAN | INT8 | UINT8 | INT16 | UINT16 | INT32 | UINT32 | INT64 | UINT64
| FLOAT | DOUBLE | GLIST | GSLIST | ARRAY | GHASH | UTF8 | FILENAME | UNICHAR
| OTHER.

Inductive python_type : Type :=
| Tbool | Tint | Tfloat | Tlist | Tdict | Tstr.

(** [AtkAtta.platform_type_to_python_type]. *)
Definition platform_type_to_python_type (platform_type : TypeTag) : python_type :=
  match platform_type with
  | BOOLEAN => Tbool
  | INT8 | UINT8 | INT16 | UINT16 | INT32 | UINT32 | INT64 | UINT64 => Tint
  | FLOAT | DOUBLE => Tfloat
  | GLIST | GSLIST | ARRAY => Tlist
  | GHASH => Tdict
  | UTF8 | FILENAME | UNICHAR => Tstr
  | OTHER => Tstr
  end.

Section Atk.

Context {Element Float : Type}.

Variable find_by_name : string -> string -> option (list FunctionInfo).
Variable interfaces_of : Element -> result (option (list string)).

(** The tags of the arguments of a method whose direction is [IN], and the
    parsers of [int] and [float]; [None] when they raise [ValueError]. *)
Variable in_argument_tags : FunctionInfo -> list TypeTag.
Variable int_of_string : string -> option Z.
Variable float_of_string : string -> option Float.

(** The values that the conversions give. *)
Inductive argument : Type :=
| Vbool (b : bool)
| Vint (n : Z)
| Vfloat (x : Float)
| Vlist (items : list string)
| Vdict
| Vstr (s : string).

(** [py_type(arg)] for a string [arg]. A string that is not empty has no
    reading as a dict. *)
Definition convert (py_type : python_type) (arg : string) : result argument :=
  match py_type with
  | Tbool => Return (Vbool (negb (String.eqb arg "")))
  | Tint =>
      match int_of_string arg with
      | Some n => Return (Vint n)
      | None => Raise ValueError
      end
  | Tfloat =>
      match float_of_string arg with
      | Some x => Return (Vfloat x)
      | None => Raise ValueError
      end
  | Tlist => Return (Vlist (map (fun c => String c "") (list_ascii_of_string arg)))
  | Tdict => if String.eqb arg "" then Return Vdict else Raise ValueError
  | Tstr => Return (Vstr arg)
  end.

(** [[py_types[i](arg) for i, arg in enumerate(args_list)]], for lists of
    one length. *)
Fixpoint convert_all (py_types : list python_type) (args_list : list string)
    : result (list argument) :=
  match py_types, args_list with
  | py_type :: py_types, arg :: args_list =>
      v ← convert py_type arg;
      vs ← convert_all py_types args_list;
      Return (v :: vs)
  | _, _ => Return []
  end.

(** [AtkAtta.string_to_method_and_arguments], on [self._interfaces] and
    [self._supported_methods]. The branch of the wrong number of arguments
    reads [self._atta], which the adapter does not have, before it can raise
    its [TypeError]. *)
Definition atk_string_to_method_and_arguments (_interfaces : list string)
    (callable_as_string : string) (_supported_methods : gmap string FunctionInfo)
    : (error + (FunctionInfo * list argument)) * gmap string FunctionInfo :=
  let '(method_string, args_list) := method_and_args callable_as_string in
  match get_supported_methods find_by_name interfaces_of _interfaces None
          _supported_methods with
  | (Raise e, _supported_methods) => (inl (Error e), _supported_methods)
  | (Return supported_methods, _supported_methods) =>
      match supported_methods !! method_string with
      | None => (inl (NameError method_string), _supported_methods)
      | Some method =>
          let arg_types := in_argument_tags method in
          if negb (Nat.eqb (length arg_types) (length args_list))
          then (inl (Error AttributeError), _supported_methods)
          else
            let py_types := map platform_type_to_python_type arg_types in
            match convert_all py_types args_list with
            | Raise e => (inl (Error e), _supported_methods)
            | Return args => (inr (method, args), _supported_methods)
            end
      end
  end.

End Atk.

Arguments argument : clear implicits.

End Calls.

(** ** The reads of the ATK adapter that are built on the retrying ones *)

Module AtkReads.
Import Py Retry.

Section Reads.

Context {Element Payload : Type}.

Variable clear_cache_outcome : list (action Element) -> Element -> result unit.
Variable getter_outcome :
  list (action Element) -> string -> option Element -> result (value Payload).
Variable document_attribute_outcome :
  list (action Element) -> Element -> string -> result (option string).
Variable print_outcome : list (action Element) -> result unit.

(** [x == Atspi.Role.DOCUMENT_WEB] for a value of the platform,
    [range(count)] ([None] when it raises), and
    [Atspi.Accessible.get_child_at_index(obj, i)]. *)
Variable is_document_web : Payload -> bool.
Variable range : value Payload -> option (list nat).
Variable child_outcome : list (action Element) -> Element -> nat -> result Element.

Local Abbreviation get_property_value :=
  (get_property_value clear_cache_outcome getter_outcome print_outcome).
Local Abbreviation _get_uri :=
  (_get_uri clear_cache_outcome document_attribute_outcome print_outcome).

(** [role == Atspi.Role.DOCUMENT_WEB]. *)
Definition role_is_document_web (role : value Payload) : bool :=
  match role with
  | VPlatform v => is_document_web v
  | _ => false
  end.

(** [AtkAtta._is_document(obj)]. *)
Definition _is_document (obj : option Element) (t : list (action Element))
    : result bool * list (action Element) :=
  match obj with
  | None => (Return false, t)
  | Some _ =>
      match get_property_value obj "role" 0 t with
      | (Raise e, t) => (Raise e, t)
      | (Return role, t) =>
          if role_is_document_web role
          then
            match _get_uri obj 0 t with
            | (Raise e, t) => (Raise e, t)
            | (Return uri, t) => (Return (negb (String.eqb uri "")), t)
            end
          else (Return false, t)
      end
  end.

(** The list comprehension over [range(count)], inside the [try]: [None]
    when the range or one of the reads raises. *)
Fixpoint read_children (obj : Element) (indices : list nat) (t : list (action Element))
    : option (list Element) :=
  match indices with
  | [] => Some []
  | i :: rest =>
      match child_outcome t obj i with
      | Raise _ => None
      | Return child =>
          match read_children obj rest t with
          | Some children => Some (child :: children)
          | None => None
          end
      end
  end.

Definition children_of (obj : option Element) (count : value Payload)
    (t : list (action Element)) : option (list Element) :=
  match obj, range count with
  | Some o, Some indices => read_children o indices t
  | _, _ => None
  end.

(** [AtkAtta._get_children(obj, retries=...)]. *)
Equations? _get_children (obj : option Element) (retries : nat)
    (t : list (action Element)) : result (list Element) * list (action Element)
    by wf (S _retry_limit - retries) lt :=
_get_children obj retries t with lt_dec _retry_limit retries := {
  | left _ with print_error print_outcome t := {
      | (Raise e, t1) := (Raise e, t1);
      | (Return _, t1) := (Return [], t1) };
  | right _ with get_property_value obj "childCount" 0 t := {
      | (Raise e, t1) := (Raise e, t1);
      | (Return VNone, t1) := (Return [], t1);
      | (Return count, t1) with children_of obj count t1 := {
          | Some children := (Return children, t1);
          | None := _get_children obj (S retries) (t1 ++ [Sleep 1000]) } } }.
Proof. all: unfold _retry_limit in *; lia. Qed.

(** A value that the platform gave for a property, and a URI that it gave
    for a document. *)
Definition from_getter (property_name : string) (obj : option Element)
    (v : value Payload) : Prop :=
  exists h res,
    getter_outcome h property_name obj = Return res
    /\ v = text_attributes_as_list property_name res.

Definition from_document (document : Element) (uri : string) : Prop :=
  uri <> ""
  /\ exists h name,
       name ∈ ["DocURL"; "URI"]
       /\ document_attribute_outcome h document name = Return (Some uri).

(** The sleeps of one second. *)
Definition is_long_sleep (a : action Element) : bool :=
  match a with
  | Sleep ms => Nat.eqb ms 1000
  | _ => false
  end.

End Reads.

End AtkReads.

(** * Properties *)

Import Events.

Section EventsFacts.

Context {Value : Type}.
Implicit Types (properties : gmap string Value).

Local Abbreviation assertion := (Events.assertion Value).
Local Abbreviation platform_assertion := (Events.platform_assertion Value).

(** *** The index-based loop and its structural reading agree *)

Lemma in_enumerate_from (l : list assertion) (s i : nat) (x : assertion) :
  In (i, x) (combine (seq s (length l)) l) <-> s <= i /\ l !! (i - s) = Some x.
Proof.
  revert s; induction l as [|a l IH]; intros s; simpl.
  - split; [tauto | intros [_ H]; discriminate].
  - rewrite IH. split.
    + intros [H | [Hle Hl]].
      * inversion H; subst. split; [lia|]. by rewrite Nat.sub_diag.
      * split; [lia|]. replace (i - s) with (S (i - S s)) by lia. exact Hl.
    + intros [Hle Hl]. destruct (decide (i = s)) as [->|Hne].
      * left. rewrite Nat.sub_diag in Hl. simpl in Hl. congruence.
      * right. split; [lia|]. replace (i - s) with (S (i - S s)) in Hl by lia.
        exact Hl.
Qed.

Lemma elem_of_indices (l : list assertion) (k : nat) :
  k ∈ indices l <->
  k = length l \/ exists x, l !! k = Some x /\ is_new_event x = true.
Proof.
  unfold indices, enumerate. rewrite list_elem_of_In, in_app_iff, in_map_iff.
  split.
  - intros [[[i x] [Hfst Hin]] | [H | []]]; [right | left; congruence].
    simpl in Hfst; subst i. apply filter_In in Hin as [Hin Hnew].
    apply in_enumerate_from in Hin as [_ Hl]. rewrite Nat.sub_0_r in Hl.
    by exists x.
  - intros [-> | [x [Hl Hnew]]]; [right; by left | left].
    exists (k, x). split; [done|]. apply filter_In. split; [|done].
    apply in_enumerate_from. split; [lia|]. by rewrite Nat.sub_0_r.
Qed.

(** Whether the index after position [length pre] is in [indices]. *)
Lemma next_index_starts_group (pre : list assertion) (a : assertion)
    (rest : list assertion) :
  bool_decide (length pre + 1 ∈ indices (pre ++ a :: rest)) = starts_group rest.
Proof.
  assert (Hlk : (pre ++ a :: rest) !! (length pre + 1) = rest !! 0).
  { rewrite lookup_app_r by lia.
    replace (length pre + 1 - length pre) with 1 by lia. done. }
  destruct rest as [|x rest]; simpl.
  - apply bool_decide_eq_true. apply elem_of_indices. left.
    rewrite length_app. simpl. lia.
  - destruct (is_new_event x) eqn:Hx.
    + apply bool_decide_eq_true. apply elem_of_indices. right.
      exists x. by rewrite Hlk.
    + apply bool_decide_eq_false. rewrite elem_of_indices.
      intros [Hlen | [y [Hy Hnew]]].
      * rewrite length_app in Hlen. simpl in Hlen. lia.
      * rewrite Hlk in Hy. simpl in Hy. congruence.
Qed.

Lemma loop_correlate (pre suf : list assertion)
    (acc : list platform_assertion) (properties : gmap string Value) :
  fst (fold_left (loop_body (indices (pre ++ suf)))
         (combine (seq (length pre) (length suf)) suf) (acc, properties))
  = acc ++ correlate properties suf.
Proof.
  revert pre acc properties.
  induction suf as [|[[[test_type name] verb] value] rest IH];
    intros pre acc properties; simpl.
  - by rewrite app_nil_r.
  - specialize (IH (pre ++ [(test_type, name, verb, value)])).
    rewrite <- app_assoc in IH. simpl in IH.
    rewrite length_app in IH. simpl in IH.
    replace (length pre + 1) with (S (length pre)) in IH by lia.
    destruct (negb (String.eqb test_type "event")).
    + rewrite IH. by rewrite <- app_assoc.
    + rewrite next_index_starts_group.
      destruct (starts_group rest); rewrite IH; [|done].
      by rewrite <- app_assoc.
Qed.

Lemma create_platform_assertions_correlate (assertions : list assertion) :
  _create_platform_assertions assertions = correlate ∅ assertions.
Proof.
  unfold _create_platform_assertions, enumerate.
  exact (loop_correlate [] assertions [] ∅).
Qed.

Lemma correlate_event_run (a : assertion) (more rest : list assertion)
    (properties : gmap string Value) :
  is_event a = true ->
  forallb is_event_detail more = true ->
  starts_group rest = true ->
  correlate properties (a :: more ++ rest)
  = combined (fold_left add_property (a :: more) properties) :: correlate ∅ rest.
Proof.
  revert a properties.
  induction more as [|y more IH]; intros [[[t n] v] val] properties Ha Hmore Hrest.
  - simpl in *. rewrite Ha. simpl. by rewrite Hrest.
  - simpl in Hmore. apply andb_true_iff in Hmore as [Hy Hmore].
    assert (Hye : is_event y = true /\ is_new_event y = false).
    { destruct y as [[[ty ny] vy] valy]. simpl in *.
      apply andb_true_iff in Hy as [H1 H2]. apply negb_true_iff in H2. done. }
    destruct Hye as [Hye Hyn].
    change (correlate properties ((t, n, v, val) :: (y :: more) ++ rest))
      with (if negb (String.eqb t "event")
            then (t, n, v, Plain val) :: correlate properties ((y :: more) ++ rest)
            else if starts_group ((y :: more) ++ rest)
                 then combined (<[n := val]> properties) :: correlate ∅ ((y :: more) ++ rest)
                 else correlate (<[n := val]> properties) ((y :: more) ++ rest)).
    simpl in Ha. rewrite Ha. simpl negb. cbv iota.
    replace (starts_group ((y :: more) ++ rest)) with false by (simpl; by rewrite Hyn).
    simpl app. rewrite (IH y _ Hye Hmore Hrest). done.
Qed.

Lemma starts_group_concat (gs : list (list assertion)) :
  forallb is_event_group gs = true -> starts_group (concat gs) = true.
Proof.
  destruct gs as [|[|x more] gs]; simpl; try done.
  intros H. apply andb_true_iff in H as [H _].
  by apply andb_true_iff in H as [H _].
Qed.

Lemma correlate_groups (gs : list (list assertion)) :
  forallb is_event_group gs = true ->
  correlate ∅ (concat gs)
  = map (fun g => combined (fold_left add_property g ∅)) gs.
Proof.
  induction gs as [|g gs IH]; [done|].
  intros H. simpl in H. apply andb_true_iff in H as [Hg Hgs].
  destruct g as [|x more]; [done|]. simpl in Hg.
  apply andb_true_iff in Hg as [Hx Hmore].
  change (concat ((x :: more) :: gs)) with (x :: more ++ concat gs).
  rewrite correlate_event_run; try done.
  - rewrite (IH Hgs). done.
  - destruct x as [[[t n] v] val]. simpl in *.
    by apply andb_true_iff in Hx as [Hx _].
  - by apply starts_group_concat.
Qed.

Lemma in_indices_boundary_at (assertions : list assertion) (k : nat) :
  bool_decide (k ∈ indices assertions) = boundary_at assertions k.
Proof.
  unfold boundary_at. destruct (assertions !! k) as [x|] eqn:Hk.
  - destruct (is_new_event x) eqn:Hx.
    + apply bool_decide_eq_true, elem_of_indices. right. by exists x.
    + apply bool_decide_eq_false. rewrite elem_of_indices.
      intros [Hlen | [y [Hy Hnew]]]; [|congruence].
      apply lookup_lt_Some in Hk. lia.
  - destruct (Nat.eqb_spec k (length assertions)) as [Heq|Hne].
    + apply bool_decide_eq_true, elem_of_indices. by left.
    + apply bool_decide_eq_false. rewrite elem_of_indices.
      intros [Hlen | [y [Hy _]]]; congruence.
Qed.

(** What one iteration does with an event tuple, in terms of the list. *)
Lemma loop_body_event (assertions : list assertion) (i : nat)
    (name verb : string) (value : Value)
    (acc : list platform_assertion) (properties : gmap string Value) :
  loop_body (indices assertions) (acc, properties) (i, ("event", name, verb, value))
  = if boundary_at assertions (i + 1)
    then (acc ++ [combined (<[name := value]> properties)], ∅)
    else (acc, <[name := value]> properties).
Proof. simpl. by rewrite in_indices_boundary_at. Qed.

(** A run of event tuples followed only by non-event assertions is never
    emitted. *)
Lemma correlate_no_event (properties : gmap string Value) (rest : list assertion) :
  forallb (fun x => negb (is_event x)) rest = true ->
  correlate properties rest = map plain rest.
Proof.
  induction rest as [|[[[t n] v] val] rest IH]; [done|]. simpl.
  intros H. apply andb_true_iff in H as [Ht Hrest]. rewrite Ht.
  by rewrite (IH Hrest).
Qed.

Lemma correlate_dropped_run (run rest : list assertion)
    (properties : gmap string Value) :
  forallb is_event_detail run = true ->
  rest <> [] ->
  forallb (fun x => negb (is_event x)) rest = true ->
  correlate properties (run ++ rest) = map plain rest.
Proof.
  intros Hrun Hne Hrest. revert properties.
  assert (Hsg : forall l, forallb is_event_detail l = true ->
                          starts_group (l ++ rest) = false).
  { intros [|y l] Hl; simpl.
    - destruct rest as [|[[[t n] v] val] rest']; [done|]. simpl in *.
      apply andb_true_iff in Hrest as [Ht _]. apply negb_true_iff in Ht.
      by rewrite Ht.
    - simpl in Hl. apply andb_true_iff in Hl as [Hy _].
      destruct y as [[[t n] v] val]. simpl in *.
      apply andb_true_iff in Hy as [_ Hy]. by apply negb_true_iff in Hy. }
  induction run as [|[[[t n] v] val] run IH]; intros properties.
  - by apply correlate_no_event.
  - simpl in Hrun. apply andb_true_iff in Hrun as [Ha Hrun].
    apply andb_true_iff in Ha as [Ht _].
    simpl. rewrite Ht. simpl. rewrite (Hsg run Hrun). by apply IH.
Qed.

Lemma correlate_dropped_group (a : assertion) (more rest : list assertion)
    (properties : gmap string Value) :
  is_event a = true ->
  forallb is_event_detail more = true ->
  rest <> [] ->
  forallb (fun x => negb (is_event x)) rest = true ->
  correlate properties (a :: more ++ rest) = map plain rest.
Proof.
  intros Ha Hmore Hne Hrest. destruct a as [[[t n] v] val]. simpl in Ha.
  assert (Hsg : starts_group (more ++ rest) = false).
  { destruct more as [|y more]; simpl.
    - destruct rest as [|[[[t' n'] v'] val'] rest']; [done|]. simpl in *.
      apply andb_true_iff in Hrest as [Ht _]. apply negb_true_iff in Ht.
      by rewrite Ht.
    - simpl in Hmore. apply andb_true_iff in Hmore as [Hy _].
      destruct y as [[[ty ny] vy] valy]. simpl in *.
      apply andb_true_iff in Hy as [_ Hy]. by apply negb_true_iff in Hy. }
  simpl. rewrite Ha. simpl. rewrite Hsg. by apply correlate_dropped_run.
Qed.

End EventsFacts.

(** C2. For the three event tuples of the example the function returns
    exactly two combined assertions, [{"type":"Foo","detail1":"1"}] and
    [{"type":"Bar"}], in that order; and in general a list made of logical
    events (each opened by a tuple whose property name is [type]) is folded
    into one [("event","event","contains",properties)] assertion per event. *)
Theorem create_platform_assertions_event_correlation :
  _create_platform_assertions
    [("event", "type", "equals", "Foo");
     ("event", "detail1", "equals", "1");
     ("event", "type", "equals", "Bar")]
  = [("event", "event", "contains", Properties {["type" := "Foo"; "detail1" := "1"]});
     ("event", "event", "contains", Properties {["type" := "Bar"]})]
  /\ forall (Value : Type) (gs : list (list (assertion Value))),
       forallb is_event_group gs = true ->
       _create_platform_assertions (concat gs)
       = map (fun g => ("event", "event", "contains",
                        Properties (fold_left add_property g ∅))) gs.
Proof.
  split.
  - vm_compute. reflexivity.
  - intros Value gs Hgs. rewrite create_platform_assertions_correlate.
    by apply correlate_groups.
Qed.

Lemma create_platform_assertions_event_correlation_witness :
  forallb is_event_group
    [[("event", "type", "equals", "Foo"); ("event", "detail1", "equals", "1")];
     [("event", "type", "equals", "Bar")]] = true
  /\ _create_platform_assertions
       (concat [[("event", "type", "equals", "Foo"); ("event", "detail1", "equals", "1")];
                [("event", "type", "equals", "Bar")]])
     = map (fun g => ("event", "event", "contains",
                      Properties (fold_left add_property g ∅)))
         [[("event", "type", "equals", "Foo"); ("event", "detail1", "equals", "1")];
          [("event", "type", "equals", "Bar")]].
Proof.
  split; [reflexivity|].
  apply (proj2 create_platform_assertions_event_correlation string). reflexivity.
Defined.

(** C10. An iteration on an event tuple at index [i] emits the accumulated
    properties only when index [i + 1] opens a new event or is the end of the
    list; so for [("event","type","equals","Foo"), ("property","role","is",
    "button")] only the property assertion is returned, and more generally
    the properties of an event whose tuples are followed only by non-event
    assertions never reach the output. *)
Theorem create_platform_assertions_drops_unterminated_event :
  (forall (Value : Type) (assertions : list (assertion Value)) (i : nat)
          (name verb : string) (value : Value)
          (acc : list (platform_assertion Value)) (properties : gmap string Value),
     loop_body (indices assertions) (acc, properties)
       (i, ("event", name, verb, value))
     = if boundary_at assertions (i + 1)
       then (acc ++ [("event", "event", "contains",
                      Properties (<[name := value]> properties))], ∅)
       else (acc, <[name := value]> properties))
  /\ _create_platform_assertions
       [("event", "type", "equals", "Foo"); ("property", "role", "is", "button")]
     = [("property", "role", "is", Plain "button")]
  /\ (forall (Value : Type) (a : assertion Value) (more rest : list (assertion Value)),
        is_event a = true ->
        forallb is_event_detail more = true ->
        rest <> [] ->
        forallb (fun x => negb (is_event x)) rest = true ->
        _create_platform_assertions (a :: more ++ rest) = map plain rest).
Proof.
  split; [|split].
  - intros. apply loop_body_event.
  - vm_compute. reflexivity.
  - intros Value a more rest Ha Hmore Hne Hrest.
    rewrite create_platform_assertions_correlate.
    by apply correlate_dropped_group.
Qed.

Lemma create_platform_assertions_drops_unterminated_event_witness :
  _create_platform_assertions
    (("event", "type", "equals", "Foo")
       :: [("event", "detail1", "equals", "1")]
       ++ [("property", "role", "is", "button"); ("relation", "RELATION_LABELLED_BY", "equals", "x")])
  = map plain
      [("property", "role", "is", "button"); ("relation", "RELATION_LABELLED_BY", "equals", "x")].
Proof.
  apply (proj2 (proj2 create_platform_assertions_drops_unterminated_event) string);
    [reflexivity | reflexivity | discriminate | reflexivity].
Defined.

Import Py Resolver.

(** *** Facts about the Python primitives *)

Lemma index_map_find {A : Type} (f : A -> string) (c : string) (l : list A) :
  c ∈ map f l ->
  exists n k, Py.index c (map f l) = Return n /\ l !! n = Some k
              /\ List.find (fun x => String.eqb (f x) c) l = Some k.
Proof.
  induction l as [|a l IH]; simpl; intros Hin.
  - by apply elem_of_nil in Hin.
  - destruct (String.eqb_spec (f a) c) as [Heq|Hne].
    + exists 0, a. done.
    + apply elem_of_cons in Hin as [Hc|Hin]; [congruence|].
      destruct (IH Hin) as (n & k & Hidx & Hl & Hfind).
      exists (S n), k. rewrite Hidx. done.
Qed.

Lemma find_not_in_map {A : Type} (f : A -> string) (c : string) (l : list A) :
  c ∉ map f l -> List.find (fun x => String.eqb (f x) c) l = None.
Proof.
  induction l as [|a l IH]; simpl; intros Hin; [done|].
  apply not_elem_of_cons in Hin as [Hne Hin].
  destruct (String.eqb_spec (f a) c); [congruence|]. by apply IH.
Qed.

Lemma fold_left_snoc {A B : Type} (f : A -> B -> A) (l : list B) (b : B) (a : A) :
  fold_left f (l ++ [b]) a = f (fold_left f l a) b.
Proof. by rewrite fold_left_app. Qed.

(** The keys of the methods dict are exactly the symbols it maps, and each
    is mapped to a method carrying that symbol. *)
Lemma methods_keys_dict (methods : list FunctionInfo) (k : string) :
  (k ∈ methods_keys methods <-> is_Some (methods_dict methods !! k))
  /\ (forall m, methods_dict methods !! k = Some m -> get_symbol m = k /\ m ∈ methods).
Proof.
  unfold methods_keys, methods_dict.
  induction methods as [|m methods IH] using rev_ind.
  - simpl. split.
    + split; [intros H; by apply elem_of_nil in H|].
      rewrite lookup_empty. by intros [? ?].
    + intros m. by rewrite lookup_empty.
  - rewrite !fold_left_snoc. destruct IH as [IHk IHd].
    split.
    + rewrite lookup_insert. case_bool_decide as Hin; case_decide as Heq; subst.
      * split; [by eauto | intros _; done].
      * done.
      * split; [by eauto|]. intros _. apply elem_of_app. right. by apply list_elem_of_singleton.
      * rewrite elem_of_app, list_elem_of_singleton. rewrite <- IHk. split; [|tauto].
        intros [H|H]; [done|congruence].
    + intros m'. rewrite lookup_insert. case_decide as Heq.
      * intros [= <-]. split; [done|]. apply elem_of_app. right. by apply list_elem_of_singleton.
      * intros H. destruct (IHd _ H) as [H1 H2]. split; [done|].
        apply elem_of_app. by left.
Qed.

Lemma replace_from_absent (old new s : string) :
  PyStr.contains old s = false -> PyStr.replace_from old new 0 s = s.
Proof.
  induction s as [|c t IH]; [done|].
  intros H. cbn [PyStr.contains] in H. apply orb_false_iff in H as [Hp Ht].
  cbn [PyStr.replace_from]. rewrite Hp. by rewrite (IH Ht).
Qed.

(** On a symbol of the ATK family, where [atk] occurs as the prefix only,
    [replace("atk", "atspi")] is the substitution of the prefix. *)
Lemma replace_atk_prefix (rest : string) :
  PyStr.contains "atk" rest = false ->
  PyStr.replace "atk" "atspi" ("atk" +:+ rest) = "atspi" +:+ rest.
Proof.
  intros H. unfold PyStr.replace.
  change ("atk" +:+ rest) with (String "a" (String "t" (String "k" rest))).
  cbn. rewrite (replace_from_absent _ _ _ H).
  by replace (String.prefix "" rest) with true by (by destruct rest).
Qed.

Lemma substitute_api_prefix_family (rest : string) :
  substitute_api_prefix ("atk" +:+ rest) = "atspi" +:+ rest.
Proof. reflexivity. Qed.

(** The strategies read the substitution at the symbol only. *)
Lemma first_match_substitute (f g : string -> string) (symbols : list string)
    (s : string) :
  f s = g s ->
  first_match (strategies f) symbols s = first_match (strategies g) symbols s.
Proof.
  intros Heq. unfold strategies. cbn [first_match].
  unfold by_prefix_substitution, by_ref_to_get, by_ref_at_to_get_accessible_at,
    by_collapsed_symbol. by rewrite Heq.
Qed.

Section ResolverFacts.

Variable find_by_name : string -> string -> option (list FunctionInfo).

(** The strategies after the manual table. *)
Lemma heuristics_resolve (info : list FunctionInfo) (s : string) :
  let d := methods_dict info in
  let symbols := methods_keys info in
  let candidate_symbol := PyStr.replace "atk" "atspi" s in
  (if bool_decide (candidate_symbol ∈ symbols)
   then Return (d !! candidate_symbol)
   else
     let replaced := PyStr.replace "_ref_" "_get_" candidate_symbol in
     if bool_decide (replaced ∈ symbols)
     then Return (d !! replaced)
     else
       let replaced := PyStr.replace "_ref_at" "_get_accessible_at" candidate_symbol in
       if bool_decide (replaced ∈ symbols)
       then Return (d !! replaced)
       else
         let collapsed := PyStr.replace "_" "" candidate_symbol in
         let matches := map (PyStr.replace "_" "") symbols in
         if bool_decide (collapsed ∈ matches)
         then
           index ← Py.index collapsed matches;
           key ← getitem symbols index;
           Return (d !! key)
         else
           if PyStr.contains "_get_" s && PyStr.contains "_count" s
           then
             let matches := List.filter (PyStr.contains "get_n_") symbols in
             if Nat.eqb (length matches) 1
             then key ← getitem matches 0; Return (d !! key)
             else Return None
           else Return None)
  = Return (first_match (tail (strategies replace_api_name)) symbols s ≫= (d !!.)).
Proof.
  intros d symbols candidate_symbol. unfold strategies. cbn [tail first_match].
  unfold by_prefix_substitution, by_ref_to_get, by_ref_at_to_get_accessible_at, found.
  unfold replace_api_name. fold candidate_symbol.
  destruct (bool_decide (candidate_symbol ∈ symbols)); [done|].
  cbv zeta.
  destruct (bool_decide (PyStr.replace "_ref_" "_get_" candidate_symbol ∈ symbols));
    [done|].
  destruct (bool_decide
              (PyStr.replace "_ref_at" "_get_accessible_at" candidate_symbol ∈ symbols));
    [done|].
  unfold by_collapsed_symbol, replace_api_name. fold candidate_symbol. cbv zeta.
  case_bool_decide as Hc.
  - destruct (index_map_find (PyStr.replace "_" "") _ _ Hc) as (n & k & Hidx & Hn & Hfind).
    rewrite Hidx, Hfind. cbn [mbind result_bind option_bind].
    unfold getitem. rewrite Hn. done.
  - rewrite (find_not_in_map _ _ _ Hc). unfold by_count_getter.
    destruct (PyStr.contains "_get_" s && PyStr.contains "_count" s); [|done].
    destruct (List.filter (PyStr.contains "get_n_") symbols) as [|x [|y l]]; done.
Qed.

(** The code computes the first match of the ordered strategies, and never
    raises. *)
Lemma get_client_side_method_resolve (server_side_method : FunctionInfo) :
  get_client_side_method find_by_name server_side_method
  = Return (resolve find_by_name replace_api_name server_side_method).
Proof.
  unfold get_client_side_method, resolve.
  destruct (find_by_name "Atspi" (get_container_name server_side_method))
    as [info|]; [|done].
  cbn [mbind option_bind]. set (s := get_symbol server_side_method).
  set (symbols := methods_keys info). set (d := methods_dict info).
  unfold strategies. cbn [first_match].
  unfold by_override_table, opt_in, opt_get.
  destruct (mappings !! s) as [t|] eqn:Hmap; cbn [mbind option_bind].
  - unfold found at 1. destruct (bool_decide (t ∈ symbols)) eqn:Ht; [done|].
    exact (heuristics_resolve info s).
  - exact (heuristics_resolve info s).
Qed.

Lemma methods_keys_symbols (methods : list FunctionInfo) (k : string) :
  k ∈ methods_keys methods <-> k ∈ map get_symbol methods.
Proof.
  unfold methods_keys.
  induction methods as [|m methods IH] using rev_ind; [done|].
  rewrite fold_left_snoc, map_app, elem_of_app. simpl.
  rewrite list_elem_of_singleton, <- IH.
  case_bool_decide as Hin.
  - split; [tauto|]. intros [H| ->]; done.
  - by rewrite elem_of_app, list_elem_of_singleton.
Qed.

(** A symbol that the first strategy with an answer returns is a key of the
    methods dict, so the lookup that ends the resolution succeeds. *)
Lemma resolved_key_method (info : list FunctionInfo) (key : string) :
  key ∈ methods_keys info ->
  exists m, methods_dict info !! key = Some m /\ get_symbol m = key /\ m ∈ info.
Proof.
  intros Hin. destruct (methods_keys_dict info key) as [Hk Hd].
  apply Hk in Hin as [m Hm]. exists m. split; [done|]. by apply Hd.
Qed.

Lemma override_resolves (iface server client : string) (info : list FunctionInfo) :
  find_by_name "Atspi" iface = Some info ->
  mappings !! server = Some client ->
  client ∈ map get_symbol info ->
  exists m,
    get_client_side_method find_by_name
      {| get_container_name := iface; get_symbol := server |} = Return (Some m)
    /\ get_symbol m = client /\ m ∈ info.
Proof.
  intros Hinfo Hmap Hin. apply methods_keys_symbols in Hin.
  destruct (resolved_key_method info client Hin) as (m & Hm & Hsym & Hmem).
  exists m. split; [|done].
  rewrite get_client_side_method_resolve. unfold resolve. cbn [get_container_name].
  rewrite Hinfo. cbn [mbind option_bind get_symbol].
  unfold strategies. cbn [first_match]. unfold by_override_table.
  rewrite Hmap. cbn [mbind option_bind]. unfold found.
  rewrite (bool_decide_eq_true_2 _ Hin). cbn [mbind option_bind]. by rewrite Hm.
Qed.

Lemma count_getter_resolves (iface key : string) (info : list FunctionInfo) :
  find_by_name "Atspi" iface = Some info ->
  List.filter (PyStr.contains "get_n_") (methods_keys info) = [key] ->
  "atspifoogetbarcount" ∉ map (PyStr.replace "_" "") (methods_keys info) ->
  exists m,
    get_client_side_method find_by_name
      {| get_container_name := iface; get_symbol := "atk_foo_get_bar_count" |}
    = Return (Some m)
    /\ get_symbol m = key /\ m ∈ info.
Proof.
  intros Hinfo Hfilter Hcollapsed.
  assert (Hkey : key ∈ methods_keys info).
  { apply list_elem_of_In. eapply proj1. apply filter_In. rewrite Hfilter. by left. }
  destruct (resolved_key_method info key Hkey) as (m & Hm & Hsym & Hmem).
  exists m. split; [|done].
  rewrite get_client_side_method_resolve. unfold resolve. cbn [get_container_name].
  rewrite Hinfo. cbn [mbind option_bind get_symbol].
  set (symbols := methods_keys info) in *.
  assert (Hcand : "atspi_foo_get_bar_count" ∉ symbols).
  { intros H. apply Hcollapsed.
    change "atspifoogetbarcount" with (PyStr.replace "_" "" "atspi_foo_get_bar_count").
    apply list_elem_of_In, in_map, list_elem_of_In, H. }
  unfold strategies. cbn [first_match].
  replace (by_override_table symbols "atk_foo_get_bar_count") with (@None string)
    by (vm_compute; reflexivity).
  replace (by_prefix_substitution replace_api_name symbols "atk_foo_get_bar_count")
    with (found symbols "atspi_foo_get_bar_count") by reflexivity.
  replace (by_ref_to_get replace_api_name symbols "atk_foo_get_bar_count")
    with (found symbols "atspi_foo_get_bar_count") by reflexivity.
  replace (by_ref_at_to_get_accessible_at replace_api_name symbols
             "atk_foo_get_bar_count")
    with (found symbols "atspi_foo_get_bar_count") by reflexivity.
  unfold found. rewrite (bool_decide_eq_false_2 _ Hcand).
  replace (by_collapsed_symbol replace_api_name symbols "atk_foo_get_bar_count")
    with (List.find (fun x => String.eqb (PyStr.replace "_" "" x) "atspifoogetbarcount")
            symbols) by reflexivity.
  rewrite (find_not_in_map _ _ _ Hcollapsed).
  replace (by_count_getter symbols "atk_foo_get_bar_count")
    with (match List.filter (PyStr.contains "get_n_") symbols with
          | [x] => Some x
          | _ => None
          end) by reflexivity.
  rewrite Hfilter. cbn [mbind option_bind]. by rewrite Hm.
Qed.

End ResolverFacts.

(** C3. [get_client_side_method] returns, without ever raising, the answer
    of the first of six strategies that has one, in the order: manual table,
    [atk] to [atspi] substitution, the same with [_ref_] as [_get_], the same
    with [_ref_at] as [_get_accessible_at], comparison of the symbols with
    the underscores removed, and, for a symbol containing [_get_] and
    [_count], the only client symbol containing [get_n_]; with no answer, or
    with no such interface on the client side, the result is [None]. The
    code substitutes with [replace("atk", "atspi")]; on a symbol of the ATK
    family, whose only [atk] is its prefix, that is the substitution of the
    prefix. [atk_value_set_value] and [atk_selection_ref_selection] resolve
    to their table entries when the interface has them, and
    [atk_foo_get_bar_count] resolves to the only client symbol containing
    [get_n_] when no earlier strategy answers. *)
Theorem get_client_side_method_resolution_order :
  (forall find_by_name server_side_method,
     get_client_side_method find_by_name server_side_method
     = Return (info ← find_by_name "Atspi" (get_container_name server_side_method);
               key ← first_match
                       [by_override_table;
                        by_prefix_substitution (PyStr.replace "atk" "atspi");
                        by_ref_to_get (PyStr.replace "atk" "atspi");
                        by_ref_at_to_get_accessible_at (PyStr.replace "atk" "atspi");
                        by_collapsed_symbol (PyStr.replace "atk" "atspi");
                        by_count_getter]
                       (methods_keys info) (get_symbol server_side_method);
               methods_dict info !! key))
  /\ (forall find_by_name interface rest,
        PyStr.contains "atk" rest = false ->
        get_client_side_method find_by_name
          {| get_container_name := interface; get_symbol := "atk" +:+ rest |}
        = Return (info ← find_by_name "Atspi" interface;
                  key ← first_match (strategies substitute_api_prefix)
                          (methods_keys info) ("atk" +:+ rest);
                  methods_dict info !! key)
        /\ substitute_api_prefix ("atk" +:+ rest) = "atspi" +:+ rest)
  /\ (forall find_by_name iface info,
        find_by_name "Atspi" iface = Some info ->
        "atspi_value_set_current_value" ∈ map get_symbol info ->
        exists m,
          get_client_side_method find_by_name
            {| get_container_name := iface; get_symbol := "atk_value_set_value" |}
          = Return (Some m)
          /\ get_symbol m = "atspi_value_set_current_value" /\ m ∈ info)
  /\ (forall find_by_name iface info,
        find_by_name "Atspi" iface = Some info ->
        "atspi_selection_get_selected_child" ∈ map get_symbol info ->
        exists m,
          get_client_side_method find_by_name
            {| get_container_name := iface; get_symbol := "atk_selection_ref_selection" |}
          = Return (Some m)
          /\ get_symbol m = "atspi_selection_get_selected_child" /\ m ∈ info)
  /\ (forall find_by_name iface info key,
        find_by_name "Atspi" iface = Some info ->
        List.filter (PyStr.contains "get_n_") (methods_keys info) = [key] ->
        "atspifoogetbarcount" ∉ map (PyStr.replace "_" "") (methods_keys info) ->
        exists m,
          get_client_side_method find_by_name
            {| get_container_name := iface; get_symbol := "atk_foo_get_bar_count" |}
          = Return (Some m)
          /\ get_symbol m = key /\ m ∈ info).
Proof.
  split; [|split; [|split; [|split]]].
  - exact get_client_side_method_resolve.
  - intros find_by_name interface rest Hrest.
    split; [|by apply substitute_api_prefix_family].
    rewrite get_client_side_method_resolve. unfold resolve. cbn [get_container_name get_symbol].
    destruct (find_by_name "Atspi" interface) as [info|]; [|done].
    cbn [mbind option_bind]. rewrite (first_match_substitute replace_api_name
                                         substitute_api_prefix); [done|].
    unfold replace_api_name.
    by rewrite replace_atk_prefix, substitute_api_prefix_family.
  - intros find_by_name iface info Hinfo Hin.
    by apply (override_resolves find_by_name iface _ _ info Hinfo).
  - intros find_by_name iface info Hinfo Hin.
    by apply (override_resolves find_by_name iface _ _ info Hinfo).
  - intros find_by_name iface info key. apply count_getter_resolves.
Qed.

Lemma get_client_side_method_resolution_order_witness :
  get_client_side_method sample_repository
    {| get_container_name := "Value"; get_symbol := "atk" +:+ "_value_get_current_value" |}
  = Return (info ← sample_repository "Atspi" "Value";
            key ← first_match (strategies substitute_api_prefix)
                    (methods_keys info) ("atk" +:+ "_value_get_current_value");
            methods_dict info !! key)
  /\ (exists m,
        get_client_side_method sample_repository
          {| get_container_name := "Value"; get_symbol := "atk_value_set_value" |}
        = Return (Some m)
        /\ get_symbol m = "atspi_value_set_current_value")
  /\ (exists m,
        get_client_side_method sample_repository
          {| get_container_name := "Selection"; get_symbol := "atk_selection_ref_selection" |}
        = Return (Some m)
        /\ get_symbol m = "atspi_selection_get_selected_child")
  /\ (exists m,
        get_client_side_method sample_repository
          {| get_container_name := "Foo"; get_symbol := "atk_foo_get_bar_count" |}
        = Return (Some m)
        /\ get_symbol m = "atspi_foo_get_n_bar").
Proof.
  destruct get_client_side_method_resolution_order as (_ & Hprefix & Hvalue & Hsel & Hcount).
  split; [apply (Hprefix sample_repository "Value" "_value_get_current_value");
          reflexivity|].
  split.
  { destruct (Hvalue sample_repository "Value" _ eq_refl) as (m & Hm & Hsym & _).
    - apply (bool_decide_unpack _). vm_compute. exact I.
    - by exists m. }
  split.
  { destruct (Hsel sample_repository "Selection" _ eq_refl) as (m & Hm & Hsym & _).
    - apply (bool_decide_unpack _). vm_compute. exact I.
    - by exists m. }
  destruct (Hcount sample_repository "Foo" _ "atspi_foo_get_n_bar" eq_refl)
    as (m & Hm & Hsym & _).
  - reflexivity.
  - apply (bool_decide_unpack _). vm_compute. exact I.
  - by exists m.
Defined.

Import Session.

Section SessionFacts.

Context {Element : Type} `{!EqDecision Element} {Data : Type}.

Variable _get_uri : Element -> result string.
Variable get_property_value : Element -> string -> result (option string).
Variable _get_title_property_names : list string.
Variable _get_children : Element -> result (list Element).
Variable _get_parent : Element -> result (option Element).
Variable _get_running_applications : result (list Element).
Variable _is_document : option Element -> result bool.
Variable simplify_whitespace : string -> string.
Variable recursion_limit : nat.

Local Abbreviation Atta := (Session.Atta Element Data).
Local Abbreviation Event := (Session.Event Element Data).
Local Abbreviation find_test_window :=
  (@_find_test_window Element Data get_property_value _get_title_property_names
     _get_children _get_running_applications simplify_whitespace).
Local Abbreviation is_ready :=
  (@Session.is_ready Element Data _get_uri get_property_value _get_title_property_names
     _get_children _get_running_applications _is_document simplify_whitespace
     recursion_limit).
Local Abbreviation invariant :=
  (@readiness_invariant Element Data _get_uri get_property_value
     _get_title_property_names simplify_whitespace).
Local Abbreviation run_operations :=
  (@Session.run_operations Element Data _get_uri get_property_value
     _get_title_property_names _get_children _get_running_applications _is_document
     simplify_whitespace recursion_limit).
Local Abbreviation run_operation :=
  (@Session.run_operation Element Data _get_uri get_property_value
     _get_title_property_names _get_children _get_running_applications _is_document
     simplify_whitespace recursion_limit).

Lemma invariant_core (s s' : Atta) :
  core s' = core s -> invariant s -> invariant s'.
Proof.
  unfold core, readiness_invariant, document_matches.
  intros [= Hr Ht Hd]. rewrite Hr, Ht, Hd. done.
Qed.

Lemma invariant_not_ready (s : Atta) :
  truthy (_ready s) = false -> invariant s.
Proof. unfold readiness_invariant. intros ->. done. Qed.

(** Case analysis on every scrutinee of a method's body. *)
Ltac method_cases :=
  repeat (simpl;
          match goal with
          | |- context [match ?x with _ => _ end] =>
              lazymatch x with
              | context [match _ with _ => _ end] => fail
              | _ => destruct x eqn:?
              end
          end);
  simpl.

(** The search for the test window touches [_current_window] only. *)
Lemma find_test_window_core (s : Atta) :
  core (snd (find_test_window s)) = core s.
Proof.
  unfold _find_test_window, bind, ret, get, modify, call.
  method_cases; done.
Qed.

Lemma is_ready_invariant (document : option Element) (s : Atta) :
  invariant s -> invariant (snd (is_ready document s)).
Proof.
  intros Hinv. unfold Session.is_ready, bind, ret, get, modify, call. simpl.
  destruct (truthy (_ready s)) eqn:Hready; [done|].
  lazymatch goal with
  | |- _ (snd (let (_, _) := ?disc in _)) =>
      assert (Hdisc : core (snd disc) = core s);
        [| destruct disc as [r s1]; simpl in Hdisc]
  end.
  { destruct document as [d|]; [done|].
    destruct (_current_document s); [done|].
    destruct (negb (_load_notifications s)); [|done].
    pose proof (find_test_window_core s) as Hw.
    destruct (find_test_window s) as [[w|e] s']; simpl in *; done. }
  assert (Hs1 : truthy (_ready s1) = false).
  { injection Hdisc as -> _ _. done. }
  assert (Htest : _next_test s1 = _next_test s).
  { by injection Hdisc as _ -> _. }
  destruct r as [[doc|]|e]; try by apply invariant_not_ready.
  destruct (_next_test s) as [test_name test_uri] eqn:Hnext.
  destruct (_get_uri doc) as [uri|e] eqn:Huri; [|by apply invariant_not_ready].
  destruct (nonempty uri) eqn:Hne; simpl.
  - destruct (String.eqb_spec uri test_uri) as [Heq|Hneq]; simpl.
    + intros _. exists doc. split; [done|]. left. exists uri.
      split; [done|]. simpl. rewrite Htest. split; [|done].
      intros ->. done.
    + by apply invariant_not_ready.
  - destruct (truthy_name test_name) eqn:Hname; simpl;
      [|by apply invariant_not_ready].
    destruct (_get_title_from _ _ doc false _) as [name|e] eqn:Htitle; simpl;
      [|by apply invariant_not_ready].
    case_bool_decide as Hmatch; simpl; [|by apply invariant_not_ready].
    intros _. exists doc. split; [done|]. right. simpl.
    apply negb_false_iff, String.eqb_eq in Hne. subst uri. split; [done|].
    exists name. rewrite Htest. done.
Qed.

Lemma start_test_run_invariant (name : option string) (url : string) (s : Atta) :
  invariant s -> invariant (snd (start_test_run name url s)).
Proof.
  intros Hinv. unfold start_test_run, bind, ret, get, modify. simpl.
  case_bool_decide; simpl; [done|]. by apply invariant_not_ready.
Qed.

Lemma end_test_run_invariant (s : Atta) : invariant (snd (end_test_run s)).
Proof. by apply invariant_not_ready. Qed.

Lemma shutdown_invariant (s : Atta) : invariant s -> invariant (snd (shutdown s)).
Proof.
  intros Hinv. unfold shutdown, bind, ret, get, modify. simpl.
  destruct (negb (_enabled s)); simpl; [done|]. by apply invariant_not_ready.
Qed.

Lemma run_operation_invariant (op : operation) (s : Atta) :
  invariant s -> invariant (run_operation s op).
Proof.
  intros Hinv. destruct op as [document|name url| |]; simpl.
  - by apply is_ready_invariant.
  - by apply start_test_run_invariant.
  - by apply end_test_run_invariant.
  - by apply shutdown_invariant.
Qed.

Lemma run_operations_invariant (ops : list operation) (s : Atta) :
  invariant s -> invariant (run_operations ops s).
Proof.
  revert s. induction ops as [|op ops IH]; intros s Hinv; [done|].
  simpl. apply IH. by apply run_operation_invariant.
Qed.

(** *** The listener *)

Local Abbreviation ancestor := (@Session.ancestor Element _get_parent).
Local Abbreviation in_document := (@Session.in_document Element _get_parent).
Local Abbreviation on_test_event := (@_on_test_event Element _ Data _get_parent).
Local Abbreviation deliver := (@Session.deliver Element _ Data _get_parent).

Lemma climb_sound (steps : nat) (parent : option Element) (pred : Element -> bool)
    (a : Element) :
  climb _get_parent steps parent pred = Some (Return (Some a)) ->
  pred a = true
  /\ (parent = Some a \/ exists p, parent = Some p /\ ancestor p a).
Proof.
  revert parent. induction steps as [|steps IH]; intros [p|]; simpl; try done.
  - destruct (pred p) eqn:Hp; [|done]. intros [= ->]. eauto.
  - destruct (pred p) eqn:Hp; [intros [= ->]; eauto|].
    destruct (_get_parent p) as [parent|e] eqn:Hparent; [|done].
    intros H. destruct (IH _ H) as [Ha [-> | (q & -> & Hq)]].
    + split; [done|]. right. exists p. split; [done|]. by apply ancestor_parent.
    + split; [done|]. right. exists p. split; [done|].
      by apply ancestor_step with q.
Qed.

Lemma find_ancestor_sound (steps : nat) (obj : option Element)
    (pred : Element -> bool) (a : Element) :
  _find_ancestor _get_parent steps obj pred = Some (Return (Some a)) ->
  pred a = true /\ exists o, obj = Some o /\ ancestor o a.
Proof.
  destruct obj as [o|]; simpl; [|done].
  destruct (_get_parent o) as [parent|e] eqn:Hparent; [|done].
  intros H. destruct (climb_sound _ _ _ _ H) as [Ha [-> | (q & -> & Hq)]].
  - split; [done|]. exists o. split; [done|]. by apply ancestor_parent.
  - split; [done|]. exists o. split; [done|]. by apply ancestor_step with q.
Qed.

Lemma in_current_document_sound (steps : nat) (obj : option Element) (s : Atta) :
  _in_current_document _get_parent steps obj s = Some (Return true) ->
  exists document, _current_document s = Some document /\ in_document document obj.
Proof.
  unfold _in_current_document.
  destruct (_current_document s) as [document|]; [|done].
  intros H. exists document. split; [done|].
  destruct obj as [o|]; simpl in H.
  - case_bool_decide as Ho; [subst; by left|].
    destruct (_get_parent o) as [parent|e] eqn:Hparent; [|done].
    destruct (climb _ _ _ _) as [[[a|]|e]|] eqn:Hclimb; try done.
    assert (Hfind : _find_ancestor _get_parent steps (Some o)
                      (fun x => bool_decide (x = document)) = Some (Return (Some a))).
    { simpl. by rewrite Hparent. }
    apply find_ancestor_sound in Hfind as [Ha (o' & [= <-] & Hanc)].
    apply bool_decide_eq_true in Ha. subst a. right. by exists o.
  - done.
Qed.

(** An event reaches the buffer only through the test of its source. *)
Lemma on_test_event_cases (steps : nat) (data : Event) (s s' : Atta)
    (r : result unit) :
  on_test_event steps data s = Some (r, s') ->
  s' = s
  \/ (s' = set_event_history (_event_history s ++ [data]) s
      /\ exists document,
           _current_document s = Some document /\ in_document document (source data)).
Proof.
  unfold _on_test_event.
  destruct (_in_current_document _ _ _ _) as [[[|]|e]|] eqn:Hin; try done.
  - intros [= <- <-]. right. split; [done|]. by eapply in_current_document_sound.
  - intros [= <- <-]. by left.
  - intros [= <- <-]. by left.
Qed.

Lemma on_test_event_scoped (steps : nat) (data : Event) (s : Atta) :
  ~ (exists document,
       _current_document s = Some document /\ in_document document (source data)) ->
  match on_test_event steps data s with
  | Some (_, s') => s' = s
  | None => True
  end.
Proof.
  intros Hout. destruct (on_test_event steps data s) as [[r s']|] eqn:Hev; [|done].
  destruct (on_test_event_cases _ _ _ _ _ Hev) as [-> | [_ Hin]]; done.
Qed.

Lemma deliver_scoped (steps : nat) (events : list Event) (s : Atta) :
  Forall (fun data =>
            ~ (exists document,
                 _current_document s = Some document
                 /\ in_document document (source data))) events ->
  deliver steps events s = s.
Proof.
  induction events as [|data events IH]; [done|].
  intros Hall. apply Forall_cons in Hall as [Hdata Hall]. simpl.
  pose proof (on_test_event_scoped steps data s Hdata) as Hone.
  destruct (on_test_event steps data s) as [[r s']|]; [subst s'|]; by apply IH.
Qed.

Lemma deliver_no_document (steps : nat) (events : list Event) (s : Atta) :
  _current_document s = None -> deliver steps events s = s.
Proof.
  intros Hnone. apply deliver_scoped. apply Forall_forall.
  intros data _ (document & Hdoc & _). congruence.
Qed.

(** The test is not idle: an event from the document itself is recorded,
    and so is one from a descendant once the walk has steps enough to reach
    the document. *)
Lemma on_test_event_from_document (steps : nat) (data : Event) (s : Atta)
    (document : Element) :
  _current_document s = Some document ->
  source data = Some document ->
  on_test_event steps data s
  = Some (Return tt, set_event_history (_event_history s ++ [data]) s).
Proof.
  intros Hdoc Hsrc. unfold _on_test_event, _in_current_document.
  rewrite Hdoc, Hsrc. simpl. by rewrite bool_decide_eq_true_2.
Qed.

Lemma find_ancestor_complete (x a : Element) :
  ancestor x a ->
  exists n, forall steps,
    n <= steps ->
    _find_ancestor _get_parent steps (Some x) (fun y => bool_decide (y = a))
    = Some (Return (Some a)).
Proof.
  induction 1 as [x p Hp | x p a Hp Hanc [n IH]].
  - exists 0. intros steps _. simpl. rewrite Hp.
    destruct steps; simpl; by rewrite bool_decide_eq_true_2.
  - exists (S n). intros [|steps] Hle; [lia|].
    specialize (IH steps ltac:(lia)). simpl in *. rewrite Hp. simpl.
    case_bool_decide as Hpa; [by subst|].
    destruct (_get_parent p) as [parent|e]; done.
Qed.

Lemma on_test_event_from_descendant (data : Event) (s : Atta)
    (document x : Element) :
  _current_document s = Some document ->
  source data = Some x ->
  ancestor x document ->
  exists n, forall steps,
    n <= steps ->
    on_test_event steps data s
    = Some (Return tt, set_event_history (_event_history s ++ [data]) s).
Proof.
  intros Hdoc Hsrc Hanc. destruct (find_ancestor_complete _ _ Hanc) as [n Hn].
  exists n. intros steps Hle. unfold _on_test_event, _in_current_document.
  rewrite Hdoc, Hsrc. simpl. case_bool_decide as Hx; [done|].
  specialize (Hn steps Hle). simpl in Hn.
  destruct (_get_parent x) as [parent|e]; [|done].
  rewrite Hn. done.
Qed.

End SessionFacts.

(** C1. From the initial session, after any sequence of [is_ready],
    [start_test_run], [end_test_run] and [shutdown] (whether a call returns
    or raises), a true ready flag comes with a cached document whose URI is
    not empty and is the pending URL, or which has no URI and whose title is
    the pending test name. The platform's answers for a document are those
    of one run. *)
Theorem readiness_invariant_after_every_operation :
  forall (Element : Type) (Data : Type)
         (_get_uri : Element -> result string)
         (get_property_value : Element -> string -> result (option string))
         (_get_title_property_names : list string)
         (_get_children : Element -> result (list Element))
         (_get_running_applications : result (list Element))
         (_is_document : option Element -> result bool)
         (simplify_whitespace : string -> string)
         (recursion_limit : nat)
         (enabled load_notifications : bool)
         (ops : list operation),
    let s : Atta Element Data :=
      run_operations _get_uri get_property_value _get_title_property_names
        _get_children _get_running_applications _is_document simplify_whitespace
        recursion_limit ops (init enabled load_notifications) in
    truthy (_ready s) = true ->
    exists document,
      _current_document s = Some document
      /\ ((exists uri, _get_uri document = Return uri
                       /\ uri <> "" /\ uri = snd (_next_test s))
          \/ (_get_uri document = Return ""
              /\ exists name,
                   fst (_next_test s) = Some name
                   /\ _get_title get_property_value _get_title_property_names
                        simplify_whitespace (Some document) false = Return name)).
Proof.
  intros. apply (run_operations_invariant _get_uri get_property_value
                   _get_title_property_names _get_children _get_running_applications
                   _is_document simplify_whitespace recursion_limit ops
                   (init enabled load_notifications)); [|done].
  by apply invariant_not_ready.
Qed.

Lemma readiness_invariant_after_every_operation_witness :
  exists document,
    _current_document sample_session = Some document
    /\ ((exists uri, sample_uri document = Return uri
                     /\ uri <> "" /\ uri = snd (_next_test sample_session))
        \/ (sample_uri document = Return ""
            /\ exists name,
                 fst (_next_test sample_session) = Some name
                 /\ _get_title sample_property ["name"] (fun x => x)
                      (Some document) false = Return name)).
Proof.
  apply (readiness_invariant_after_every_operation nat unit
           sample_uri sample_property ["name"] sample_children (Return [1])
           sample_is_document (fun x => x) 1000 true false
           [StartTestRun (Some "test one") "http://localhost/one.html"; IsReady None]).
  reflexivity.
Defined.

(** C4, the claim as stated fails: after [end_test_run] on a session whose
    document was found by the search of the running applications, the cached
    window is still set. *)
Lemma end_test_run_keeps_window :
  ~ session_cleared (snd (end_test_run sample_session)).
Proof. intros (_ & _ & _ & Hwindow & _). vm_compute in Hwindow. discriminate. Qed.

(** C4, amended. [end_test_run] returns with the pending test [(None, "")],
    the ready flag [False] and no current document; the current window, the
    current application and every other field are as before the call. So
    the session is back in its initial state exactly when no window and no
    application were cached. *)
Theorem end_test_run_resets_test_and_document :
  forall (Element Data : Type) (s : Atta Element Data),
    end_test_run s
    = (Return tt,
       {| _enabled := _enabled s;
          _load_notifications := _load_notifications s;
          _ready := Truth false;
          _next_test := (None, "");
          _current_document := None;
          _current_window := _current_window s;
          _current_application := _current_application s;
          _monitored_event_types := _monitored_event_types s;
          _event_history := _event_history s |})
    /\ (session_cleared (snd (end_test_run s))
        <-> _current_window s = None /\ _current_application s = None).
Proof.
  intros Element Data s. split; [reflexivity|].
  unfold session_cleared, end_test_run, bind, modify. simpl.
  split.
  - intros (_ & _ & _ & Hwindow & Happlication). done.
  - intros [Hwindow Happlication]. done.
Qed.

Lemma end_test_run_resets_test_and_document_witness :
  (_current_window (init (Element := nat) (Data := unit) true true) = None
   /\ _current_application (init (Element := nat) (Data := unit) true true) = None)
  /\ session_cleared (snd (end_test_run (init (Element := nat) (Data := unit) true true))).
Proof.
  split; [split; reflexivity|].
  apply (proj2 (proj2 (end_test_run_resets_test_and_document nat unit (init true true)))).
  split; reflexivity.
Defined.

(** C6. Announcing the same [(name, url)] twice in a row changes nothing
    the second time; announcing the pending pair leaves the session, and so
    the ready flag, as it is; announcing another pair sets the ready flag to
    [False] and records the pair, leaving the other fields. *)
Theorem start_test_run_idempotent :
  forall (Element Data : Type) (name : option string) (url : string)
         (s : Atta Element Data),
    snd (start_test_run name url (snd (start_test_run name url s)))
    = snd (start_test_run name url s)
    /\ (_next_test s = (name, url) -> start_test_run name url s = (Return tt, s))
    /\ (_next_test s <> (name, url) ->
        start_test_run name url s
        = (Return tt, set_next_test (name, url) (set_ready (Truth false) s))).
Proof.
  intros Element Data name url s.
  unfold start_test_run, bind, ret, get, modify. simpl.
  split; [|split].
  - destruct (decide (_next_test s = (name, url))) as [Hsame|Hother].
    + rewrite (bool_decide_eq_true_2 _ Hsame). simpl.
      by rewrite (bool_decide_eq_true_2 _ Hsame).
    + rewrite (bool_decide_eq_false_2 _ Hother). simpl.
      by rewrite bool_decide_eq_true_2.
  - intros Hsame. by rewrite bool_decide_eq_true_2.
  - intros Hother. by rewrite bool_decide_eq_false_2.
Qed.

Lemma start_test_run_idempotent_witness :
  (start_test_run (Some "test one") "http://localhost/one.html" sample_session
   = (Return tt, sample_session)
   /\ truthy (_ready sample_session) = true)
  /\ (let s := snd (start_test_run (Some "test two") "http://localhost/two.html"
                      sample_session) in
      _ready s = Truth false
      /\ _next_test s = (Some "test two", "http://localhost/two.html")).
Proof.
  split.
  - split; [|reflexivity].
    apply (proj1 (proj2 (start_test_run_idempotent nat unit (Some "test one")
                           "http://localhost/one.html" sample_session))).
    reflexivity.
  - rewrite (proj2 (proj2 (start_test_run_idempotent nat unit (Some "test two")
                             "http://localhost/two.html" sample_session))).
    + split; reflexivity.
    + vm_compute. discriminate.
Defined.

(** The parent of an element of the sample platform has a smaller number. *)
Lemma sample_ancestor_lt (x a : nat) : ancestor sample_parent x a -> a < x.
Proof.
  induction 1 as [x p Hp | x p a Hp _ IH].
  - destruct x as [|[|x]]; simpl in Hp; try done. injection Hp as <-. lia.
  - destruct x as [|[|x]]; simpl in Hp; try done. injection Hp as <-. lia.
Qed.

(** C7. An event whose source is neither the current document nor an element
    with the current document among its ancestors leaves the event buffer,
    and the session, as they are, however long the walk up the parents may
    run; the same holds for any sequence of such events, and for every event
    when no current document is set. *)
Theorem on_test_event_listener_scoping :
  forall (Element : Type) (EqDec : EqDecision Element) (Data : Type)
         (_get_parent : Element -> result (option Element))
         (steps : nat) (s : Atta Element Data),
    (forall data : Event Element Data,
       ~ (exists document,
            _current_document s = Some document
            /\ in_document _get_parent document (source data)) ->
       match _on_test_event _get_parent steps data s with
       | Some (_, s') => _event_history s' = _event_history s
       | None => True
       end)
    /\ (forall events : list (Event Element Data),
          Forall (fun data =>
                    ~ (exists document,
                         _current_document s = Some document
                         /\ in_document _get_parent document (source data))) events ->
          _event_history (deliver _get_parent steps events s) = _event_history s)
    /\ (_current_document s = None ->
        forall events : list (Event Element Data),
          _event_history (deliver _get_parent steps events s) = _event_history s).
Proof.
  intros Element EqDec Data _get_parent steps s. split; [|split].
  - intros data Hout.
    pose proof (on_test_event_scoped _get_parent steps data s Hout) as H.
    destruct (_on_test_event _get_parent steps data s) as [[r s']|]; [|done].
    by subst s'.
  - intros events Hall. by rewrite deliver_scoped.
  - intros Hnone events. by rewrite deliver_no_document.
Qed.

Lemma on_test_event_listener_scoping_witness :
  let window_event : Event nat unit :=
    {| source := Some 2; type := "object:state-changed:focused";
       detail1 := 1; detail2 := 0; any_data := tt |} in
  _event_history (deliver sample_parent 10 [window_event; window_event] sample_session)
  = _event_history sample_session
  /\ _event_history (deliver sample_parent 10 [window_event] (init true true))
     = _event_history (init true true).
Proof.
  intros window_event. split.
  - apply (proj1 (proj2 (on_test_event_listener_scoping nat _ unit sample_parent 10
                           sample_session))).
    repeat constructor; intros (document & Hdoc & Hin);
      vm_compute in Hdoc; injection Hdoc as <-;
      destruct Hin as [Hsrc | (x & Hsrc & Hanc)]; try discriminate;
      injection Hsrc as <-; apply sample_ancestor_lt in Hanc; lia.
  - apply (proj2 (proj2 (on_test_event_listener_scoping nat _ unit sample_parent 10
                           (init true true)))).
    reflexivity.
Defined.

Import Retry.

Section RetryFacts.

Context {Element Payload : Type}.

Variable clear_cache_outcome : list (action Element) -> Element -> result unit.
Variable getter_outcome :
  list (action Element) -> string -> option Element -> result (value Payload).
Variable document_attribute_outcome :
  list (action Element) -> Element -> string -> result (option string).
Variable print_outcome : list (action Element) -> result unit.

Local Abbreviation get_property_value :=
  (@Retry.get_property_value Element Payload clear_cache_outcome getter_outcome
     print_outcome).
Local Abbreviation _get_uri :=
  (@Retry._get_uri Element clear_cache_outcome document_attribute_outcome
     print_outcome).
Local Abbreviation count := (@Retry.count Element).

Lemma count_app (f : action Element -> bool) (t1 t2 : list (action Element)) :
  count f (t1 ++ t2) = count f t1 + count f t2.
Proof. unfold Retry.count. by rewrite List.filter_app, length_app. Qed.

Lemma clear_cache_if_history (obj : option Element) (t t1 : list (action Element))
    (r : result unit) :
  clear_cache_if clear_cache_outcome obj t = (r, t1) ->
  exists ext,
    t1 = t ++ ext
    /\ count is_read ext = 0 /\ count is_sleep ext = 0 /\ count is_failed_read ext = 0
    /\ (forall e, r = Raise e -> exists h o, clear_cache_outcome h o = Raise e).
Proof.
  destruct obj as [o|]; simpl.
  - unfold clear_cache. intros [= <- <-]. eexists. split; [done|].
    repeat split; try done. intros e He. eauto.
  - intros [= <- <-]. exists []. rewrite app_nil_r. repeat split; done.
Qed.

Lemma getter_history (property_name : string) (obj : option Element)
    (t t1 : list (action Element)) (r : result (value Payload)) :
  getter getter_outcome property_name obj t = (r, t1) ->
  exists ext,
    t1 = t ++ ext
    /\ count is_read ext <= 1 /\ count is_sleep ext = 0
    /\ count is_failed_read ext = (if is_return r then 0 else 1).
Proof.
  unfold getter. destruct (String.eqb property_name "accessible").
  - intros [= <- <-]. exists []. rewrite app_nil_r.
    unfold Retry.count. repeat split; simpl; done || lia.
  - intros [= <- <-]. eexists. split; [done|]. unfold Retry.count.
    destruct (getter_outcome t property_name obj); repeat split; simpl; done || lia.
Qed.

(** What a call of [get_property_value] adds to the history, and what it
    can raise. *)
Lemma get_property_value_history (obj : option Element) (property_name : string)
    (retries : nat) (t : list (action Element)) :
  exists ext,
    snd (get_property_value obj property_name retries t) = t ++ ext
    /\ count is_read ext <= S _retry_limit - retries
    /\ count is_sleep ext = count is_failed_read ext
    /\ (forall e,
          fst (get_property_value obj property_name retries t) = Raise e ->
          precondition obj property_name = Some e
          \/ (exists h o, clear_cache_outcome h o = Raise e)
          \/ exists h, print_outcome h = Raise e).
Proof.
  funelim (Retry.get_property_value clear_cache_outcome getter_outcome print_outcome
             obj property_name retries t).
  all: try rewrite <- Heqcall; simpl.
  all: try match goal with
           | Hc : clear_cache_if _ _ _ = _ |- _ =>
               destruct (clear_cache_if_history _ _ _ _ Hc)
                 as (ext & -> & Hr & Hs & Hf & He)
           end.
  all: try match goal with
           | Hg : getter _ _ _ _ = _ |- _ =>
               destruct (getter_history _ _ _ _ _ Hg) as (ext' & -> & Hr' & Hs' & Hf');
               simpl in Hf'
           end.
  - exists []. rewrite app_nil_r. repeat split; try done; [cbn; lia|].
    intros e0 [= <-]. by left.
  - exists ext. repeat split; try done; [lia | congruence |].
    intros e0 [= <-]. right. left. by apply He.
  - eexists (ext ++ [PrintError _]). rewrite app_assoc. repeat split; try done.
    + rewrite count_app, Hr. cbn. lia.
    + rewrite !count_app, Hs, Hf. done.
  - eexists (ext ++ [PrintError _]). rewrite app_assoc. repeat split; try done.
    + rewrite count_app, Hr. cbn. lia.
    + rewrite !count_app, Hs, Hf. done.
    + intros e0 [= <-]. right. right. eauto.
  - exists (ext ++ ext'). rewrite app_assoc. repeat split; try done.
    + rewrite count_app, Hr. unfold _retry_limit in *. lia.
    + rewrite !count_app, Hs, Hf, Hs', Hf'. done.
  - match goal with
    | IH : exists _, _ |- _ => destruct IH as (ext'' & Hsnd & Hr'' & Hs'' & He'')
    end.
    exists (ext ++ ext' ++ [Sleep 500] ++ ext''). split; [|split; [|split]].
    + rewrite Hsnd. by rewrite <- !app_assoc.
    + rewrite !count_app, Hr. cbn. unfold _retry_limit in *. lia.
    + rewrite !count_app, Hs, Hf, Hs', Hf', Hs''. cbn. lia.
    + exact He''.
Qed.

(** One attempt whose read fails: sleep, then the next attempt. *)
Lemma get_property_value_failed_attempt (o : Element) (property_name : string)
    (retries : nat) (t : list (action Element)) :
  precondition (Some o) property_name = None ->
  String.eqb property_name "accessible" = false ->
  retries <= _retry_limit ->
  clear_cache_outcome t o = Return tt ->
  is_return (getter_outcome (t ++ [ClearCache o true]) property_name (Some o)) = false ->
  get_property_value (Some o) property_name retries t
  = get_property_value (Some o) property_name (S retries)
      (t ++ [ClearCache o true; Getter property_name (Some o) false; Sleep 500]).
Proof.
  intros Hpre Hacc Hle Hcc Hread.
  remember (get_property_value (Some o) property_name (S retries) _) as next eqn:Hnext.
  simp get_property_value. rewrite Hpre. simpl.
  unfold clear_cache. rewrite Hcc. simpl.
  destruct (lt_dec _retry_limit retries) as [Hlt|Hnlt]; [lia|]. simpl.
  unfold getter. rewrite Hacc.
  destruct (getter_outcome _ _ _) as [v|e]; [done|]. simpl.
  subst next. by rewrite <- !app_assoc.
Qed.

(** The call that finds the ceiling exceeded. *)
Lemma get_property_value_exhausted (o : Element) (property_name : string)
    (retries : nat) (t : list (action Element)) :
  precondition (Some o) property_name = None ->
  _retry_limit < retries ->
  clear_cache_outcome t o = Return tt ->
  get_property_value (Some o) property_name retries t
  = (match print_outcome (t ++ [ClearCache o true]) with
     | Return _ => Return VNone
     | Raise e => Raise e
     end,
     t ++ [ClearCache o true;
           PrintError (is_return (print_outcome (t ++ [ClearCache o true])))]).
Proof.
  intros Hpre Hlt Hcc. simp get_property_value. rewrite Hpre. simpl.
  unfold clear_cache. rewrite Hcc. simpl.
  destruct (lt_dec _retry_limit retries) as [Hlt'|Hle]; [|lia]. simpl.
  unfold print_error.
  destruct (print_outcome (t ++ [ClearCache o true])); simpl; by rewrite <- !app_assoc.
Qed.

Lemma get_property_value_all_reads_fail (o : Element) (property_name : string)
    (t : list (action Element)) :
  precondition (Some o) property_name = None ->
  String.eqb property_name "accessible" = false ->
  (forall h, clear_cache_outcome h o = Return tt) ->
  (forall h, is_return (getter_outcome h property_name (Some o)) = false) ->
  (forall h, print_outcome h = Return tt) ->
  get_property_value (Some o) property_name 0 t
  = (Return VNone,
     t ++ [ClearCache o true; Getter property_name (Some o) false; Sleep 500;
           ClearCache o true; Getter property_name (Some o) false; Sleep 500;
           ClearCache o true; Getter property_name (Some o) false; Sleep 500;
           ClearCache o true; PrintError true]).
Proof.
  intros Hpre Hacc Hcc Hread Hprint.
  do 3 (rewrite get_property_value_failed_attempt;
        [|done|done|unfold _retry_limit; lia|done|done]).
  rewrite get_property_value_exhausted; [|done|unfold _retry_limit; lia|done].
  rewrite Hprint. simpl. by rewrite <- !app_assoc.
Qed.

Lemma first_attribute_history (document : Element) (names : list string)
    (t t1 : list (action Element)) (out : attribute_outcome) :
  first_attribute document_attribute_outcome document names t = (out, t1) ->
  exists ext,
    t1 = t ++ ext
    /\ count is_read ext <= length names
    /\ count is_failed_read ext = (match out with Failed => 1 | _ => 0 end).
Proof.
  revert t. induction names as [|name names IH]; intros t; simpl.
  - intros [= <- <-]. exists []. by rewrite app_nil_r.
  - unfold get_document_attribute_value.
    destruct (document_attribute_outcome t document name) as [[u|]|e] eqn:Hout; simpl.
    + destruct (String.eqb u "").
      * intros H. destruct (IH _ H) as (ext & -> & Hr & Hf).
        eexists. rewrite <- app_assoc. split; [done|].
        rewrite !count_app, Hf. cbn. split; lia.
      * intros [= <- <-]. eexists. split; [done|]. cbn. split; lia.
    + intros H. destruct (IH _ H) as (ext & -> & Hr & Hf).
      eexists. rewrite <- app_assoc. split; [done|].
      rewrite !count_app, Hf. cbn. split; lia.
    + intros [= <- <-]. eexists. rewrite <- app_assoc. split; [done|]. cbn. split; lia.
Qed.

Lemma try_clear_cache_history (document : Element) (t : list (action Element)) :
  exists ext,
    try_clear_cache clear_cache_outcome document t = t ++ ext
    /\ count is_read ext = 0 /\ count is_failed_read ext = 0.
Proof.
  unfold try_clear_cache, clear_cache.
  destruct (clear_cache_outcome t document); simpl.
  - eexists. split; [done|]. done.
  - eexists. rewrite <- app_assoc. split; [done|]. done.
Qed.

(** [_get_uri] ends whatever the platform does, after at most
    [_retry_limit + 1] failed reads, and raises only what the logging of the
    last call raised. *)
Lemma get_uri_history (document : option Element) (retries : nat)
    (t : list (action Element)) :
  exists r ext,
    _get_uri document retries t = (r, t ++ ext)
    /\ count is_failed_read ext <= S _retry_limit - retries
    /\ count is_read ext <= 2 * (S _retry_limit - retries)
    /\ (forall e, r = Raise e -> exists h, print_outcome h = Raise e).
Proof.
  funelim (Retry._get_uri clear_cache_outcome document_attribute_outcome print_outcome
             document retries t).
  all: try rewrite <- Heqcall.
  all: try match goal with
           | Hf : first_attribute _ _ _ _ = _ |- _ =>
               destruct (first_attribute_history _ _ _ _ _ Hf) as (ext & -> & Hr & Hf');
               destruct (try_clear_cache_history document t) as (ext0 & Htc & Hr0 & Hf0);
               rewrite Htc in *; simpl in Hr, Hf'
           end.
  - exists (Return ""), []. rewrite app_nil_r. split; [done|]. cbn.
    split; [lia|]. split; [lia|done].
  - eexists (Return ""), [PrintError _]. split; [done|]. cbn.
    split; [lia|]. split; [lia|done].
  - eexists (Raise _), [PrintError _]. split; [done|]. cbn.
    split; [lia|]. split; [lia|]. intros e0 [= <-]. eauto.
  - exists (Return uri), (ext0 ++ ext). rewrite app_assoc. split; [done|].
    rewrite !count_app. unfold _retry_limit in *. split; [lia|]. split; [lia|done].
  - exists (Return ""), (ext0 ++ ext). rewrite app_assoc. split; [done|].
    rewrite !count_app. unfold _retry_limit in *. split; [lia|]. split; [lia|done].
  - match goal with
    | IH : exists _ _, _ |- _ => destruct IH as (r & ext' & Heq' & Hf'' & Hr'' & He'')
    end.
    exists r, (ext0 ++ ext ++ ext'). rewrite Heq'. rewrite <- !app_assoc.
    split; [done|]. rewrite !count_app. unfold _retry_limit in *.
    split; [lia|]. split; [lia|done].
Qed.

Lemma get_uri_failed_attempt (document : Element) (retries : nat)
    (t : list (action Element)) :
  retries <= _retry_limit ->
  clear_cache_outcome t document = Return tt ->
  is_return (document_attribute_outcome (t ++ [ClearCache document true])
               document "DocURL") = false ->
  _get_uri (Some document) retries t
  = _get_uri (Some document) (S retries)
      (t ++ [ClearCache document true;
             GetDocumentAttributeValue document "DocURL" false; Sleep 500]).
Proof.
  intros Hle Hcc Hread.
  remember (_get_uri (Some document) (S retries) _) as next eqn:Hnext.
  simp _get_uri.
  destruct (lt_dec _retry_limit retries) as [Hlt|Hnlt]; [lia|]. simpl.
  unfold try_clear_cache, clear_cache. rewrite Hcc. simpl.
  unfold get_document_attribute_value.
  destruct (document_attribute_outcome _ _ _) as [v|e]; [done|]. simpl.
  subst next. by rewrite <- !app_assoc.
Qed.

Lemma get_uri_all_reads_fail (document : Element) (t : list (action Element)) :
  (forall h, clear_cache_outcome h document = Return tt) ->
  (forall h name, is_return (document_attribute_outcome h document name) = false) ->
  (forall h, print_outcome h = Return tt) ->
  _get_uri (Some document) 0 t
  = (Return "",
     t ++ [ClearCache document true;
           GetDocumentAttributeValue document "DocURL" false; Sleep 500;
           ClearCache document true;
           GetDocumentAttributeValue document "DocURL" false; Sleep 500;
           ClearCache document true;
           GetDocumentAttributeValue document "DocURL" false; Sleep 500;
           PrintError true]).
Proof.
  intros Hcc Hread Hprint.
  do 3 (rewrite get_uri_failed_attempt; [|unfold _retry_limit; lia|done|done]).
  simp _get_uri. simpl. unfold print_error. rewrite Hprint. simpl.
  by rewrite <- !app_assoc.
Qed.

End RetryFacts.

(** C8. The code does not keep the faults of the platform from the caller.
    [get_property_value] calls [clear_cache] outside its [try], on every
    attempt: a fault of that call comes out of the first attempt, or out of
    the attempt that follows a failed read. Past the ceiling both methods
    log an error before they return, and the logging raises when
    [parse.urlsplit] refuses the URL of the pending test: the exception
    comes out where the claim has [None] and the empty string. *)
Theorem retrying_reads_propagate_faults :
  get_property_value failing_clear_cache always_failing_getter working_print
    (Some 3) "name" 0 []
  = (Raise PlatformError, [ClearCache 3 false])
  /\ get_property_value (Payload := unit) clear_cache_failing_after_read
       always_failing_getter working_print (Some 3) "name" 0 []
     = (Raise PlatformError,
        [ClearCache 3 true; Getter "name" (Some 3) false; Sleep 500;
         ClearCache 3 false])
  /\ get_property_value working_clear_cache always_failing_getter failing_print
       (Some 3) "name" 0 []
     = (Raise ValueError,
        [ClearCache 3 true; Getter "name" (Some 3) false; Sleep 500;
         ClearCache 3 true; Getter "name" (Some 3) false; Sleep 500;
         ClearCache 3 true; Getter "name" (Some 3) false; Sleep 500;
         ClearCache 3 true; PrintError false])
  /\ _get_uri working_clear_cache always_failing_attribute failing_print (Some 3) 0 []
     = (Raise ValueError,
        [ClearCache 3 true; GetDocumentAttributeValue 3 "DocURL" false; Sleep 500;
         ClearCache 3 true; GetDocumentAttributeValue 3 "DocURL" false; Sleep 500;
         ClearCache 3 true; GetDocumentAttributeValue 3 "DocURL" false; Sleep 500;
         PrintError false]).
Proof.
  split; [|split; [|split]].
  - by simp get_property_value.
  - rewrite get_property_value_failed_attempt; [|done|done|unfold _retry_limit; lia|done|done].
    by simp get_property_value.
  - do 3 (rewrite get_property_value_failed_attempt;
          [|done|done|unfold _retry_limit; lia|done|done]).
    rewrite get_property_value_exhausted; [done|done|unfold _retry_limit; lia|done].
  - do 3 (rewrite get_uri_failed_attempt; [|unfold _retry_limit; lia|done|done]).
    by simp _get_uri.
Qed.

Import Bugs.

Section BugsFacts.

Context {Response : Type}.

Variable urlopen_outcome : list string -> string -> option Response.
Variable peek : Response -> string.
Variable search_title : string -> option string.
Variable unescape strip upper : string -> string.
Variable geturl : Response -> string.
Variable urlsplit : string -> string * string * string * string * string.
Variable urlunsplit : string * string * string * string * string -> string.
Variable loads : Response -> option json.
Variable str : json -> string.

Local Abbreviation get_bug_details :=
  (@Bugs.get_bug_details Response urlopen_outcome peek search_title unescape strip
     upper geturl urlsplit urlunsplit loads str).

Lemma get_bug_details_cached (bug_uri details : string) (st : State) :
  _bugs st !! bug_uri = Some (Some details) ->
  get_bug_details bug_uri st = (Return (Some details), st).
Proof. intros Hhit. unfold Bugs.get_bug_details. by rewrite Hhit. Qed.

Lemma get_bug_details_unreachable (bug_uri : string) (st : State) :
  (forall details, _bugs st !! bug_uri <> Some (Some details)) ->
  urlopen_outcome (requests st) bug_uri = None ->
  get_bug_details bug_uri st
  = (Return (Some ""), {| _bugs := _bugs st; requests := requests st ++ [bug_uri] |}).
Proof.
  intros Hmiss Hfail. unfold Bugs.get_bug_details, urlopen.
  destruct (_bugs st !! bug_uri) as [[details|]|] eqn:Hlook.
  - by destruct (Hmiss details).
  - by rewrite Hfail.
  - by rewrite Hfail.
Qed.

(** A string that the method returns is in the cache afterwards, unless it
    is the empty string returned for a fetch that failed. *)
Lemma get_bug_details_stores (bug_uri details : string) (st st' : State) :
  get_bug_details bug_uri st = (Return (Some details), st') ->
  _bugs st' !! bug_uri = Some (Some details)
  \/ (urlopen_outcome (requests st) bug_uri = None
      /\ details = ""
      /\ st' = {| _bugs := _bugs st; requests := requests st ++ [bug_uri] |}).
Proof.
  unfold Bugs.get_bug_details, urlopen. intros Hcall.
  destruct (_bugs st !! bug_uri) as [[cached|]|] eqn:Hlook;
    [injection Hcall as -> <-; by left | |].
  all: destruct (urlopen_outcome (requests st) bug_uri) as [response|];
    [|injection Hcall as <- <-; by right].
  all: left; revert Hcall; simpl.
  all: repeat match goal with
              | |- context [match ?x with _ => _ end] =>
                  lazymatch x with
                  | context [match _ with _ => _ end] => fail
                  | _ => destruct x
                  end
              end; simpl.
  all: intros [= <- <-]; simpl; by rewrite lookup_insert_eq.
Qed.

(** A call never drops a string stored for another URI, nor for its own. *)
Lemma get_bug_details_keeps (bug_uri other details : string) (st : State) :
  _bugs st !! bug_uri = Some (Some details) ->
  _bugs (snd (get_bug_details other st)) !! bug_uri = Some (Some details).
Proof.
  intros Hhit. destruct (decide (other = bug_uri)) as [->|Hne].
  { by rewrite (get_bug_details_cached _ _ _ Hhit). }
  unfold Bugs.get_bug_details, urlopen.
  repeat match goal with
         | |- context [match ?x with _ => _ end] =>
             lazymatch x with
             | context [match _ with _ => _ end] => fail
             | _ => destruct x
             end
         end; simpl; try done.
  all: by rewrite lookup_insert_ne.
Qed.

(** C5, amended. A detail string that [get_bug_details] resolves is stored
    in the cache; from then on every call with that URI returns the stored
    string, sends no request and leaves the state as it is, and calls for
    other URIs do not remove it. A call whose first fetch fails returns the
    empty string and stores nothing. *)
Theorem get_bug_details_caches_resolved_details :
  (forall bug_uri details st,
     _bugs st !! bug_uri = Some (Some details) ->
     get_bug_details bug_uri st = (Return (Some details), st))
  /\ (forall bug_uri details st st',
        get_bug_details bug_uri st = (Return (Some details), st') ->
        (_bugs st' !! bug_uri = Some (Some details)
         /\ get_bug_details bug_uri st' = (Return (Some details), st'))
        \/ (urlopen_outcome (requests st) bug_uri = None
            /\ details = ""
            /\ st' = {| _bugs := _bugs st; requests := requests st ++ [bug_uri] |}))
  /\ (forall bug_uri other details st,
        _bugs st !! bug_uri = Some (Some details) ->
        _bugs (snd (get_bug_details other st)) !! bug_uri = Some (Some details))
  /\ (forall bug_uri st,
        (forall details, _bugs st !! bug_uri <> Some (Some details)) ->
        urlopen_outcome (requests st) bug_uri = None ->
        get_bug_details bug_uri st
        = (Return (Some ""),
           {| _bugs := _bugs st; requests := requests st ++ [bug_uri] |})).
Proof.
  split; [|split; [|split]].
  - exact get_bug_details_cached.
  - intros bug_uri details st st' Hcall.
    destruct (get_bug_details_stores _ _ _ _ Hcall) as [Hstored|Hfailed].
    + left. split; [done|]. by apply get_bug_details_cached.
    + by right.
  - exact get_bug_details_keeps.
  - exact get_bug_details_unreachable.
Qed.

End BugsFacts.

(** C5, the claim as stated fails: on a network where the fetch fails, the
    second call with the same URI sends a request again. *)
Lemma get_bug_details_looks_up_again :
  ~ looked_up_at_most_once (sample_get_bug_details unreachable_network).
Proof.
  intros Honce.
  specialize (Honce "https://bugs.example/show_bug.cgi?id=1" empty_state).
  vm_compute in Honce. discriminate.
Qed.

Lemma get_bug_details_caches_resolved_details_witness :
  let bug_uri := "https://bugs.example/show_bug.cgi?id=1" in
  let st := snd (sample_get_bug_details page_network bug_uri empty_state) in
  sample_get_bug_details page_network bug_uri st = (Return (Some "Bug 1"), st)
  /\ sample_get_bug_details unreachable_network bug_uri empty_state
     = (Return (Some ""), {| _bugs := ∅; requests := [bug_uri] |}).
Proof.
  intros bug_uri st. split.
  - apply (proj1 (get_bug_details_caches_resolved_details page_network
                    (fun _ => "<title>Bug 1</title>") (fun _ => Some "Bug 1")
                    (fun x => x) (fun x => x) (fun x => x)
                    (fun _ => "https://bugs.example/show_bug.cgi?id=1")
                    (fun _ => ("https", "bugs.example", "/show_bug.cgi", "id=1", ""))
                    (fun parts => "https://bugs.example/rest/bug/1")
                    (fun _ => None) (fun _ => ""))).
    vm_compute. reflexivity.
  - apply (proj2 (proj2 (proj2
             (get_bug_details_caches_resolved_details unreachable_network
                (fun _ => "<title>Bug 1</title>") (fun _ => Some "Bug 1")
                (fun x => x) (fun x => x) (fun x => x)
                (fun _ => "https://bugs.example/show_bug.cgi?id=1")
                (fun _ => ("https", "bugs.example", "/show_bug.cgi", "id=1", ""))
                (fun parts => "https://bugs.example/rest/bug/1")
                (fun _ => None) (fun _ => ""))))).
    + intros details. vm_compute. discriminate.
    + reflexivity.
Defined.

Import Results.

Lemma distinct_snoc_member (l : list string) (a : string) :
  a ∈ l -> distinct (l ++ [a]) = distinct l.
Proof.
  intros Hin. unfold distinct. f_equal. apply set_eq. intros x.
  rewrite list_to_set_app, elem_of_union, !elem_of_list_to_set, list_elem_of_singleton.
  split; [intros [H| ->]; done | by left].
Qed.

Lemma distinct_snoc_fresh (l : list string) (a : string) :
  a ∉ l -> distinct (l ++ [a]) = S (distinct l).
Proof.
  intros Hout. unfold distinct. rewrite list_to_set_app_L. simpl.
  rewrite union_empty_r_L, size_union, size_singleton; [lia|].
  intros x. rewrite elem_of_list_to_set, elem_of_singleton. by intros ? ->.
Qed.

(** The list filed under [key] and [test_file]. *)
Lemma record_result_lookup (key test_file a : string)
    (_results : gmap string (gmap string (list string))) :
  record_result key test_file a _results !! key
  = Some (<[test_file := default [] (default ∅ (_results !! key) !! test_file) ++ [a]]>
            (default ∅ (_results !! key))).
Proof. unfold record_result. by rewrite lookup_insert_eq. Qed.

Lemma record_result_lookup_ne (key other test_file a : string)
    (_results : gmap string (gmap string (list string))) :
  other <> key ->
  record_result key test_file a _results !! other = _results !! other.
Proof. intros Hne. unfold record_result. by rewrite lookup_insert_ne. Qed.

(** Recording an assertion that the file already has under [key] leaves the
    distinct counts of every file under every key as they are. *)
Lemma record_result_again_counts (key test_file a other : string)
    (_results : gmap string (gmap string (list string))) :
  a ∈ default [] (default ∅ (_results !! key) !! test_file) ->
  fmap (M := option) (fmap (M := gmap string) distinct)
    (record_result key test_file a _results !! other)
  = fmap (M := option) (fmap (M := gmap string) distinct) (_results !! other).
Proof.
  intros Hin. destruct (decide (other = key)) as [->|Hne].
  - rewrite record_result_lookup. simpl.
    destruct (_results !! key) as [status_results|] eqn:Hkey; simpl in *.
    + f_equal. rewrite fmap_insert. apply insert_id. rewrite lookup_fmap.
      destruct (status_results !! test_file) as [l|] eqn:Hfile; simpl in *.
      * by rewrite distinct_snoc_member.
      * by apply elem_of_nil in Hin.
    + rewrite lookup_empty in Hin. by apply elem_of_nil in Hin.
  - by rewrite record_result_lookup_ne.
Qed.

(** The line that [output] prints reads the counts only. *)
Lemma output_line_counts (key : string) (label : option string) (detailed : bool)
    (r r' : gmap string (gmap string (list string))) :
  fmap (M := option) (fmap (M := gmap string) distinct) (r !! key)
  = fmap (M := option) (fmap (M := gmap string) distinct) (r' !! key) ->
  fst (output key label detailed r) = fst (output key label detailed r').
Proof.
  unfold output, n_assertions, detail_lines.
  destruct (r !! key) as [result|], (r' !! key) as [result'|]; simpl; try done.
  intros [= Heq]. rewrite Heq.
  assert (Hsize : size result = size result').
  { by rewrite <- (map_size_fmap distinct result), Heq, map_size_fmap. }
  by rewrite Hsize.
Qed.

Lemma record_result_member (key test_file a : string)
    (_results : gmap string (gmap string (list string))) :
  a ∈ default [] (default ∅ (record_result key test_file a _results !! key)
                    !! test_file).
Proof.
  rewrite record_result_lookup. simpl. rewrite lookup_insert_eq. simpl.
  apply elem_of_app. right. by apply list_elem_of_singleton.
Qed.

Lemma record_result_repeated_counts (key test_file a : string) (k : nat)
    (_results : gmap string (gmap string (list string))) (other : string) :
  fmap (M := option) (fmap (M := gmap string) distinct)
    (Nat.iter (S k) (record_result key test_file a) _results !! other)
  = fmap (M := option) (fmap (M := gmap string) distinct)
      (record_result key test_file a _results !! other).
Proof.
  induction k as [|k IH]; [done|].
  rewrite <- IH. change (Nat.iter (S (S k)) ?f ?x) with (f (Nat.iter (S k) f x)).
  apply record_result_again_counts.
  change (Nat.iter (S k) ?f ?x) with (f (Nat.iter k f x)).
  apply record_result_member.
Qed.

Lemma record_result_repeated (key test_file a : string) (k : nat)
    (_results : gmap string (gmap string (list string)))
    (other : string) (label : option string) (detailed : bool) :
  fst (output other label detailed
         (Nat.iter (S k) (record_result key test_file a) _results))
  = fst (output other label detailed (record_result key test_file a _results)).
Proof. apply output_line_counts, record_result_repeated_counts. Qed.

(** The count reported for the file: one more than before for an assertion
    that is new to it. *)
Lemma record_result_file_count (key test_file a : string)
    (_results : gmap string (gmap string (list string))) :
  let before := default [] (default ∅ (_results !! key) !! test_file) in
  (fmap (M := gmap string) distinct
     (default ∅ (record_result key test_file a _results !! key))) !! test_file
  = Some (if bool_decide (a ∈ before) then distinct before else S (distinct before)).
Proof.
  intros before. rewrite record_result_lookup. simpl.
  rewrite lookup_fmap, lookup_insert_eq. simpl. f_equal. fold before.
  case_bool_decide; [by apply distinct_snoc_member | by apply distinct_snoc_fresh].
Qed.

(** Every file with its count is one of the numbered detail lines. *)
Lemma detail_lines_file (result : gmap string (list string)) (test_file : string)
    (n : nat) :
  (distinct <$> result) !! test_file = Some n <->
  exists i, (i, test_file, n) ∈ detail_lines result.
Proof.
  unfold detail_lines, sorted_items.
  rewrite <- elem_of_map_to_list.
  rewrite <- (merge_sort_Permutation key_le (map_to_list (distinct <$> result))).
  set (items := merge_sort key_le _). split.
  - intros Hin. apply list_elem_of_lookup in Hin as [i Hi].
    exists (i + 1). apply list_elem_of_lookup. exists i.
    by rewrite list_lookup_imap, Hi.
  - intros [i Hin]. apply list_elem_of_lookup in Hin as [j Hj].
    rewrite list_lookup_imap in Hj.
    destruct (items !! j) as [[file count]|] eqn:Hitem; [|done].
    simpl in Hj. injection Hj as _ <- <-.
    apply list_elem_of_lookup. by exists j.
Qed.

Lemma output_first_record (key test_file a : string) (label : option string) :
  fst (output key label true (record_result key test_file a ∅))
  = {| label := default (key +:+ ": ") label;
       assertions := 1; files := 1; details := [(1, test_file, 1)] |}.
Proof.
  unfold output. rewrite record_result_lookup. rewrite lookup_empty. simpl.
  rewrite lookup_empty. simpl. rewrite insert_empty.
  unfold n_assertions, detail_lines, sorted_items.
  rewrite map_fmap_singleton, map_fold_singleton, map_size_singleton,
    map_to_list_singleton.
  assert (Hone : distinct [a] = 1).
  { change [a] with ([] ++ [a]). rewrite distinct_snoc_fresh; [done|].
    apply not_elem_of_nil. }
  rewrite Hone. reflexivity.
Qed.

(** [output] keeps the counts of two aggregates equal. *)
Lemma output_rest_counts (key other : string) (label : option string) (detailed : bool)
    (r r' : gmap string (gmap string (list string))) :
  (forall k, fmap (M := option) (fmap (M := gmap string) distinct) (r !! k)
             = fmap (M := option) (fmap (M := gmap string) distinct) (r' !! k)) ->
  fmap (M := option) (fmap (M := gmap string) distinct)
    (snd (output key label detailed r) !! other)
  = fmap (M := option) (fmap (M := gmap string) distinct)
      (snd (output key label detailed r') !! other).
Proof.
  intros Hcounts. unfold output. pose proof (Hcounts key) as Hkey.
  destruct (r !! key) as [result|], (r' !! key) as [result'|]; simpl; try done.
  rewrite !lookup_delete. case_decide; [done|]. apply Hcounts.
Qed.

(** The summary opens with the line of the passes and the line of the
    unfiled failures. *)
Lemma log_results_summary_head (STATUS_PASS STATUS_FAIL : string)
    (get_bug_details : string -> Bugs.State -> result (option string) * Bugs.State)
    (clear_results : bool) (r : gmap string (gmap string (list string)))
    (cache : Bugs.State) :
  take 2 (fst (fst (fst (log_results_summary STATUS_PASS STATUS_FAIL get_bug_details
                           clear_results r cache))))
  = [fst (output STATUS_PASS None false r);
     fst (output STATUS_FAIL (Some "FAIL (unfiled): ") true
            (snd (output STATUS_PASS None false r)))].
Proof.
  unfold log_results_summary.
  destruct (output STATUS_PASS None false r) as [pass r1]. simpl.
  destruct (output STATUS_FAIL (Some "FAIL (unfiled): ") true r1) as [fail r2].
  destruct (output_bugs _ _ _ _) as [[[lines res] r3] cache']. done.
Qed.

(** What [_run_test] records: the assertion, under [filed_under] and the
    path of the pending URL. *)
Lemma run_test_records {Element Assertion TestClass : Type} (STATUS_FAIL : string)
    (_get_assertion_test_class : Assertion -> option TestClass)
    (run : TestClass -> option Element -> Assertion -> string * string * string)
    (get_bug : TestClass -> option Element -> Assertion -> string)
    (urlsplit_path : string -> string)
    (assertion_string not_valid_message : Assertion -> string)
    (url : string) (obj : option Element) (assertion : Assertion)
    (_results : gmap string (gmap string (list string))) :
  snd (_run_test STATUS_FAIL _get_assertion_test_class run get_bug urlsplit_path
         assertion_string not_valid_message url obj assertion _results)
  = record_result
      (filed_under STATUS_FAIL _get_assertion_test_class run get_bug obj assertion)
      (urlsplit_path url) (assertion_string assertion) _results.
Proof.
  unfold _run_test, filed_under.
  destruct (_get_assertion_test_class assertion) as [test_class|]; [|done].
  by destruct (run test_class obj assertion) as [[result message] log].
Qed.

(** The list of a file after the assertion was recorded once or more: it
    holds the assertion, which counts once. *)
Lemma record_result_iter_lookup (key test_file a : string) (k : nat)
    (_results : gmap string (gmap string (list string))) :
  let old := default ∅ (_results !! key) in
  let before := default [] (old !! test_file) in
  exists l,
    Nat.iter (S k) (record_result key test_file a) _results !! key
    = Some (<[test_file := l]> old)
    /\ a ∈ l
    /\ distinct l
       = if bool_decide (a ∈ before) then distinct before else S (distinct before).
Proof.
  intros old before. induction k as [|k (l & Hl & Hin & Hcount)].
  - exists (before ++ [a]). split; [apply record_result_lookup|]. split.
    + apply elem_of_app. right. by apply list_elem_of_singleton.
    + case_bool_decide; [by apply distinct_snoc_member | by apply distinct_snoc_fresh].
  - exists (l ++ [a]).
    change (Nat.iter (S (S k)) ?f ?x) with (f (Nat.iter (S k) f x)).
    rewrite record_result_lookup, Hl. simpl. rewrite lookup_insert_eq. simpl.
    rewrite insert_insert_eq. split; [done|]. split.
    + apply elem_of_app. by left.
    + by rewrite distinct_snoc_member.
Qed.

Lemma record_result_iter_lookup_ne (key other test_file a : string) (k : nat)
    (_results : gmap string (gmap string (list string))) :
  other <> key ->
  Nat.iter k (record_result key test_file a) _results !! other = _results !! other.
Proof.
  intros Hne. induction k as [|k IH]; [done|].
  change (Nat.iter (S k) ?f ?x) with (f (Nat.iter k f x)).
  by rewrite record_result_lookup_ne.
Qed.

(** [n_assertions] adds up the distinct counts of the files. *)
Lemma n_assertions_insert (result : gmap string (list string)) (test_file : string)
    (l : list string) :
  n_assertions (<[test_file := l]> result)
  = distinct l + n_assertions (delete test_file result).
Proof.
  unfold n_assertions. rewrite <- insert_delete_eq, fmap_insert.
  rewrite map_fold_insert_L.
  - done.
  - intros. lia.
  - by rewrite lookup_fmap, lookup_delete_eq.
Qed.

(** [output] pops its key. *)
Lemma output_pops (key : string) (label : option string) (detailed : bool)
    (results : gmap string (gmap string (list string))) :
  snd (output key label detailed results) = delete key results.
Proof.
  unfold output. destruct (results !! key) eqn:Hkey; simpl; [done|].
  by rewrite delete_id.
Qed.

(** The line that [output] prints for a key that has results. *)
Lemma output_line (key : string) (lbl : option string) (detailed : bool)
    (results : gmap string (gmap string (list string)))
    (result : gmap string (list string)) :
  results !! key = Some result ->
  output key lbl detailed results
  = ({| label := default (key +:+ ": ") lbl;
        assertions := n_assertions result;
        files := size result;
        details := if detailed then detail_lines result else [] |},
     delete key results).
Proof. intros Hkey. unfold output. by rewrite Hkey. Qed.

Lemma output_absent (key : string) (lbl : option string) (detailed : bool)
    (results : gmap string (gmap string (list string))) :
  results !! key = None ->
  output key lbl detailed results
  = ({| label := default (key +:+ ": ") lbl;
        assertions := 0; files := 0; details := [] |}, results).
Proof. intros Hkey. unfold output. by rewrite Hkey. Qed.



(** * Further properties of the code *)

Import EventsShape.

Section EventsShapeFacts.

Context {Value : Type}.

Lemma correlate_plain (properties : gmap string Value)
    (l : list (Events.assertion Value)) :
  List.filter is_plain (correlate properties l)
  = map plain (List.filter (fun x => negb (is_event x)) l).
Proof.
  revert properties. induction l as [|[[[t n] v] val] l IH]; intros properties; [done|].
  simpl. destruct (negb (String.eqb t "event")); simpl.
  - by rewrite IH.
  - destruct (starts_group l); simpl; by rewrite IH.
Qed.

Lemma correlate_length (properties : gmap string Value)
    (l : list (Events.assertion Value)) :
  length (correlate properties l) <= length l
  /\ length (List.filter (fun p => negb (is_plain p)) (correlate properties l))
     <= length (List.filter is_event l).
Proof.
  revert properties. induction l as [|[[[t n] v] val] l IH]; intros properties;
    [simpl; lia|].
  simpl. destruct (negb (String.eqb t "event")) eqn:Ht; simpl.
  - apply negb_true_iff in Ht. rewrite Ht. destruct (IH properties). lia.
  - apply negb_false_iff in Ht. rewrite Ht.
    destruct (starts_group l); simpl.
    + destruct (IH ∅). lia.
    + destruct (IH (<[n := val]> properties)). lia.
Qed.

Lemma add_property_last_value (g : list (Events.assertion Value))
    (d : gmap string Value) (n : string) :
  fold_left add_property g d !! n
  = match last_value n g with
    | Some v => Some v
    | None => d !! n
    end.
Proof.
  unfold last_value.
  induction g as [|[[[t name] verb] val] g IH] using rev_ind; [done|].
  rewrite !fold_left_app. simpl.
  destruct (String.eqb_spec name n) as [->|Hne].
  - by rewrite lookup_insert_eq.
  - rewrite lookup_insert_ne by done. exact IH.
Qed.

End EventsShapeFacts.

(** X1. [_create_platform_assertions] never drops, changes or reorders an
    assertion that is not an event tuple: the output without its combined
    event assertions is the input without its event tuples. *)
Theorem create_platform_assertions_keeps_other_assertions :
  forall (Value : Type) (assertions : list (Events.assertion Value)),
    List.filter is_plain (_create_platform_assertions assertions)
    = map plain (List.filter (fun x => negb (is_event x)) assertions).
Proof.
  intros. rewrite create_platform_assertions_correlate. apply correlate_plain.
Qed.

(** X2. [_create_platform_assertions] returns at most as many assertions as
    it is given, and at most as many combined event assertions as there are
    event tuples. *)
Theorem create_platform_assertions_length :
  forall (Value : Type) (assertions : list (Events.assertion Value)),
    length (_create_platform_assertions assertions) <= length assertions
    /\ length (List.filter (fun p => negb (is_plain p))
                 (_create_platform_assertions assertions))
       <= length (List.filter is_event assertions).
Proof.
  intros. rewrite create_platform_assertions_correlate. apply correlate_length.
Qed.

(** X3. The dictionary of a combined event assertion maps each property name
    to the value of the last tuple of the event that names it, and has no
    entry for a name that no tuple of the event gives. *)
Theorem create_platform_assertions_last_value_wins :
  forall (Value : Type) (g : list (Events.assertion Value)),
    is_event_group g = true ->
    exists d,
      _create_platform_assertions g
      = [("event", "event", "contains", Properties d)]
      /\ forall n, d !! n = last_value n g.
Proof.
  intros Value g Hg. exists (fold_left add_property g ∅). split.
  - rewrite create_platform_assertions_correlate.
    replace g with (concat [g]) at 1 by (simpl; by rewrite app_nil_r).
    rewrite correlate_groups; [done|]. simpl. by rewrite Hg.
  - intros n. rewrite add_property_last_value, lookup_empty.
    by destruct (last_value n g).
Qed.

Lemma create_platform_assertions_last_value_wins_witness :
  exists d,
    _create_platform_assertions
      [("event", "type", "equals", "Foo"); ("event", "detail1", "equals", "1");
       ("event", "detail1", "equals", "2")]
    = [("event", "event", "contains", Properties d)]
    /\ forall n,
         d !! n = last_value n
                    [("event", "type", "equals", "Foo");
                     ("event", "detail1", "equals", "1");
                     ("event", "detail1", "equals", "2")].
Proof.
  apply (create_platform_assertions_last_value_wins string). reflexivity.
Defined.

Import Supported.

(** *** What the resolver can return *)

Lemma first_match_in_symbols (substitute : string -> string) (symbols : list string)
    (s key : string) :
  first_match (strategies substitute) symbols s = Some key -> key ∈ symbols.
Proof.
  unfold strategies. cbn [first_match].
  assert (Hfound : forall x k, found symbols x = Some k -> k ∈ symbols).
  { intros x k. unfold found. case_bool_decide; [|done]. by intros [= <-]. }
  unfold by_override_table.
  destruct (mappings !! s ≫= found symbols) as [k|] eqn:H1.
  { intros [= <-]. destruct (mappings !! s) as [t|]; [|done]. by apply (Hfound t). }
  unfold by_prefix_substitution, by_ref_to_get, by_ref_at_to_get_accessible_at.
  destruct (found symbols (substitute s)) as [k|] eqn:H2;
    [intros [= <-]; by apply (Hfound _ _ H2)|].
  destruct (found symbols (PyStr.replace "_ref_" "_get_" (substitute s)))
    as [k|] eqn:H3; [intros [= <-]; by apply (Hfound _ _ H3)|].
  destruct (found symbols (PyStr.replace "_ref_at" "_get_accessible_at" (substitute s)))
    as [k|] eqn:H4; [intros [= <-]; by apply (Hfound _ _ H4)|].
  destruct (by_collapsed_symbol substitute symbols s) as [k|] eqn:H5.
  { intros [= <-]. unfold by_collapsed_symbol in H5.
    apply find_some in H5 as [Hin _]. by apply list_elem_of_In. }
  unfold by_count_getter.
  destruct (PyStr.contains "_get_" s && PyStr.contains "_count" s); [|done].
  destruct (List.filter (PyStr.contains "get_n_") symbols) as [|x [|y l]] eqn:H6;
    try done.
  intros [= <-]. apply list_elem_of_In.
  eapply proj1, filter_In. rewrite H6. by left.
Qed.

Lemma get_client_side_method_sound
    (find_by_name : string -> string -> option (list FunctionInfo))
    (server_side_method client : FunctionInfo) :
  get_client_side_method find_by_name server_side_method = Return (Some client) ->
  exists info,
    find_by_name "Atspi" (get_container_name server_side_method) = Some info
    /\ client ∈ info
    /\ get_symbol client ∈ methods_keys info.
Proof.
  rewrite get_client_side_method_resolve. intros Hr.
  assert (H : resolve find_by_name replace_api_name server_side_method = Some client)
    by congruence.
  clear Hr. unfold resolve in H.
  destruct (find_by_name "Atspi" (get_container_name server_side_method))
    as [info|]; [|done].
  exists info. split; [done|]. cbn [mbind option_bind] in H.
  destruct (first_match (strategies replace_api_name) (methods_keys info)
              (get_symbol server_side_method)) as [key|] eqn:Hkey; [|done].
  cbn [mbind option_bind] in H.
  apply first_match_in_symbols in Hkey.
  destruct (methods_keys_dict info key) as [_ Hd].
  destruct (Hd _ H) as [Hsym Hin]. split; [done|]. by rewrite Hsym.
Qed.

(** X4. A method that [get_client_side_method] returns is one of the
    methods that the repository lists for the interface of the same name on
    the client side; for an interface that the client side does not have the
    result is [None]. *)
Theorem get_client_side_method_returns_client_method :
  forall (find_by_name : string -> string -> option (list FunctionInfo))
         (server_side_method : FunctionInfo),
    (forall client,
       get_client_side_method find_by_name server_side_method = Return (Some client) ->
       exists info,
         find_by_name "Atspi" (get_container_name server_side_method) = Some info
         /\ client ∈ info)
    /\ (find_by_name "Atspi" (get_container_name server_side_method) = None ->
        get_client_side_method find_by_name server_side_method = Return None).
Proof.
  intros find_by_name server_side_method. split.
  - intros client H.
    destruct (get_client_side_method_sound _ _ _ H) as (info & Hinfo & Hin & _).
    by exists info.
  - intros Hnone. unfold get_client_side_method. by rewrite Hnone.
Qed.

Lemma get_client_side_method_returns_client_method_witness :
  (exists info,
     sample_repository "Atspi" "Value" = Some info
     /\ {| get_container_name := "Value"; get_symbol := "atspi_value_set_current_value" |}
        ∈ info)
  /\ get_client_side_method sample_repository
       {| get_container_name := "Text"; get_symbol := "atk_text_get_text" |}
     = Return None.
Proof.
  split.
  - apply (proj1 (get_client_side_method_returns_client_method sample_repository
                    {| get_container_name := "Value"; get_symbol := "atk_value_set_value" |})).
    reflexivity.
  - apply (proj2 (get_client_side_method_returns_client_method sample_repository
                    {| get_container_name := "Text"; get_symbol := "atk_text_get_text" |})).
    reflexivity.
Defined.

(** *** The supported methods *)

Section SupportedFacts.

Context {Element : Type}.
Variable find_by_name : string -> string -> option (list FunctionInfo).
Variable interfaces_of : Element -> result (option (list string)).

Lemma add_methods_entries (_interfaces : list string) (iface : string)
    (all methods : list FunctionInfo) (d d' : gmap string FunctionInfo)
    (r : result unit) :
  iface ∈ _interfaces ->
  find_by_name "Atk" iface = Some all ->
  (forall m, m ∈ methods -> m ∈ all) ->
  map_Forall (supported_entry find_by_name _interfaces) d ->
  add_methods find_by_name methods d = (r, d') ->
  map_Forall (supported_entry find_by_name _interfaces) d'.
Proof.
  intros Hiface Hall. revert d.
  induction methods as [|m methods IH]; intros d Hsub Hd; simpl.
  - by intros [= _ <-].
  - destruct (get_client_side_method find_by_name m) as [[client|]|e] eqn:Hm.
    + apply IH.
      * intros x Hx. apply Hsub. by right.
      * apply map_Forall_insert_2; [|done]. split; [done|]. split.
        -- exists iface, all. split; [done|]. split; [done|]. apply Hsub. by left.
        -- by exists client.
    + apply IH; [|done]. intros x Hx. apply Hsub. by right.
    + by intros [= _ <-].
Qed.

Lemma add_interfaces_entries (_interfaces ifaces : list string)
    (d d' : gmap string FunctionInfo) (r : result unit) :
  (forall i, i ∈ ifaces -> i ∈ _interfaces) ->
  map_Forall (supported_entry find_by_name _interfaces) d ->
  add_interfaces find_by_name ifaces d = (r, d') ->
  map_Forall (supported_entry find_by_name _interfaces) d'.
Proof.
  revert d. induction ifaces as [|iface ifaces IH]; intros d Hsub Hd; simpl.
  - by intros [= _ <-].
  - destruct (find_by_name "Atk" iface) as [methods|] eqn:Hfind;
      [|by intros [= _ <-]].
    destruct (add_methods find_by_name methods d) as [[u|e] d1] eqn:Hadd.
    + apply IH.
      * intros x Hx. apply Hsub. by right.
      * eapply (add_methods_entries _interfaces iface methods methods); eauto.
        apply Hsub. by left.
    + intros [= _ <-].
      eapply (add_methods_entries _interfaces iface methods methods); eauto.
      apply Hsub. by left.
Qed.

(** X5. Every entry of the dict that [get_supported_methods] returns, when
    it starts from an empty table, is a method of one of the adapter's ATK
    interfaces that has a client-side counterpart, is filed under its own
    symbol, and belongs to an interface of the object asked about. A table
    that is not empty is filtered and returned without a look at the
    repository, and when the interfaces of the object could not be read the
    call raises [TypeError]. *)
Theorem get_supported_methods_are_resolvable :
  forall (_interfaces : list string) (obj : option Element),
    (forall d cache,
       get_supported_methods find_by_name interfaces_of _interfaces obj ∅
       = (Return d, cache) ->
       forall k m,
         d !! k = Some m ->
         supported_entry find_by_name _interfaces k m
         /\ cache !! k = Some m
         /\ exists obj_interfaces,
              match obj with
              | None => Return (Some _interfaces)
              | Some o => interfaces_of o
              end = Return (Some obj_interfaces)
              /\ get_container_name m ∈ obj_interfaces)
    /\ (forall cache obj_interfaces,
          cache <> ∅ ->
          match obj with
          | None => Return (Some _interfaces)
          | Some o => interfaces_of o
          end = Return obj_interfaces ->
          get_supported_methods find_by_name interfaces_of _interfaces obj cache
          = (match obj_interfaces with
             | Some l => Return (filter (fun kv => _include l (snd kv) = true) cache)
             | None => Raise TypeError
             end, cache)).
Proof.
  intros _interfaces obj. split.
  - intros d cache. unfold get_supported_methods.
    destruct (match obj with
              | None => Return (Some _interfaces)
              | Some o => interfaces_of o
              end) as [obj_interfaces|e]; [|done].
    rewrite bool_decide_eq_true_2 by done.
    destruct (add_interfaces find_by_name _interfaces ∅) as [[u|e] d1] eqn:Hadd; [|done].
    unfold included. destruct obj_interfaces as [obj_interfaces|].
    + intros [= <- <-] k m Hk.
      apply map_lookup_filter_Some in Hk as [Hk Hinc]. simpl in Hinc.
      split; [|split; [done|]].
      * eapply (add_interfaces_entries _interfaces _interfaces ∅ d1); eauto.
        apply map_Forall_empty.
      * exists obj_interfaces. split; [done|]. by apply bool_decide_eq_true in Hinc.
    + case_bool_decide; [|done]. intros [= <- <-] k m Hk. by rewrite lookup_empty in Hk.
  - intros cache obj_interfaces Hne Hobj. unfold get_supported_methods.
    rewrite Hobj. rewrite bool_decide_eq_false_2 by done. unfold included.
    destruct obj_interfaces; [done|]. by rewrite bool_decide_eq_false_2.
Qed.

End SupportedFacts.

Lemma get_supported_methods_are_resolvable_witness :
  supported_entry sample_atk_repository ["Value"; "Selection"]
    "atk_value_set_value"
    {| get_container_name := "Value"; get_symbol := "atk_value_set_value" |}
  /\ get_supported_methods (Element := nat) sample_atk_repository
       (fun _ => Return None) ["Value"; "Selection"] (Some 1)
       {[ "atk_value_set_value" :=
            {| get_container_name := "Value"; get_symbol := "atk_value_set_value" |} ]}
     = (Raise TypeError,
        {[ "atk_value_set_value" :=
             {| get_container_name := "Value"; get_symbol := "atk_value_set_value" |} ]}).
Proof.
  split.
  - destruct (get_supported_methods_are_resolvable (Element := nat)
                sample_atk_repository (fun _ => Return (Some ["Value"]))
                ["Value"; "Selection"] (Some 1)) as [Hentries _].
    pose (call := get_supported_methods (Element := nat) sample_atk_repository
                    (fun _ => Return (Some ["Value"])) ["Value"; "Selection"]
                    (Some 1) ∅).
    apply (Hentries (filter (fun kv => _include ["Value"] (snd kv) = true) (snd call))
             (snd call) eq_refl "atk_value_set_value").
    vm_compute. reflexivity.
  - apply (proj2 (get_supported_methods_are_resolvable (Element := nat)
                    sample_atk_repository (fun _ => Return None)
                    ["Value"; "Selection"] (Some 1))
             _ None).
    + intros H. apply (f_equal (fun m => m !! "atk_value_set_value")) in H.
      vm_compute in H. discriminate.
    + reflexivity.
Defined.

Import Tree Titles.

(** *** The walks of the tree *)

Section TreeFacts.

Context {Element : Type} `{!EqDecision Element}.

Variable get_property_value : Element -> string -> result (option string).
Variable _get_title_property_names : list string.
Variable _get_children : Element -> result (list Element).
Variable _get_parent : Element -> result (option Element).
Variable _get_running_applications : result (list Element).
Variable simplify_whitespace : string -> string.

Local Abbreviation find_descendant := (@_find_descendant Element _get_children).
Local Abbreviation subtree := (@in_subtree Element _get_children).
Local Abbreviation find_ancestor := (@_find_ancestor Element _get_parent).
Local Abbreviation parent_at := (@nth_parent Element _get_parent).
Local Abbreviation is_ancestor := (@ancestor Element _get_parent).

Lemma find_descendant_found (pred : option Element -> result bool) (depth : nat) :
  forall root x,
    find_descendant depth (Some root) pred = Return (Some x) ->
    pred (Some x) = Return true /\ subtree root x.
Proof.
  induction depth as [|depth IH]; [done|]. intros root x. simpl.
  destruct (pred (Some root)) as [[|]|e] eqn:Hp; simpl; try done.
  - intros [= ->]. split; [done|constructor].
  - destruct (_get_children root) as [children|e] eqn:Hc; simpl; [|done].
    set (all := children) in Hc.
    assert (Hsub : forall c, c ∈ children -> c ∈ all) by done.
    clearbody all. induction children as [|child rest IHc]; [done|].
    destruct (find_descendant depth (Some child) pred) as [[d|]|e] eqn:Hd;
      simpl; try done.
    + intros [= ->]. destruct (IH _ _ Hd) as [Hx Hsubtree]. split; [done|].
      apply in_subtree_child with all child; [done| |done].
      apply Hsub. by left.
    + apply IHc. intros c Hin. apply Hsub. by right.
Qed.

Lemma find_descendant_none (pred : option Element -> result bool) (depth : nat) :
  forall root,
    find_descendant depth (Some root) pred = Return None ->
    forall x, subtree root x -> pred (Some x) = Return false.
Proof.
  induction depth as [|depth IH]; [done|]. intros root. simpl.
  destruct (pred (Some root)) as [[|]|e] eqn:Hp; simpl; try done.
  destruct (_get_children root) as [children|e] eqn:Hc; simpl; [|done].
  intros Heach.
  assert (Hall : forall c, c ∈ children ->
                           find_descendant depth (Some c) pred = Return None).
  { clear Hc. induction children as [|child rest IHc];
      [intros c Hin; by apply elem_of_nil in Hin|].
    destruct (find_descendant depth (Some child) pred) as [[d|]|e] eqn:Hd;
      simpl in Heach; try done.
    intros c Hin. apply elem_of_cons in Hin as [->|Hin]; [done|]. by apply IHc. }
  intros x Hx. inversion Hx as [|? children' child ? Hc' Hin Hsubtree]; subst.
  - done.
  - rewrite Hc in Hc'. injection Hc' as <-. apply (IH child); [by apply Hall|done].
Qed.

(** X6. The element that [_find_descendant] returns satisfies the predicate
    and lies in the subtree of the root; when the search returns [None] the
    predicate is false on every element of that subtree. *)
Theorem find_descendant_searches_subtree :
  forall (pred : option Element -> result bool) (depth : nat) (root : Element),
    (forall x,
       _find_descendant _get_children depth (Some root) pred = Return (Some x) ->
       pred (Some x) = Return true /\ in_subtree _get_children root x)
    /\ (_find_descendant _get_children depth (Some root) pred = Return None ->
        forall x, in_subtree _get_children root x -> pred (Some x) = Return false).
Proof.
  intros pred depth root. split.
  - intros x. apply find_descendant_found.
  - apply find_descendant_none.
Qed.

Lemma climb_nearest (pred : Element -> bool) (steps : nat) :
  forall p a,
    climb _get_parent steps (Some p) pred = Some (Return (Some a)) ->
    exists n,
      parent_at n p = Some a
      /\ pred a = true
      /\ forall k b, k < n -> parent_at k p = Some b -> pred b = false.
Proof.
  induction steps as [|steps IH]; intros p a; simpl.
  - destruct (pred p) eqn:Hp; [|done]. intros [= <-]. exists 0.
    split; [done|]. split; [done|]. intros; lia.
  - destruct (pred p) eqn:Hp.
    + intros [= <-]. exists 0. split; [done|]. split; [done|]. intros; lia.
    + destruct (_get_parent p) as [[q|]|e] eqn:Hq; try done.
      * intros H. destruct (IH _ _ H) as (n & Hn & Ha & Hbelow).
        exists (S n). simpl. rewrite Hq. split; [done|]. split; [done|].
        intros [|k] b Hk; simpl.
        -- by intros [= <-].
        -- rewrite Hq. apply Hbelow. lia.
      * by destruct steps.
Qed.

Lemma climb_none (pred : Element -> bool) (steps : nat) :
  forall p,
    climb _get_parent steps (Some p) pred = Some (Return None) ->
    pred p = false /\ forall a, is_ancestor p a -> pred a = false.
Proof.
  induction steps as [|steps IH]; intros p; simpl.
  - by destruct (pred p).
  - destruct (pred p) eqn:Hp; [done|].
    destruct (_get_parent p) as [[q|]|e] eqn:Hq; try done.
    + intros H. destruct (IH _ H) as [Hpq Habove]. split; [done|].
      intros a Ha. inversion Ha as [? ? Hq' | ? q' ? Hq' Hanc]; subst;
        rewrite Hq in Hq'; injection Hq' as <-; [done|by apply Habove].
    + intros _. split; [done|].
      intros a Ha. inversion Ha; subst; congruence.
Qed.

(** X8. [_find_ancestor] returns the nearest ancestor on which the
    predicate holds: the predicate is false on every element of the parent
    chain below it. When it returns [None] the predicate is false on every
    ancestor of the object. *)
Theorem find_ancestor_returns_nearest :
  forall (pred : Element -> bool) (steps : nat) (obj : Element),
    (forall a,
       _find_ancestor _get_parent steps (Some obj) pred = Some (Return (Some a)) ->
       exists n,
         nth_parent _get_parent (S n) obj = Some a
         /\ pred a = true
         /\ forall k b,
              k < n -> nth_parent _get_parent (S k) obj = Some b -> pred b = false)
    /\ (_find_ancestor _get_parent steps (Some obj) pred = Some (Return None) ->
        forall a, ancestor _get_parent obj a -> pred a = false).
Proof.
  intros pred steps obj. unfold _find_ancestor. split.
  - intros a. simpl. destruct (_get_parent obj) as [[p|]|e] eqn:Hp; try done.
    + intros H. destruct (climb_nearest _ _ _ _ H) as (n & Hn & Ha & Hbelow).
      exists n. simpl. rewrite ?Hp. done.
    + by destruct steps.
  - simpl. destruct (_get_parent obj) as [[p|]|e] eqn:Hp; try done.
    + intros H. destruct (climb_none _ _ _ H) as [Hpp Habove].
      intros a Ha. inversion Ha as [? ? Hq' | ? q' ? Hq' Hanc]; subst;
        rewrite Hp in Hq'; injection Hq' as <-; [done|by apply Habove].
    + intros _ a Ha. inversion Ha; subst; congruence.
Qed.

End TreeFacts.

Lemma find_descendant_searches_subtree_witness :
  (sample_is_document (Some 3) = Return true /\ in_subtree sample_children 1 3)
  /\ sample_is_document (Some 5) = Return false.
Proof.
  split.
  - apply (proj1 (find_descendant_searches_subtree sample_children
                    sample_is_document 1000 1) 3).
    reflexivity.
  - apply (proj2 (find_descendant_searches_subtree sample_children
                    sample_is_document 1000 4)).
    + reflexivity.
    + apply in_subtree_child with [5] 5; [reflexivity|by left|constructor].
Defined.

Lemma find_ancestor_returns_nearest_witness :
  (exists n,
     nth_parent sample_parent (S n) 6 = Some 4
     /\ Nat.ltb 2 4 && Nat.ltb 4 5 = true
     /\ forall k b, k < n -> nth_parent sample_parent (S k) 6 = Some b ->
                    Nat.ltb 2 b && Nat.ltb b 5 = false)
  /\ forall a, ancestor sample_parent 4 a -> Nat.eqb a 9 = false.
Proof.
  split.
  - apply (proj1 (find_ancestor_returns_nearest sample_parent
                    (fun b => Nat.ltb 2 b && Nat.ltb b 5) 10 6) 4).
    reflexivity.
  - apply (proj2 (find_ancestor_returns_nearest sample_parent
                    (fun b => Nat.eqb b 9) 10 4)).
    reflexivity.
Defined.

(** *** Titles, the test window and the listeners *)

Section ListeningFacts.

Context {Element : Type} `{!EqDecision Element} {Data : Type}.

Variable _get_uri : Element -> result string.
Variable get_property_value : Element -> string -> result (option string).
Variable _get_title_property_names : list string.
Variable _get_children : Element -> result (list Element).
Variable _get_parent : Element -> result (option Element).
Variable _get_running_applications : result (list Element).
Variable _is_document : option Element -> result bool.
Variable _register_listener : string -> result unit.
Variable _deregister_listener : string -> result unit.
Variable simplify_whitespace : string -> string.
Variable recursion_limit : nat.

Local Abbreviation Atta := (Session.Atta Element Data).
Local Abbreviation Event := (Session.Event Element Data).
Local Abbreviation get_title :=
  (@_get_title Element get_property_value _get_title_property_names
     simplify_whitespace).
Local Abbreviation find_test_window :=
  (@_find_test_window Element Data get_property_value _get_title_property_names
     _get_children _get_running_applications simplify_whitespace).
Local Abbreviation is_ready :=
  (@Session.is_ready Element Data _get_uri get_property_value _get_title_property_names
     _get_children _get_running_applications _is_document simplify_whitespace
     recursion_limit).
Local Abbreviation start_listen :=
  (@Session.start_listen Element Data _register_listener).
Local Abbreviation stop_listen :=
  (@Session.stop_listen Element Data _deregister_listener).
Local Abbreviation deliver := (@Session.deliver Element _ Data _get_parent).

Lemma get_title_from_first (obj : Element) (simplify : bool) (names : list string)
    (title : string) :
  _get_title_from get_property_value simplify_whitespace obj simplify names
  = Return title ->
  (title = "" /\ Forall (untitled get_property_value obj) names)
  \/ exists before attribute after n,
       names = before ++ attribute :: after
       /\ Forall (untitled get_property_value obj) before
       /\ get_property_value obj attribute = Return (Some n)
       /\ n <> ""
       /\ title = if simplify then simplify_whitespace n else n.
Proof.
  induction names as [|attribute rest IH]; simpl.
  - intros [= <-]. by left.
  - destruct (get_property_value obj attribute) as [[n|]|e] eqn:Hn; simpl; [| |done].
    + destruct (nonempty n) eqn:Hne.
      * intros [= <-]. right. exists [], attribute, rest, n.
        repeat split; try done.
        intros ->. done.
      * assert (n = "") as ->.
        { unfold nonempty in Hne. apply negb_false_iff in Hne.
          by apply String.eqb_eq in Hne. }
        intros H. destruct (IH H) as [[-> Hall] | (b & a & af & m & -> & Hb & Hm & Hne' & ->)].
        -- left. split; [done|]. constructor; [by right|done].
        -- right. exists (attribute :: b), a, af, m. repeat split; try done.
           constructor; [by right|done].
    + intros H. destruct (IH H) as [[-> Hall] | (b & a & af & m & -> & Hb & Hm & Hne' & ->)].
      * left. split; [done|]. constructor; [by left|done].
      * right. exists (attribute :: b), a, af, m. repeat split; try done.
        constructor; [by left|done].
Qed.

(** X9. The title that [_get_title] returns for an object is the value of
    the first title property that is neither missing nor empty, with its
    whitespace simplified on request; it is the empty string when there is
    no such property, and for [None] no property is read. *)
Theorem get_title_first_nonempty_property :
  forall (simplify : bool),
    get_title None simplify = Return ""
    /\ forall (obj : Element) (title : string),
         get_title (Some obj) simplify = Return title ->
         (title = "" /\ Forall (untitled get_property_value obj) _get_title_property_names)
         \/ exists before attribute after n,
              _get_title_property_names = before ++ attribute :: after
              /\ Forall (untitled get_property_value obj) before
              /\ get_property_value obj attribute = Return (Some n)
              /\ n <> ""
              /\ title = if simplify then simplify_whitespace n else n.
Proof.
  intros simplify. split; [done|]. intros obj title. apply get_title_from_first.
Qed.

Lemma first_titled_found (name : string) (windows : list Element) (w : Element) :
  first_titled get_property_value _get_title_property_names simplify_whitespace
    name windows = Return (Some w) ->
  w ∈ windows
  /\ exists title, get_title (Some w) true = Return title
                   /\ PyStr.contains name title = true.
Proof.
  induction windows as [|window rest IH]; [done|]. simpl.
  destruct (_get_title_from _ _ window true _) as [title|e] eqn:Htitle; simpl; [|done].
  destruct (PyStr.contains name title) eqn:Hc.
  - intros [= <-]. split; [by left|]. by exists title.
  - intros H. destruct (IH H) as [Hin Ht]. split; [by right|done].
Qed.

Lemma search_applications_found (name : string) (apps : list Element) (w : Element) :
  search_applications get_property_value _get_title_property_names _get_children
    simplify_whitespace name apps = Return (Some w) ->
  (exists app windows,
     app ∈ apps /\ _get_children app = Return windows /\ w ∈ windows)
  /\ exists title, get_title (Some w) true = Return title
                   /\ PyStr.contains name title = true.
Proof.
  induction apps as [|app rest IH]; [done|]. simpl.
  destruct (_get_children app) as [windows|e] eqn:Hw; simpl; [|done].
  destruct (first_titled _ _ _ name windows) as [[found|]|e] eqn:Hf; simpl; [| |done].
  - intros [= <-]. destruct (first_titled_found _ _ _ Hf) as [Hin Ht].
    split; [|done]. exists app, windows. split; [by left|done].
  - intros H. destruct (IH H) as [(a & ws & Ha & Hws & Hin) Ht].
    split; [|done]. exists a, ws. split; [by right|done].
Qed.

(** X10. A window that [_find_test_window] returns carries the simplified
    name of the pending test in its simplified title, and it is the cached
    window or a child of a running application. Without a name of the
    pending test the answer is [None] and nothing is read or changed. *)
Theorem find_test_window_title_contains_name :
  forall (s : Atta),
    (truthy_name (fst (_next_test s)) = false -> find_test_window s = (Return None, s))
    /\ forall (w : Element) (s' : Atta),
         find_test_window s = (Return (Some w), s') ->
         exists name title,
           fst (_next_test s) = Some name
           /\ name <> ""
           /\ get_title (Some w) true = Return title
           /\ PyStr.contains (simplify_whitespace name) title = true
           /\ ((_current_window s = Some w /\ s' = s)
               \/ exists apps app windows,
                    _get_running_applications = Return apps
                    /\ app ∈ apps
                    /\ _get_children app = Return windows
                    /\ w ∈ windows).
Proof.
  intros s. unfold _find_test_window, bind, ret, get, modify, call. split.
  - by intros ->.
  - intros w s'. destruct (fst (_next_test s)) as [name|] eqn:Hname; simpl; [|done].
    destruct (nonempty name) eqn:Hne; simpl; [|done].
    assert (Hname' : name <> "") by (by intros ->).
    assert (Hsearch : forall s0,
              (let (r, s1) := (_get_running_applications, s0) in
               match r with
               | Return apps =>
                   (search_applications get_property_value _get_title_property_names
                      _get_children simplify_whitespace (simplify_whitespace name) apps,
                    s1)
               | Raise e => (Raise e, s1)
               end) = (Return (Some w), s') ->
              exists title,
                get_title (Some w) true = Return title
                /\ PyStr.contains (simplify_whitespace name) title = true
                /\ exists apps app windows,
                     _get_running_applications = Return apps
                     /\ app ∈ apps
                     /\ _get_children app = Return windows
                     /\ w ∈ windows).
    { intros s0. destruct _get_running_applications as [apps|e] eqn:Happs; [|done].
      intros [= H <-]. destruct (search_applications_found _ _ _ H)
        as [(app & windows & Ha & Hw & Hin) (title & Ht & Hc)].
      exists title. split; [done|]. split; [done|]. by exists apps, app, windows. }
    destruct (_current_window s) as [cached|] eqn:Hcached; simpl.
    + destruct (_get_title_from _ _ cached true _) as [title|e] eqn:Htitle; simpl; [|done].
      destruct (PyStr.contains (simplify_whitespace name) title) eqn:Hc; simpl.
      * intros [= <- <-]. exists name, title. repeat split; try done. by left.
      * intros H. destruct (Hsearch _ H) as (t & Ht & Hct & Hfrom).
        exists name, t. repeat split; try done. by right.
    + intros H. destruct (Hsearch _ H) as (t & Ht & Hct & Hfrom).
      exists name, t. repeat split; try done. by right.
Qed.

Lemma find_test_window_sets_window (s : Atta) :
  exists w, snd (find_test_window s) = set_current_window w s.
Proof.
  assert (Hsame : s = set_current_window (_current_window s) s) by (by destruct s).
  unfold _find_test_window, bind, ret, get, modify, call. simpl.
  destruct (negb _); simpl; [by exists (_current_window s)|].
  destruct (_current_window s) as [cached|] eqn:Hcached; simpl.
  - destruct (_get_title_from _ _ cached true _) as [title|e]; simpl;
      [|by exists (Some cached)].
    destruct (PyStr.contains _ title); simpl; [by exists (Some cached)|].
    destruct _get_running_applications as [apps|e]; simpl; by exists None.
  - destruct _get_running_applications as [apps|e]; simpl; by exists None.
Qed.

(** Case analysis on every scrutinee of a method's body. *)
Ltac body_cases :=
  repeat (simpl;
          match goal with
          | |- context [match ?x with _ => _ end] =>
              lazymatch x with
              | context [match _ with _ => _ end] => fail
              | _ => destruct x eqn:?
              end
          end);
  simpl.

Lemma is_ready_flag (document : option Element) (s : Atta) :
  let (r, s') := is_ready document s in
  truthy (_ready s') = match r with
                       | Return b => b
                       | Raise _ => false
                       end
  /\ _next_test s' = _next_test s
  /\ _monitored_event_types s' = _monitored_event_types s
  /\ _event_history s' = _event_history s
  /\ _current_application s' = _current_application s.
Proof.
  unfold Session.is_ready, bind, ret, get, modify, call. simpl.
  destruct (truthy (_ready s)) eqn:Hready; [done|].
  destruct (find_test_window_sets_window s) as [w Hw].
  destruct (find_test_window s) as [r1 s1] eqn:Hfind. simpl in Hw. subst s1.
  destruct (_next_test s) as [test_name test_uri] eqn:Htest.
  body_cases; rewrite ?Hready, ?Htest; try done;
    repeat match goal with
           | H : false = true |- _ => discriminate H
           | H : true = false |- _ => discriminate H
           | H : truthy ?x = _ |- _ => progress (simpl in H)
           | H : ?a = ?b |- _ => progress (rewrite H)
           end; try done; try congruence.
  all: simplify_eq; simpl; rewrite ?Hready, ?Htest; done.
Qed.


Lemma register_all_appends (event_types : list string) (s : Atta) :
  let (r, s') := register_all _register_listener event_types s in
  exists registered,
    _monitored_event_types s' = _monitored_event_types s ++ registered
    /\ registered `prefix_of` event_types
    /\ Forall (fun t => _register_listener t = Return tt) registered
    /\ (is_return r = true -> registered = event_types)
    /\ _event_history s' = _event_history s
    /\ core s' = core s
    /\ _current_window s' = _current_window s.
Proof.
  revert s. induction event_types as [|event_type rest IH]; intros s.
  - simpl. exists []. rewrite app_nil_r. done.
  - simpl. unfold bind, call, modify at 1.
    destruct (_register_listener event_type) as [[]|e] eqn:Hreg.
    + specialize (IH (set_monitored_event_types
                        (_monitored_event_types s ++ [event_type]) s)).
      destruct (register_all _ rest _) as [r s'].
      destruct IH as (registered & Hm & Hp & Hall & Hr & Hh & Hc & Hw).
      exists (event_type :: registered). simpl in *.
      rewrite Hm, <- app_assoc. repeat split; try done.
      * by apply prefix_cons.
      * by constructor.
      * intros Hret. by rewrite Hr.
    + exists []. rewrite app_nil_r. repeat split; try done.
      by apply prefix_nil.
Qed.

(** X12. [start_listen] empties the event buffer, and the monitored types
    it leaves are the requested types whose listener was registered: all of
    them when it returns, those before the failed registration when it
    raises. The session of the pending test is not touched. *)
Theorem start_listen_monitors_registered_types :
  forall (event_types : list string) (s : Atta),
    let (r, s') := start_listen event_types s in
    _event_history s' = []
    /\ _monitored_event_types s' `prefix_of` event_types
    /\ Forall (fun t => _register_listener t = Return tt) (_monitored_event_types s')
    /\ (is_return r = true -> _monitored_event_types s' = event_types)
    /\ core s' = core s.
Proof.
  intros event_types s. unfold Session.start_listen, bind, modify. simpl.
  pose proof (register_all_appends event_types
                (set_event_history [] (set_monitored_event_types [] s))) as H.
  destruct (register_all _ event_types _) as [r s'].
  destruct H as (registered & Hm & Hp & Hall & Hr & Hh & Hc & Hw).
  simpl in *. rewrite Hm, Hh. done.
Qed.

Lemma deregister_all_state (event_types : list string) (s : Atta) :
  let (r, s') := deregister_all _deregister_listener event_types s in
  s' = s
  /\ (is_return r = true <->
      Forall (fun t => is_return (_deregister_listener t) = true) event_types).
Proof.
  induction event_types as [|event_type rest IH]; simpl.
  - split; [done|]. split; [constructor|done].
  - unfold bind, call at 1.
    destruct (_deregister_listener event_type) as [[]|e] eqn:Hd.
    + destruct (deregister_all _ rest s) as [r s']. destruct IH as [-> IH].
      split; [done|]. rewrite IH. split.
      * intros H. constructor; [by rewrite Hd|done].
      * intros H. by apply Forall_cons in H as [_ H].
    + split; [done|]. simpl. split; [done|].
      intros H. apply Forall_cons in H as [H _]. by rewrite Hd in H.
Qed.

(** X13. [stop_listen] returns when every monitored type is deregistered,
    and then the monitored types and the event buffer are empty; when a
    deregistration raises, the monitored types and the buffer stay as they
    were. *)
Theorem stop_listen_clears_or_keeps :
  forall (s : Atta),
    let (r, s') := stop_listen s in
    (is_return r = true <->
     Forall (fun t => is_return (_deregister_listener t) = true)
       (_monitored_event_types s))
    /\ (if is_return r
        then s' = set_event_history [] (set_monitored_event_types [] s)
        else s' = s).
Proof.
  intros s. unfold Session.stop_listen, bind, get, modify. simpl.
  pose proof (deregister_all_state (_monitored_event_types s) s) as H.
  destruct (deregister_all _ _ s) as [[[]|e] s']; destruct H as [-> H]; simpl in *;
    done.
Qed.

(** X14. Delivering events to the listener appends to the event buffer and
    changes nothing else: the buffer afterwards is the old one followed by
    some of the delivered events, in the order of their delivery. *)
Theorem deliver_appends_delivered_events :
  forall (steps : nat) (events : list Event) (s : Atta),
    exists recorded,
      deliver steps events s = set_event_history (_event_history s ++ recorded) s
      /\ recorded `sublist_of` events.
Proof.
  intros steps events. induction events as [|data events IH]; intros s.
  - exists []. rewrite app_nil_r. split; [by destruct s|done].
  - change (deliver steps (data :: events) s)
      with (deliver steps events
              match _on_test_event _get_parent steps data s with
              | Some (_, s') => s'
              | None => s
              end).
    assert (Hone : match _on_test_event _get_parent steps data s with
                   | Some (_, s') => s'
                   | None => s
                   end = s
                   \/ match _on_test_event _get_parent steps data s with
                      | Some (_, s') => s'
                      | None => s
                      end = set_event_history (_event_history s ++ [data]) s).
    { unfold _on_test_event.
      destruct (_in_current_document _ _ _ _) as [[[|]|e]|]; auto. }
    destruct Hone as [-> | ->].
    + destruct (IH s) as (recorded & Hd & Hsub). exists recorded.
      split; [done|]. by apply sublist_cons.
    + destruct (IH (set_event_history (_event_history s ++ [data]) s))
        as (recorded & Hd & Hsub).
      exists (data :: recorded). rewrite Hd. simpl.
      rewrite <- app_assoc. split; [done|]. by apply sublist_skip.
Qed.

End ListeningFacts.

Lemma get_title_first_nonempty_property_witness :
  ("test one" = "" /\ Forall (untitled sample_property 2) ["name"])
  \/ exists before attribute after n,
       ["name"] = before ++ attribute :: after
       /\ Forall (untitled sample_property 2) before
       /\ sample_property 2 attribute = Return (Some n)
       /\ n <> ""
       /\ "test one" = if true then (fun x : string => x) n else n.
Proof.
  apply (proj2 (get_title_first_nonempty_property sample_property ["name"]
                  (fun x => x) true) 2 "test one").
  reflexivity.
Defined.

Lemma find_test_window_title_contains_name_witness :
  exists name title,
    fst (_next_test sample_session) = Some name
    /\ name <> ""
    /\ _get_title sample_property ["name"] (fun x => x) (Some 2) true = Return title
    /\ PyStr.contains name title = true
    /\ ((_current_window sample_session = Some 2 /\ sample_session = sample_session)
        \/ exists apps app windows,
             Return [1] = Return apps
             /\ app ∈ apps
             /\ sample_children app = Return windows
             /\ 2 ∈ windows).
Proof.
  apply (proj2 (find_test_window_title_contains_name (Data := unit) sample_property
                  ["name"] sample_children (Return [1]) (fun x => x) sample_session)
           2 sample_session).
  reflexivity.
Defined.

Import Runner.

(** *** Running the assertions of a test *)

Section RunnerFacts.

Context {Element : Type} `{!EqDecision Element} {Data Value TestClass : Type}.

Variable _get_uri : Element -> result string.
Variable get_property_value : Element -> string -> result (option string).
Variable _get_title_property_names : list string.
Variable _get_children : Element -> result (list Element).
Variable _get_running_applications : result (list Element).
Variable _is_document : option Element -> result bool.
Variable _get_id : option Element -> result string.
Variable simplify_whitespace : string -> string.
Variable recursion_limit : nat.
Variable STATUS_PASS STATUS_FAIL : string.
Variable _get_assertion_test_class : platform_assertion Value -> option TestClass.
Variable run :
  TestClass -> option Element -> platform_assertion Value -> string * string * string.
Variable get_bug : TestClass -> option Element -> platform_assertion Value -> string.
Variable urlsplit_path : string -> string.
Variable assertion_string : platform_assertion Value -> string.
Variable not_valid_message : platform_assertion Value -> string.

Local Abbreviation Atta := (Session.Atta Element Data).
Local Abbreviation get_element_with_id :=
  (@_get_element_with_id Element _get_children _get_id recursion_limit).
Local Abbreviation run_test :=
  (@_run_test Element (platform_assertion Value) TestClass STATUS_FAIL
     _get_assertion_test_class run get_bug urlsplit_path assertion_string
     not_valid_message).
Local Abbreviation run_each :=
  (@Runner.run_each Element Value TestClass STATUS_FAIL _get_assertion_test_class run
     get_bug urlsplit_path assertion_string not_valid_message).
Local Abbreviation run_tests :=
  (@Runner.run_tests Element Data Value TestClass _get_uri get_property_value
     _get_title_property_names _get_children _get_running_applications _is_document
     _get_id simplify_whitespace recursion_limit STATUS_FAIL
     _get_assertion_test_class run get_bug urlsplit_path assertion_string
     not_valid_message).

(** X15. [_get_element_with_id] answers [None] for a missing or empty id
    without a look at the tree; an element that it returns lies in the
    subtree of the root and has the id that was asked for. *)
Theorem get_element_with_id_finds_id :
  forall (root : option Element) (element_id : option string),
    (truthy_name element_id = false ->
     get_element_with_id root element_id = Return None)
    /\ forall r x,
         root = Some r ->
         get_element_with_id root element_id = Return (Some x) ->
         exists id,
           element_id = Some id
           /\ id <> ""
           /\ _get_id (Some x) = Return id
           /\ in_subtree _get_children r x.
Proof.
  intros root element_id. unfold _get_element_with_id. split.
  - by intros ->.
  - intros r x -> H. destruct element_id as [id|]; simpl in H; [|done].
    destruct (nonempty id) eqn:Hne; simpl in H; [|done].
    apply find_descendant_found in H as [Hpred Hsub].
    exists id. split; [done|]. split; [by intros ->|]. split; [|done].
    destruct (_get_id (Some x)) as [id'|e]; simpl in Hpred; [|done].
    injection Hpred as Hpred. apply bool_decide_eq_true in Hpred. congruence.
Qed.

(** The verdict of one assertion does not depend on the results recorded
    so far. *)
Lemma run_test_verdict (url : string) (obj : option Element)
    (a : platform_assertion Value) (_results : gmap string (gmap string (list string))) :
  fst (run_test url obj a _results) = fst (run_test url obj a ∅).
Proof.
  unfold _run_test. destruct (_get_assertion_test_class a) as [test_class|]; [|done].
  by destruct (run test_class obj a) as [[result message] log].
Qed.

Lemma run_each_verdicts (url : string) (obj : option Element)
    (to_run : list (platform_assertion Value))
    (_results : gmap string (gmap string (list string))) :
  fst (run_each url obj to_run _results)
  = map (fun a => fst (run_test url obj a ∅)) to_run.
Proof.
  revert _results. induction to_run as [|a rest IH]; intros _results; [done|].
  simpl. pose proof (run_test_verdict url obj a _results) as Hv.
  destruct (run_test url obj a _results) as [verdict results1].
  specialize (IH results1). destruct (run_each url obj rest results1) as [vs results2].
  simpl in *. by rewrite Hv, IH.
Qed.


End RunnerFacts.

Lemma get_element_with_id_finds_id_witness :
  _get_element_with_id sample_children sample_id 1000 (Some 3) None = Return None
  /\ exists id,
       Some "e|||||" = Some id
       /\ id <> ""
       /\ sample_id (Some 5) = Return id
       /\ in_subtree sample_children 3 5.
Proof.
  split.
  - apply (proj1 (get_element_with_id_finds_id sample_children sample_id 1000
                    (Some 3) None)).
    reflexivity.
  - apply (proj2 (get_element_with_id_finds_id sample_children sample_id 1000
                    (Some 3) (Some "e|||||")) 3 5).
    + reflexivity.
    + vm_compute. reflexivity.
Defined.

(** *** The requests of the bug lookup *)

Section BugRequests.

Context {Response : Type}.

Variable urlopen_outcome : list string -> string -> option Response.
Variable peek : Response -> string.
Variable search_title : string -> option string.
Variable unescape strip upper : string -> string.
Variable geturl : Response -> string.
Variable urlsplit : string -> string * string * string * string * string.
Variable urlunsplit : string * string * string * string * string -> string.
Variable loads : Response -> option json.
Variable str : json -> string.

Local Abbreviation get_bug_details :=
  (@Bugs.get_bug_details Response urlopen_outcome peek search_title unescape strip
     upper geturl urlsplit urlunsplit loads str).

(** X17. A call of [get_bug_details] sends no request when the cache has a
    string for the URI, and otherwise the request for the URI itself,
    followed by at most one more. It changes no cache entry of another URI,
    and a call that raises changes no entry at all. *)
Theorem get_bug_details_sends_at_most_two_requests :
  forall (bug_uri : string) (st : State),
    let (r, st') := get_bug_details bug_uri st in
    (exists sent,
       requests st' = requests st ++ sent
       /\ (sent = [] \/ sent = [bug_uri] \/ exists uri, sent = [bug_uri; uri])
       /\ (is_Some (_bugs st !! bug_uri ≫= id) <-> sent = []))
    /\ (forall other, other <> bug_uri -> _bugs st' !! other = _bugs st !! other)
    /\ (is_return r = false -> _bugs st' = _bugs st).
Proof.
  intros bug_uri st. unfold Bugs.get_bug_details, urlopen.
  destruct (_bugs st !! bug_uri) as [[cached|]|] eqn:Hlook; simpl.
  { split; [|done]. exists []. rewrite app_nil_r. split; [done|]. split; [by left|].
    split; [done|]. intros _. by eexists. }
  all: destruct (urlopen_outcome (requests st) bug_uri) as [response|]; simpl.
  all: repeat match goal with
              | |- context [match ?x with _ => _ end] =>
                  lazymatch x with
                  | context [match _ with _ => _ end] => fail
                  | _ => destruct x
                  end
              end; simpl.
  all: split;
    [ eexists; split;
      [ first [ rewrite <- app_assoc; reflexivity | reflexivity ]
      | split;
        [ first [ by right; left | right; right; by eexists ]
        | split; [ by intros [? ?] | done ] ] ]
    | split; [ intros other Hne; by rewrite ?lookup_insert_ne | done ] ].
Qed.

End BugRequests.

(** *** The summary uses the results up *)

Section SummaryFacts.

Variable STATUS_PASS STATUS_FAIL : string.
Variable get_bug_details : string -> Bugs.State -> result (option string) * Bugs.State.

Local Abbreviation output_bugs := (@Results.output_bugs get_bug_details).
Local Abbreviation log_results_summary :=
  (@Results.log_results_summary STATUS_PASS STATUS_FAIL get_bug_details).

Lemma output_bugs_pops (bugs : list string)
    (results : gmap string (gmap string (list string))) (cache : Bugs.State) :
  let '(lines, r, results', cache') := output_bugs bugs results cache in
  (forall k, k ∉ bugs -> results' !! k = results !! k)
  /\ (is_return r = true ->
      length lines = length bugs /\ forall k, k ∈ bugs -> results' !! k = None).
Proof.
  revert results cache. induction bugs as [|bug rest IH]; intros results cache; simpl.
  - split; [done|]. intros _. split; [done|]. intros k Hk. by apply elem_of_nil in Hk.
  - destruct (get_bug_details bug cache) as [[details|e] cache1].
    + pose proof (output_pops bug
                    (Some ("FAIL (" +:+ bug +:+ " " +:+ default "None" details +:+ "): "))
                    false results) as Hpop.
      destruct (output bug _ false results) as [l results1]. simpl in Hpop. subst.
      specialize (IH (delete bug results) cache1).
      destruct (Results.output_bugs _ rest _ cache1) as [[[lines r] results2] cache2].
      destruct IH as [Hframe Hdone]. split.
      * intros k Hk. apply not_elem_of_cons in Hk as [Hne Hk].
        rewrite (Hframe k Hk). by rewrite lookup_delete_ne.
      * intros Hr. destruct (Hdone Hr) as [Hlen Hnone]. split; [simpl; by rewrite Hlen|].
        intros k Hk. destruct (decide (k ∈ rest)) as [Hin|Hnin]; [by apply Hnone|].
        apply elem_of_cons in Hk as [->|Hk]; [|done].
        rewrite (Hframe bug Hnin). by rewrite lookup_delete_eq.
    + split; [done|]. done.
Qed.

(** X18. When [log_results_summary] returns, the results it was given are
    used up, whether it was asked to clear them or not: what is left of
    [self._results] is empty. It prints the line of the passes, the line of
    the unfiled failures, and one line for every other key. *)
Theorem log_results_summary_uses_results_up :
  forall (clear_results : bool) (_results : gmap string (gmap string (list string)))
         (cache : Bugs.State),
    let '(lines, r, results', cache') :=
      log_results_summary clear_results _results cache in
    (clear_results = true -> results' = ∅)
    /\ (is_return r = true ->
        results' = ∅
        /\ length lines
           = 2 + size (delete STATUS_FAIL (delete STATUS_PASS _results))).
Proof.
  intros clear_results _results cache. unfold Results.log_results_summary.
  pose proof (output_pops STATUS_PASS None false _results) as Hpass.
  destruct (output STATUS_PASS None false _results) as [pass results1].
  simpl in Hpass. subst results1.
  pose proof (output_pops STATUS_FAIL (Some "FAIL (unfiled): ") true
                (delete STATUS_PASS _results)) as Hfail.
  destruct (output STATUS_FAIL _ true _) as [fail results2].
  simpl in Hfail. subst results2.
  set (rest := delete STATUS_FAIL (delete STATUS_PASS _results)).
  pose proof (output_bugs_pops (map fst (sorted_items (map_to_list rest))) rest cache)
    as Hbugs.
  destruct (Results.output_bugs _ _ rest cache) as [[[lines r] results3] cache3].
  destruct Hbugs as [Hframe Hdone]. split.
  - by intros ->.
  - intros Hr. destruct (Hdone Hr) as [Hlen Hnone].
    assert (Hkeys : forall k, is_Some (rest !! k) ->
                              k ∈ map fst (sorted_items (map_to_list rest))).
    { intros k [v Hv]. apply list_elem_of_In, in_map_iff. exists (k, v).
      split; [done|]. apply list_elem_of_In. unfold sorted_items.
      rewrite merge_sort_Permutation. by apply elem_of_map_to_list. }
    assert (Hempty : results3 = ∅).
    { apply map_empty. intros k.
      destruct (rest !! k) as [v|] eqn:Hk.
      - apply Hnone, Hkeys. by eexists.
      - destruct (decide (k ∈ map fst (sorted_items (map_to_list rest)))) as [Hin|Hnin].
        + by apply Hnone.
        + by rewrite (Hframe k Hnin). }
    split; [by destruct clear_results|].
    simpl. rewrite Hlen, length_map. unfold sorted_items.
    rewrite merge_sort_Permutation. by rewrite length_map_to_list.
Qed.

End SummaryFacts.

Import LoadComplete.

(** *** The load-complete callbacks *)

Section LoadCompleteFacts.

Context {Element : Type} `{!EqDecision Element} {Data Pid : Type}.

Variable _get_uri : Element -> result string.
Variable get_property_value : Element -> string -> result (option string).
Variable _get_title_property_names : list string.
Variable _get_children : Element -> result (list Element).
Variable _get_running_applications : result (list Element).
Variable _is_document : option Element -> result bool.
Variable simplify_whitespace : string -> string.
Variable recursion_limit : nat.
Variable get_application : option Element -> result (option Element).
Variable set_cache_mask : Element -> result unit.
Variable get_pid : option Element -> result Pid.
Variable _user_agents : Pid -> option Element.

Local Abbreviation Atta := (Session.Atta Element Data).
Local Abbreviation is_ready :=
  (@Session.is_ready Element Data _get_uri get_property_value _get_title_property_names
     _get_children _get_running_applications _is_document simplify_whitespace
     recursion_limit).
Local Abbreviation invariant :=
  (@readiness_invariant Element Data _get_uri get_property_value
     _get_title_property_names simplify_whitespace).
Local Abbreviation atk_on_load_complete :=
  (@LoadComplete.atk_on_load_complete Element Data _get_uri get_property_value
     _get_title_property_names _get_children _get_running_applications _is_document
     simplify_whitespace recursion_limit get_application set_cache_mask).
Local Abbreviation axapi_on_load_complete :=
  (@LoadComplete.axapi_on_load_complete Element Data Pid _get_uri get_property_value
     _get_title_property_names _get_children _get_running_applications _is_document
     simplify_whitespace recursion_limit get_pid _user_agents).

Lemma wait_for_test_after_wait (during_sleep : Atta -> Atta) (s : Atta) :
  wait_for_test during_sleep s
  = (Return (negb (bool_decide (_next_test (after_wait during_sleep s) = (None, "")))),
     after_wait during_sleep s).
Proof.
  unfold wait_for_test, after_wait, bind, get, modify, ret. simpl.
  by destruct (bool_decide (_next_test s = (None, ""))).
Qed.

(** What both callbacks rely on: the call of [is_ready] in their middle. *)
Lemma is_ready_step (document : option Element) (s : Atta) :
  let (r, s') := is_ready document s in
  truthy (_ready s') = match r with
                       | Return b => b
                       | Raise _ => false
                       end
  /\ _next_test s' = _next_test s
  /\ _event_history s' = _event_history s
  /\ _current_application s' = _current_application s
  /\ (invariant s -> invariant s').
Proof.
  pose proof (is_ready_flag _get_uri get_property_value _get_title_property_names
                _get_children _get_running_applications _is_document
                simplify_whitespace recursion_limit document s) as Hflag.
  pose proof (is_ready_invariant _get_uri get_property_value _get_title_property_names
                _get_children _get_running_applications _is_document
                simplify_whitespace recursion_limit document s) as Hinv.
  destruct (is_ready document s) as [r s']. simpl in Hinv.
  destruct Hflag as (H1 & H2 & _ & H3 & H4). done.
Qed.

(** X19. The load-complete callback of the ATK adapter does nothing when no
    test is pending after its wait. It caches an application only when
    [is_ready] has answered true for the source of the event, and then the
    application is the one of the source and is not named
    [WebKitWebProcess]. It changes neither the pending test nor the event
    buffer, and it keeps the readiness invariant. *)
Theorem atk_on_load_complete_caches_application_when_ready :
  forall (during_sleep : Atta -> Atta) (source : option Element) (s : Atta),
    let s0 := after_wait during_sleep s in
    let (r, s') := atk_on_load_complete during_sleep source s in
    _next_test s' = _next_test s0
    /\ _event_history s' = _event_history s0
    /\ (_next_test s0 = (None, "") -> r = Return tt /\ s' = s0)
    /\ (_current_application s' = _current_application s0
        \/ exists application app_name,
             _current_application s' = Some application
             /\ get_application source = Return (Some application)
             /\ get_property_value application "name" = Return (Some app_name)
             /\ app_name <> "WebKitWebProcess"
             /\ truthy (_ready s') = true
             /\ r = Return tt)
    /\ (invariant s0 -> invariant s').
Proof.
  intros during_sleep source s s0.
  unfold LoadComplete.atk_on_load_complete, bind at 1.
  rewrite wait_for_test_after_wait. fold s0.
  destruct (bool_decide (_next_test s0 = (None, ""))) eqn:Hpending; simpl.
  { split; [done|]. split; [done|]. split; [done|]. split; [by left|done]. }
  apply bool_decide_eq_false in Hpending.
  unfold bind at 1, call at 1.
  destruct (get_application source) as [[application|]|e] eqn:Happ; simpl;
    try (split; [done|]; split; [done|]; split; [done|]; split; [by left|done]).
  unfold bind at 1, call at 1.
  destruct (get_property_value application "name") as [[app_name|]|e] eqn:Hname; simpl;
    try (split; [done|]; split; [done|]; split; [done|]; split; [by left|done]).
  destruct (String.eqb app_name "WebKitWebProcess") eqn:Hweb;
    [split; [done|]; split; [done|]; split; [done|]; split; [by left|done]|].
  apply String.eqb_neq in Hweb.
  unfold bind at 1. pose proof (is_ready_step source s0) as Hstep.
  destruct (is_ready source s0) as [[[|]|e] s1];
    destruct Hstep as (Hflag & Htest & Hhist & Happl & Hinv);
    try (split; [done|]; split; [done|]; split; [done|]; split; [by left|done]).
  unfold bind, call, modify. destruct (set_cache_mask application) as [[]|e]; simpl.
  - split; [done|]. split; [done|]. split; [done|]. split.
    + right. by exists application, app_name.
    + intros H0. apply (invariant_core _ _ _ _ s1); [done|by apply Hinv].
  - split; [done|]. split; [done|]. split; [done|]. split; [by left|done].
Qed.

(** X20. The load-complete callback of the AXAPI adapter does nothing when
    no test is pending after its wait, and it sets the cached application
    only when [is_ready] has answered true for the element of the event. It
    changes neither the pending test nor the event buffer, and it keeps the
    readiness invariant. *)
Theorem axapi_on_load_complete_caches_application_when_ready :
  forall (during_sleep : Atta -> Atta) (data : option Element) (s : Atta),
    let s0 := after_wait during_sleep s in
    let (r, s') := axapi_on_load_complete during_sleep data s in
    _next_test s' = _next_test s0
    /\ _event_history s' = _event_history s0
    /\ (_next_test s0 = (None, "") -> r = Return tt /\ s' = s0)
    /\ (_current_application s' = _current_application s0
        \/ exists pid,
             get_pid data = Return pid
             /\ _current_application s' = _user_agents pid
             /\ truthy (_ready s') = true
             /\ r = Return tt)
    /\ (invariant s0 -> invariant s').
Proof.
  intros during_sleep data s s0.
  unfold LoadComplete.axapi_on_load_complete, bind at 1.
  rewrite wait_for_test_after_wait. fold s0.
  destruct (bool_decide (_next_test s0 = (None, ""))) eqn:Hpending; simpl.
  { split; [done|]. split; [done|]. split; [done|]. split; [by left|done]. }
  apply bool_decide_eq_false in Hpending.
  unfold bind at 1. pose proof (is_ready_step data s0) as Hstep.
  destruct (is_ready data s0) as [[[|]|e] s1];
    destruct Hstep as (Hflag & Htest & Hhist & Happl & Hinv);
    try (split; [done|]; split; [done|]; split; [done|]; split; [by left|done]).
  unfold bind, call, modify. destruct (get_pid data) as [pid|e] eqn:Hpid; simpl.
  - split; [done|]. split; [done|]. split; [done|]. split.
    + right. by exists pid.
    + intros H0. apply (invariant_core _ _ _ _ s1); [done|by apply Hinv].
  - split; [done|]. split; [done|]. split; [done|]. split; [by left|done].
Qed.

End LoadCompleteFacts.

Import Handler.

(** *** The request handler *)

Lemma endswith_empty (s : string) : endswith "" s = true.
Proof. induction s as [|c s IH]; [done|]. simpl. done. Qed.

Lemma endswith_refl (s : string) : endswith s s = true.
Proof. destruct s; simpl; [done|]. by rewrite Ascii.eqb_refl, String.eqb_refl. Qed.

(** Two ends of one string: one of them is an end of the other. *)
Lemma endswith_comparable (a b s : string) :
  endswith a s = true -> endswith b s = true ->
  endswith a b = true \/ endswith b a = true.
Proof.
  induction s as [|c s IH].
  - simpl. rewrite !orb_false_r. intros Ha%String.eqb_eq Hb%String.eqb_eq. subst.
    by left.
  - cbn [endswith]. intros Ha Hb.
    apply orb_true_iff in Ha as [Ha%String.eqb_eq|Ha].
    { subst a. right. exact Hb. }
    apply orb_true_iff in Hb as [Hb%String.eqb_eq|Hb].
    { subst b. left. cbn [endswith]. rewrite Ha. apply orb_true_r. }
    by apply IH.
Qed.

Lemma endswith_exclusive (a b s : string) :
  endswith a b = false -> endswith b a = false ->
  endswith a s = true -> endswith b s = true -> False.
Proof.
  intros Hab Hba Ha Hb. destruct (endswith_comparable a b s Ha Hb); congruence.
Qed.

(** X21. No branch of [dispatch] is shadowed by an earlier one: a handler
    is called exactly when the path ends with its own suffix, and the
    answer is the error 400 exactly when the path ends with none of the
    five. *)
Theorem dispatch_no_handler_shadowed :
  forall (path : string),
    (dispatch path = StartTestRun <-> endswith "start" path = true)
    /\ (dispatch path = StartListen <-> endswith "startlisten" path = true)
    /\ (dispatch path = RunTests <-> endswith "test" path = true)
    /\ (dispatch path = StopListen <-> endswith "stoplisten" path = true)
    /\ (dispatch path = EndTestRun <-> endswith "end" path = true)
    /\ (dispatch path = SendError 400 ("UNHANDLED PATH: " +:+ path) <->
        Forall (fun suffix => endswith suffix path = false)
          ["start"; "startlisten"; "test"; "stoplisten"; "end"]).
Proof.
  intros path. unfold dispatch.
  pose proof (endswith_exclusive "start" "startlisten" path eq_refl eq_refl).
  pose proof (endswith_exclusive "start" "test" path eq_refl eq_refl).
  pose proof (endswith_exclusive "start" "stoplisten" path eq_refl eq_refl).
  pose proof (endswith_exclusive "start" "end" path eq_refl eq_refl).
  pose proof (endswith_exclusive "startlisten" "test" path eq_refl eq_refl).
  pose proof (endswith_exclusive "startlisten" "stoplisten" path eq_refl eq_refl).
  pose proof (endswith_exclusive "startlisten" "end" path eq_refl eq_refl).
  pose proof (endswith_exclusive "test" "stoplisten" path eq_refl eq_refl).
  pose proof (endswith_exclusive "test" "end" path eq_refl eq_refl).
  pose proof (endswith_exclusive "stoplisten" "end" path eq_refl eq_refl).
  rewrite !Forall_cons, Forall_nil.
  destruct (endswith "start" path), (endswith "startlisten" path),
    (endswith "test" path), (endswith "stoplisten" path), (endswith "end" path);
    try (exfalso; auto; fail);
    repeat split; try done; intros; try done; intuition congruence.
Qed.

Lemma concat_starts (sep : string) (c : ascii) (x : string) (xs : list string) :
  exists rest, String.concat sep (String c x :: xs) = String c rest.
Proof. destruct xs; simpl; by eexists. Qed.

Lemma collect_step (items : list (string * json)) (param : string)
    (rest : list string) (response : gmap string json) (errors : list string) :
  collect (JDict items) (param :: rest) response errors
  = match submitted items param with
    | Some value => collect (JDict items) rest (<[param := value]> response) errors
    | None =>
        collect (JDict items) rest response
          (errors ++ ["Parameter " +:+ param +:+ " not found"])
    end.
Proof.
  unfold submitted. cbn [collect]. by destruct (lookup_item param items) as [[]|].
Qed.

Lemma collect_object (items : list (string * json)) (params : list string) :
  forall (response : gmap string json) (errors : list string),
    exists response' missing,
      collect (JDict items) params response errors = Return (response', errors ++ missing)
      /\ (forall p, response' !! p
                    = if bool_decide (p ∈ params)
                      then match submitted items p with
                           | Some v => Some v
                           | None => response !! p
                           end
                      else response !! p)
      /\ (missing = [] <-> forall p, p ∈ params -> is_Some (submitted items p))
      /\ (forall m, m ∈ missing -> exists rest, m = String "P" rest).
Proof.
  induction params as [|param rest IH]; intros response errors.
  - exists response, []. rewrite app_nil_r. split; [done|]. split; [done|].
    split; [|intros m Hm; by apply elem_of_nil in Hm].
    split; [|done]. intros _ p Hp. by apply elem_of_nil in Hp.
  - rewrite collect_step. destruct (submitted items param) as [value|] eqn:Hvalue.
    + destruct (IH (<[param := value]> response) errors)
        as (response' & missing & Hc & Hl & Hm & Hp).
      exists response', missing. split; [done|]. split; [|split; [|done]].
      * intros p. rewrite Hl. destruct (decide (p = param)) as [->|Hne].
        -- rewrite (bool_decide_eq_true_2 (param ∈ param :: rest)) by by left.
           rewrite Hvalue, lookup_insert_eq. by case_bool_decide.
        -- rewrite lookup_insert_ne by done.
           apply (f_equal (fun b : bool =>
                             if b then match submitted items p with
                                       | Some v => Some v
                                       | None => response !! p
                                       end
                             else response !! p)).
           apply bool_decide_ext. rewrite elem_of_cons. tauto.
      * rewrite Hm. split.
        -- intros Hall p Hin. apply elem_of_cons in Hin as [->|Hin]; [|by apply Hall].
           by rewrite Hvalue.
        -- intros Hall p Hin. apply Hall. by right.
    + destruct (IH response (errors ++ ["Parameter " +:+ param +:+ " not found"]))
        as (response' & missing & Hc & Hl & Hm & Hp).
      exists response', (("Parameter " +:+ param +:+ " not found") :: missing).
      rewrite Hc, <- app_assoc. split; [done|]. split; [|split].
      * intros p. rewrite Hl. destruct (decide (p = param)) as [->|Hne].
        -- rewrite (bool_decide_eq_true_2 (param ∈ param :: rest)) by by left.
           rewrite Hvalue. by case_bool_decide.
        -- apply (f_equal (fun b : bool =>
                             if b then match submitted items p with
                                       | Some v => Some v
                                       | None => response !! p
                                       end
                             else response !! p)).
           apply bool_decide_ext. rewrite elem_of_cons. tauto.
      * split; [done|]. intros Hall. destruct (Hall param) as [v Hv]; [by left|].
        by rewrite Hvalue in Hv.
      * intros m Hin. apply elem_of_cons in Hin as [->|Hin]; [by eexists|by apply Hp].
Qed.

(** X22. For a submission that is an object, [get_params] returns every
    requested parameter that the submission has with a value other than
    [null], and its [error] entry is the empty string exactly when no
    requested parameter is missing. When the body could not be read the
    [error] entry is not empty and no parameter is returned. A submission
    that is not an object makes the first look-up raise. *)
Theorem get_params_error_iff_parameter_missing :
  forall (body : string + json) (params : list string),
    match body with
    | inr (JDict items) =>
        exists response e,
          get_params body params = Return response
          /\ response !! "error" = Some (JString e)
          /\ (e = "" <-> forall p, p ∈ params -> is_Some (submitted items p))
          /\ forall p, p <> "error" ->
                       response !! p
                       = if bool_decide (p ∈ params) then submitted items p else None
    | inr _ => params <> [] -> get_params body params = Raise AttributeError
    | inl error =>
        exists response e,
          get_params body params = Return response
          /\ response !! "error" = Some (JString e)
          /\ (error <> "" -> e <> "")
          /\ forall p, p <> "error" -> response !! p = None
    end.
Proof.
  intros [error|submission] params.
  - unfold get_params.
    destruct (collect_object [] params ∅ [error]) as (response & missing & Hc & Hl & _).
    rewrite Hc. cbn -[String.concat]. eexists _, _. split; [done|]. rewrite lookup_insert_eq.
    split; [done|]. split.
    + intros Hne. destruct error as [|c error]; [done|].
      destruct (concat_starts "; " c error missing) as [rest ->]. done.
    + intros p Hp. rewrite lookup_insert_ne by done. rewrite Hl.
      unfold submitted. simpl. by case_bool_decide.
  - destruct submission as [ | | | | |items];
      try (intros Hne; destruct params; [done|reflexivity]).
    unfold get_params.
    destruct (collect_object items params ∅ []) as (response & missing & Hc & Hl & Hm & Hp).
    rewrite Hc. cbn -[String.concat]. eexists _, _. split; [done|]. rewrite lookup_insert_eq.
    split; [done|]. split.
    + rewrite <- Hm. split; [|by intros ->].
      destruct missing as [|m missing]; [done|].
      destruct (Hp m) as [rest ->]; [by left|].
      destruct (concat_starts "; " "P" rest missing) as [rest' ->]. done.
    + intros p Hne. rewrite lookup_insert_ne by done. rewrite Hl.
      case_bool_decide; [|done]. by destruct (submitted items p).
Qed.


Lemma get_params_error_iff_parameter_missing_witness :
  get_params (inr JNull) ["test"; "url"] = Raise AttributeError.
Proof.
  apply (get_params_error_iff_parameter_missing (inr JNull) ["test"; "url"]).
  discriminate.
Defined.

Import Calls.

(** *** Calls written as strings *)

Lemma split_once_first (sep : ascii) (before after : string) :
  occurs sep before = false ->
  split_once sep (before +:+ String sep after) = Some (before, after).
Proof.
  induction before as [|c before IH]; simpl.
  - by rewrite Ascii.eqb_refl.
  - intros H. apply orb_false_iff in H as [Hc Hrest].
    rewrite Hc. change (before ++ String sep after)%string
      with (before +:+ String sep after). by rewrite IH.
Qed.

Lemma split_once_none (sep : ascii) (s : string) :
  occurs sep s = false -> split_once sep s = None.
Proof.
  induction s as [|c s IH]; [done|]. simpl.
  intros H. apply orb_false_iff in H as [Hc Hrest]. by rewrite Hc, IH.
Qed.

Lemma split_once_absent (sep : ascii) (s : string) :
  split_once sep s = None -> occurs sep s = false.
Proof.
  induction s as [|c s IH]; [done|]. simpl.
  destruct (Ascii.eqb c sep); [done|].
  destruct (split_once sep s) as [[b a]|]; [done|]. intros _. by apply IH.
Qed.

Lemma split_once_before (sep : ascii) (s before after : string) :
  split_once sep s = Some (before, after) -> occurs sep before = false.
Proof.
  revert before. induction s as [|c s IH]; intros before; [done|]. simpl.
  destruct (Ascii.eqb c sep) eqn:Hc; [by intros [= <- <-]|].
  destruct (split_once sep s) as [[b a]|]; [|done].
  intros [= <- <-]. simpl. by rewrite Hc, (IH b).
Qed.

Lemma drop_last_snoc (s : string) (c : ascii) : drop_last (s +:+ String c "") = s.
Proof.
  induction s as [|c' s IH]; [done|].
  change (String c' s +:+ String c "") with (String c' (s +:+ String c "")).
  cbn [drop_last]. rewrite IH. by destruct s.
Qed.

Lemma split_whole (sep : ascii) (s : string) :
  occurs sep s = false -> split sep s = [s].
Proof.
  induction s as [|c s IH]; [done|]. simpl.
  intros H. apply orb_false_iff in H as [Hc Hrest]. by rewrite Hc, IH.
Qed.

Lemma split_first (sep : ascii) (x rest : string) :
  occurs sep x = false ->
  split sep (x +:+ String sep rest) = x :: split sep rest.
Proof.
  induction x as [|c x IH]; simpl.
  - by rewrite Ascii.eqb_refl.
  - intros H. apply orb_false_iff in H as [Hc Hrest]. rewrite Hc.
    change (x ++ String sep rest)%string with (x +:+ String sep rest).
    by rewrite IH.
Qed.

Lemma split_parts (sep : ascii) (s : string) :
  Forall (fun x => occurs sep x = false) (split sep s).
Proof.
  induction s as [|c s IH]; simpl; [by constructor|].
  destruct (Ascii.eqb c sep) eqn:Hc; [by constructor|].
  destruct (split sep s) as [|x xs]; [by constructor; [simpl; rewrite Hc|]|].
  apply Forall_cons in IH as [Hx Hxs]. constructor; [|done]. simpl. by rewrite Hc, Hx.
Qed.

Lemma split_concat (args : list string) :
  Forall (fun a => a <> "" /\ occurs "," a = false) args ->
  List.filter (fun x => negb (String.eqb x "")) (split "," (String.concat "," args))
  = args.
Proof.
  induction args as [|a args IH]; [done|]. intros Hall.
  apply Forall_cons in Hall as [[Hne Hcomma] Hall].
  assert (Hkeep : negb (String.eqb a "") = true).
  { apply negb_true_iff, String.eqb_neq. done. }
  destruct args as [|b args].
  - simpl. rewrite split_whole by done. simpl. by rewrite Hkeep.
  - change (String.concat "," (a :: b :: args))
      with (a +:+ String "," (String.concat "," (b :: args))).
    rewrite split_first by done. cbn [List.filter]. rewrite Hkeep. f_equal.
    by apply IH.
Qed.

Lemma method_and_args_call (m : string) (args : list string) :
  occurs "(" m = false ->
  Forall (fun a => a <> "" /\ occurs "," a = false) args ->
  method_and_args (m +:+ "(" +:+ String.concat "," args +:+ ")") = (m, args).
Proof.
  intros Hm Hargs. unfold method_and_args.
  change (m +:+ "(" +:+ String.concat "," args +:+ ")")
    with (m +:+ String "(" (String.concat "," args +:+ String ")" "")).
  rewrite split_once_first by done. rewrite drop_last_snoc. by rewrite split_concat.
Qed.

Lemma method_and_args_parts (callable_as_string : string) :
  Forall (fun a => a <> "" /\ occurs "," a = false)
    (snd (method_and_args callable_as_string)).
Proof.
  unfold method_and_args.
  destruct (split_once "(" callable_as_string) as [[m a]|]; [|by constructor].
  simpl. apply Forall_forall. intros x Hx. apply list_elem_of_In in Hx.
  apply filter_In in Hx as [Hin Hne]. split.
  - apply negb_true_iff, String.eqb_neq in Hne. done.
  - pose proof (split_parts "," (drop_last a)) as Hparts.
    rewrite Forall_forall in Hparts. apply Hparts. by apply list_elem_of_In.
Qed.

(** X23. The first lines of [string_to_method_and_arguments] read a call
    back: from the name of a method without parenthesis, followed by the
    arguments between parentheses and separated by commas, they give the
    name and the arguments, when no argument is empty or has a comma. A
    string without parenthesis is a method without arguments. Whatever the
    string, the name that is read has no parenthesis, and no argument that
    is read is empty or has a comma. *)
Theorem method_and_args_reads_call_back :
  forall (callable_as_string : string),
    (forall m args,
       occurs "(" m = false ->
       Forall (fun a => a <> "" /\ occurs "," a = false) args ->
       callable_as_string = m +:+ "(" +:+ String.concat "," args +:+ ")" ->
       method_and_args callable_as_string = (m, args))
    /\ (occurs "(" callable_as_string = false ->
        method_and_args callable_as_string = (callable_as_string, []))
    /\ occurs "(" (fst (method_and_args callable_as_string)) = false
    /\ Forall (fun a => a <> "" /\ occurs "," a = false)
         (snd (method_and_args callable_as_string)).
Proof.
  intros callable_as_string. split; [|split; [|split]].
  - intros m args Hm Hargs ->. by apply method_and_args_call.
  - intros H. unfold method_and_args. by rewrite split_once_none.
  - unfold method_and_args.
    destruct (split_once "(" callable_as_string) as [[m a]|] eqn:Hsplit; simpl.
    + by apply split_once_before in Hsplit.
    + by apply split_once_absent.
  - apply method_and_args_parts.
Qed.

Lemma method_and_args_reads_call_back_witness :
  method_and_args "atk_value_set_value(1,2)" = ("atk_value_set_value", ["1"; "2"])
  /\ method_and_args "atk_text_get_caret_offset" = ("atk_text_get_caret_offset", []).
Proof.
  split.
  - apply (proj1 (method_and_args_reads_call_back "atk_value_set_value(1,2)")
             "atk_value_set_value" ["1"; "2"]).
    + reflexivity.
    + repeat constructor; done.
    + reflexivity.
  - apply (proj1 (proj2 (method_and_args_reads_call_back "atk_text_get_caret_offset"))).
    reflexivity.
Defined.

(** X24. The AXAPI adapter reads the call of its one supported method back
    with a [None] appended to the arguments, and raises [NameError] for
    every other name. *)
Theorem axapi_string_to_method_and_arguments_appends_none :
  forall (callable_as_string : string),
    (forall args,
       Forall (fun a => a <> "" /\ occurs "," a = false) args ->
       callable_as_string
       = "AXUIElementIsAttributeSettable(" +:+ String.concat "," args +:+ ")" ->
       axapi_string_to_method_and_arguments callable_as_string
       = inr ("AXUIElementIsAttributeSettable", map Some args ++ [None]))
    /\ (fst (method_and_args callable_as_string) <> "AXUIElementIsAttributeSettable" ->
        axapi_string_to_method_and_arguments callable_as_string
        = inl (NameError (fst (method_and_args callable_as_string))))
    /\ forall m l,
         axapi_string_to_method_and_arguments callable_as_string = inr (m, l) ->
         m = "AXUIElementIsAttributeSettable"
         /\ l = map Some (snd (method_and_args callable_as_string)) ++ [None].
Proof.
  intros callable_as_string. unfold axapi_string_to_method_and_arguments.
  split; [|split].
  - intros args Hargs ->.
    change ("AXUIElementIsAttributeSettable(" +:+ String.concat "," args +:+ ")")
      with ("AXUIElementIsAttributeSettable" +:+ "(" +:+ String.concat "," args +:+ ")").
    by rewrite method_and_args_call.
  - destruct (method_and_args callable_as_string) as [m l]. simpl. intros Hne.
    rewrite bool_decide_eq_false_2; [done|].
    unfold axapi_supported_methods. by rewrite list_elem_of_singleton.
  - destruct (method_and_args callable_as_string) as [m0 l0]. simpl. intros m l.
    case_bool_decide as Hin; [|done]. intros [= <- <-].
    unfold axapi_supported_methods in Hin. by rewrite list_elem_of_singleton in Hin.
Qed.

Lemma axapi_string_to_method_and_arguments_appends_none_witness :
  axapi_string_to_method_and_arguments "AXUIElementIsAttributeSettable(AXValue)"
  = inr ("AXUIElementIsAttributeSettable", [Some "AXValue"; None])
  /\ axapi_string_to_method_and_arguments "AXPress()" = inl (NameError "AXPress").
Proof.
  split.
  - apply (proj1 (axapi_string_to_method_and_arguments_appends_none
                    "AXUIElementIsAttributeSettable(AXValue)") ["AXValue"]).
    + repeat constructor; done.
    + reflexivity.
  - apply (proj1 (proj2 (axapi_string_to_method_and_arguments_appends_none "AXPress()"))).
    vm_compute. discriminate.
Defined.

Section AtkCalls.

Context {Element Float : Type}.

Variable find_by_name : string -> string -> option (list FunctionInfo).
Variable interfaces_of : Element -> result (option (list string)).
Variable in_argument_tags : FunctionInfo -> list TypeTag.
Variable int_of_string : string -> option Z.
Variable float_of_string : string -> option Float.

Local Abbreviation convert := (@Calls.convert Float int_of_string float_of_string).
Local Abbreviation convert_all :=
  (@Calls.convert_all Float int_of_string float_of_string).
Local Abbreviation get_supported_methods :=
  (@Supported.get_supported_methods Element find_by_name interfaces_of).
Local Abbreviation atk_string_to_method_and_arguments :=
  (@Calls.atk_string_to_method_and_arguments Element Float find_by_name interfaces_of
     in_argument_tags int_of_string float_of_string).

Lemma convert_raises (py_type : python_type) (arg : string) (e : exn) :
  convert py_type arg = Raise e -> e = ValueError.
Proof.
  destruct py_type; simpl; try done.
  - destruct (int_of_string arg); [done|]. by intros [= <-].
  - destruct (float_of_string arg); [done|]. by intros [= <-].
  - destruct (String.eqb arg ""); [done|]. by intros [= <-].
Qed.

Lemma convert_all_each (py_types : list python_type) (args_list : list string) :
  length py_types = length args_list ->
  match convert_all py_types args_list with
  | Return args =>
      length args = length args_list
      /\ forall i py_type arg,
           py_types !! i = Some py_type ->
           args_list !! i = Some arg ->
           exists v, args !! i = Some v /\ convert py_type arg = Return v
  | Raise e =>
      e = ValueError
      /\ exists i py_type arg,
           py_types !! i = Some py_type
           /\ args_list !! i = Some arg
           /\ convert py_type arg = Raise ValueError
  end.
Proof.
  revert args_list. induction py_types as [|py_type py_types IH];
    intros [|arg args_list]; simpl; try done.
  intros [= Hlen]. specialize (IH args_list Hlen).
  destruct (convert py_type arg) as [v|e] eqn:Hv; simpl.
  2:{ pose proof (convert_raises _ _ _ Hv) as ->. split; [done|].
      by exists 0, py_type, arg. }
  destruct (convert_all py_types args_list) as [vs|e]; simpl.
  - destruct IH as [Hl Heach]. split; [by rewrite Hl|].
    intros [|i] ty a; simpl.
    + intros [= <-] [= <-]. by exists v.
    + apply Heach.
  - destruct IH as [-> (i & ty & a & Hty & Ha & Hraise)]. split; [done|].
    by exists (S i), ty, a.
Qed.

Lemma add_methods_raises (methods : list FunctionInfo) (d d' : gmap string FunctionInfo)
    (e : exn) :
  add_methods find_by_name methods d = (Raise e, d') -> False.
Proof.
  revert d. induction methods as [|m methods IH]; intros d; simpl; [done|].
  rewrite get_client_side_method_resolve.
  destruct (resolve find_by_name replace_api_name m); apply IH.
Qed.

Lemma add_interfaces_raises (ifaces : list string) (d d' : gmap string FunctionInfo)
    (e : exn) :
  add_interfaces find_by_name ifaces d = (Raise e, d') -> e = AttributeError.
Proof.
  revert d. induction ifaces as [|iface ifaces IH]; intros d; simpl; [done|].
  destruct (find_by_name "Atk" iface) as [methods|]; [|by intros [= <- _]].
  destruct (add_methods find_by_name methods d) as [[u|e0] d1] eqn:Hadd.
  - apply IH.
  - by apply add_methods_raises in Hadd.
Qed.

Lemma get_supported_methods_raises (_interfaces : list string)
    (d d' : gmap string FunctionInfo) (e : exn) :
  get_supported_methods _interfaces None d = (Raise e, d') -> e = AttributeError.
Proof.
  unfold Supported.get_supported_methods, included. case_bool_decide; [|done].
  destruct (add_interfaces find_by_name _interfaces d) as [[u|e0] d1] eqn:Hadd; [done|].
  intros [= <- _]. by apply add_interfaces_raises in Hadd.
Qed.

(** X25. What the ATK adapter does with a call, case by case. A name that
    is not a supported method raises [NameError]. A supported method with a
    number of arguments other than the number of its arguments of direction
    [IN] ends in [AttributeError], never in the [TypeError] that the branch
    was written to raise. Otherwise the result is the supported method of
    the name with the conversion of each argument at its place, an argument
    of a boolean type being [True] whatever was written, or the
    [ValueError] of an argument that has no conversion. When the table of
    the supported methods cannot be built, its [AttributeError] comes out. *)
Theorem atk_string_to_method_and_arguments_converts_arguments :
  forall (_interfaces : list string) (callable_as_string : string)
         (_supported_methods : gmap string FunctionInfo),
    let (r, _supported_methods') :=
      atk_string_to_method_and_arguments _interfaces callable_as_string
        _supported_methods in
    let (method_string, args_list) := method_and_args callable_as_string in
    match get_supported_methods _interfaces None _supported_methods with
    | (Raise e, cache) =>
        r = inl (Error AttributeError) /\ e = AttributeError
        /\ _supported_methods' = cache
    | (Return supported_methods, cache) =>
        _supported_methods' = cache
        /\ match supported_methods !! method_string with
           | None => r = inl (NameError method_string)
           | Some method =>
               if Nat.eqb (length (in_argument_tags method)) (length args_list)
               then
                 match r with
                 | inr (returned, args) =>
                     returned = method
                     /\ length args = length (in_argument_tags method)
                     /\ forall i tag arg,
                          in_argument_tags method !! i = Some tag ->
                          args_list !! i = Some arg ->
                          exists v,
                            args !! i = Some v
                            /\ convert (platform_type_to_python_type tag) arg = Return v
                            /\ (tag = BOOLEAN -> v = @Vbool Float true)
                 | inl (Error e) =>
                     e = ValueError
                     /\ exists i tag arg,
                          in_argument_tags method !! i = Some tag
                          /\ args_list !! i = Some arg
                          /\ convert (platform_type_to_python_type tag) arg
                             = Raise ValueError
                 | inl (NameError _) => False
                 end
               else r = inl (Error AttributeError)
           end
    end.
Proof.
  intros _interfaces callable_as_string _supported_methods.
  unfold Calls.atk_string_to_method_and_arguments.
  pose proof (method_and_args_parts callable_as_string) as Hparts.
  destruct (method_and_args callable_as_string) as [method_string args_list].
  simpl in Hparts.
  destruct (get_supported_methods _interfaces None _supported_methods)
    as [[supported_methods|e] cache] eqn:Hsupported.
  2:{ apply get_supported_methods_raises in Hsupported. by subst. }
  destruct (supported_methods !! method_string) as [method|] eqn:Hmethod; [|done].
  destruct (Nat.eqb (length (in_argument_tags method)) (length args_list)) eqn:Hlen;
    simpl; [|done].
  apply Nat.eqb_eq in Hlen.
  pose proof (convert_all_each (map platform_type_to_python_type (in_argument_tags method))
                args_list) as Hall.
  rewrite length_map in Hall. specialize (Hall Hlen).
  destruct (convert_all _ args_list) as [args|e]; (split; [done|]).
  - destruct Hall as [Hl Heach]. split; [done|]. split; [congruence|].
    intros i tag arg Htag Harg.
    destruct (Heach i (platform_type_to_python_type tag) arg) as (v & Hv & Hconv);
      [by rewrite list_lookup_fmap, Htag|done|].
    exists v. split; [done|]. split; [done|]. intros ->. simpl in Hconv.
    injection Hconv as <-.
    rewrite Forall_forall in Hparts.
    destruct (Hparts arg) as [Hne _]; [by eapply list_elem_of_lookup_2|].
    apply String.eqb_neq in Hne. by rewrite Hne.
  - destruct Hall as [-> (i & ty & arg & Hty & Harg & Hraise)]. split; [done|].
    rewrite list_lookup_fmap in Hty.
    destruct (in_argument_tags method !! i) as [tag|] eqn:Htag; [|done].
    injection Hty as <-. by exists i, tag, arg.
Qed.

End AtkCalls.

Lemma atk_string_to_method_and_arguments_converts_arguments_witness :
  fst (atk_string_to_method_and_arguments (Element := nat) (Float := unit)
         sample_atk_repository (fun _ => Return None) (fun _ => [DOUBLE])
         (fun _ => None) (fun _ => None) ["Value"] "atk_value_set_value(1,2)" ∅)
  = inl (Error AttributeError)
  /\ fst (atk_string_to_method_and_arguments (Element := nat) (Float := unit)
            sample_atk_repository (fun _ => Return None) (fun _ => [DOUBLE])
            (fun _ => None) (fun _ => None) ["Value"] "atk_value_press()" ∅)
     = inl (NameError "atk_value_press").
Proof.
  split.
  - pose proof (atk_string_to_method_and_arguments_converts_arguments
                  (Element := nat) (Float := unit) sample_atk_repository
                  (fun _ => Return None) (fun _ => [DOUBLE]) (fun _ => None)
                  (fun _ => None) ["Value"] "atk_value_set_value(1,2)" ∅) as H.
    destruct (atk_string_to_method_and_arguments _ _ _ _ _ _ _ _) as [r cache].
    vm_compute in H. by destruct H as [_ ->].
  - pose proof (atk_string_to_method_and_arguments_converts_arguments
                  (Element := nat) (Float := unit) sample_atk_repository
                  (fun _ => Return None) (fun _ => [DOUBLE]) (fun _ => None)
                  (fun _ => None) ["Value"] "atk_value_press()" ∅) as H.
    destruct (atk_string_to_method_and_arguments _ _ _ _ _ _ _ _) as [r cache].
    vm_compute in H. by destruct H as [_ ->].
Defined.

Import AtkReads.

(** *** Where the values of the retrying reads come from *)

Section ReadFacts.

Context {Element Payload : Type}.

Variable clear_cache_outcome : list (action Element) -> Element -> result unit.
Variable getter_outcome :
  list (action Element) -> string -> option Element -> result (value Payload).
Variable document_attribute_outcome :
  list (action Element) -> Element -> string -> result (option string).
Variable print_outcome : list (action Element) -> result unit.
Variable is_document_web : Payload -> bool.
Variable range : value Payload -> option (list nat).
Variable child_outcome : list (action Element) -> Element -> nat -> result Element.

Local Abbreviation get_property_value :=
  (@Retry.get_property_value Element Payload clear_cache_outcome getter_outcome
     print_outcome).
Local Abbreviation _get_uri :=
  (@Retry._get_uri Element clear_cache_outcome document_attribute_outcome
     print_outcome).
Local Abbreviation count := (@Retry.count Element).
Local Abbreviation _is_document :=
  (@AtkReads._is_document Element Payload clear_cache_outcome getter_outcome
     document_attribute_outcome print_outcome is_document_web).
Local Abbreviation _get_children :=
  (@AtkReads._get_children Element Payload clear_cache_outcome getter_outcome
     print_outcome range child_outcome).

Local Abbreviation from_getter := (@AtkReads.from_getter Element Payload getter_outcome).
Local Abbreviation from_document :=
  (@AtkReads.from_document Element document_attribute_outcome).

Lemma get_property_value_source (obj : option Element) (property_name : string)
    (retries : nat) (t : list (action Element)) (v : value Payload) :
  fst (get_property_value obj property_name retries t) = Return v ->
  v = VNone
  \/ (property_name = "accessible" /\ v = VBool (bool_decide (is_Some obj)))
  \/ from_getter property_name obj v.
Proof.
  funelim (Retry.get_property_value clear_cache_outcome getter_outcome print_outcome
             obj property_name retries t).
  all: try rewrite <- Heqcall; simpl; try done.
  - intros [= <-]. by left.
  - intros [= <-].
    match goal with
    | Hg : getter _ _ _ _ = _ |- _ => unfold getter in Hg
    end.
    destruct (String.eqb property_name "accessible") eqn:Hacc.
    + apply String.eqb_eq in Hacc. simplify_eq. right. left. done.
    + simplify_eq. right. right. by eexists _, _.
  - auto.
Qed.

(** X26. A value other than [None] that [get_property_value] returns is
    what the getter of the platform gave for the property, with the dict of
    [textAttributes] turned into a list. The property [accessible] is
    answered without the getter, and for a missing object without any call
    of the platform. *)
Theorem get_property_value_returns_platform_value :
  forall (obj : option Element) (property_name : string) (t : list (action Element)),
    (forall v,
       fst (get_property_value obj property_name 0 t) = Return v ->
       v = VNone
       \/ (property_name = "accessible" /\ v = VBool (bool_decide (is_Some obj)))
       \/ from_getter property_name obj v)
    /\ get_property_value None "accessible" 0 t = (Return (VBool false), t).
Proof.
  intros obj property_name t. split.
  - intros v. apply get_property_value_source.
  - by simp get_property_value.
Qed.

Lemma first_attribute_source (document : Element) (names all : list string)
    (t t1 : list (action Element)) (uri : string) :
  (forall n, n ∈ names -> n ∈ all) ->
  first_attribute document_attribute_outcome document names t = (Found uri, t1) ->
  uri <> ""
  /\ exists h name,
       name ∈ all /\ document_attribute_outcome h document name = Return (Some uri).
Proof.
  revert t. induction names as [|name names IH]; intros t Hsub; simpl; [done|].
  assert (Hrest : forall n, n ∈ names -> n ∈ all).
  { intros n Hn. apply Hsub. by right. }
  unfold get_document_attribute_value.
  destruct (document_attribute_outcome t document name) as [[u|]|e] eqn:Hout; simpl;
    [| by apply IH | done].
  destruct (String.eqb u "") eqn:Hu; [by apply IH|].
  intros [= <- <-]. split; [by apply String.eqb_neq|].
  exists t, name. split; [|done]. apply Hsub. by left.
Qed.

Lemma get_uri_source (document : option Element) (retries : nat)
    (t : list (action Element)) (uri : string) :
  fst (_get_uri document retries t) = Return uri ->
  uri = "" \/ exists d, document = Some d /\ from_document d uri.
Proof.
  funelim (Retry._get_uri clear_cache_outcome document_attribute_outcome print_outcome
             document retries t).
  all: try rewrite <- Heqcall; simpl; try done.
  - intros [= <-]. by left.
  - intros [= <-]. by left.
  - intros [= <-]. right. exists document. split; [done|].
    match goal with
    | Hf : first_attribute _ _ _ _ = _ |- _ =>
        apply (first_attribute_source _ _ ["DocURL"; "URI"]) in Hf; [done|done]
    end.
  - intros [= <-]. by left.
  - auto.
Qed.

(** X27. A URI that [_get_uri] returns is empty, or it is what the platform
    gave for the attribute [DocURL] or [URI] of the document; for [None]
    the answer is the empty string and the platform is not called. *)
Theorem get_uri_returns_document_attribute :
  forall (document : option Element) (t : list (action Element)),
    (forall uri,
       fst (_get_uri document 0 t) = Return uri ->
       uri = "" \/ exists d, document = Some d /\ from_document d uri)
    /\ _get_uri None 0 t = (Return "", t).
Proof.
  intros document t. split.
  - intros uri. apply get_uri_source.
  - by simp _get_uri.
Qed.

(** X28. [_is_document] of the ATK adapter answers true only for an object
    whose role the platform gave as that of a web document and for which it
    gave a URI that is not empty; for [None] the answer is false without a
    call of the platform. What it raises was raised by [clear_cache] or by
    the logging of an error past the ceiling of the retries, and it makes
    at most nine reads. *)
Theorem is_document_has_role_and_uri :
  forall (obj : option Element) (t : list (action Element)),
    _is_document None t = (Return false, t)
    /\ (fst (_is_document obj t) = Return true ->
        exists o,
          obj = Some o
          /\ (exists h role,
                getter_outcome h "role" obj = Return (VPlatform role)
                /\ is_document_web role = true)
          /\ exists uri,
               from_document o uri)
    /\ (forall e,
          fst (_is_document obj t) = Raise e ->
          (exists h o, clear_cache_outcome h o = Raise e)
          \/ exists h, print_outcome h = Raise e)
    /\ exists ext,
         snd (_is_document obj t) = t ++ ext
         /\ count is_read ext <= 3 * (1 + _retry_limit).
Proof.
  intros obj t. split; [done|]. unfold AtkReads._is_document.
  destruct obj as [o|].
  2:{ split; [done|]. split; [done|]. exists []. rewrite app_nil_r.
      split; [done|]. cbn. lia. }
  pose proof (get_property_value_source (Some o) "role" 0 t) as Hsource.
  destruct (get_property_value_history clear_cache_outcome getter_outcome print_outcome
              (Some o) "role" 0 t) as (ext & Hext & Hreads & _ & Hraise).
  destruct (get_property_value (Some o) "role" 0 t) as [[role|e] t1].
  - simpl in Hext. subst t1.
    destruct (role_is_document_web is_document_web role) eqn:Hweb.
    + pose proof (get_uri_source (Some o) 0 (t ++ ext)) as Huri.
      destruct (get_uri_history clear_cache_outcome document_attribute_outcome
                  print_outcome (Some o) 0 (t ++ ext))
        as (r & ext' & Heq & _ & Hreads' & Hraise').
      rewrite Heq in *. simpl in *.
      assert (Hbound : exists ext0,
                 (t ++ ext) ++ ext' = t ++ ext0
                 /\ count is_read ext0 <= 3 * (1 + _retry_limit)).
      { exists (ext ++ ext'). rewrite app_assoc. split; [done|].
        rewrite count_app. unfold _retry_limit in *. lia. }
      destruct r as [uri|e]; simpl.
      * split; [|split; [done|done]].
        intros [= Hne]. apply negb_true_iff in Hne.
        exists o. split; [done|]. split.
        -- destruct role as [| | | |v]; try done.
           destruct (Hsource _ eq_refl) as [?|[[? ?]|(h & res & Hres & Hv)]]; try done.
           exists h, v. split; [|done]. rewrite Hres. f_equal.
           destruct res; simpl in Hv; by simplify_eq.
        -- exists uri. destruct (Huri uri eq_refl) as [->|(d & [= <-] & Hd)]; done.
      * split; [done|]. split; [|done].
        intros e0 [= <-]. right. by apply Hraise'.
    + simpl. split; [done|]. split; [done|]. exists ext. split; [done|].
      unfold _retry_limit in *. lia.
  - simpl in *. split; [done|]. split.
    + intros e0 [= <-]. destruct (Hraise e eq_refl) as [Hpre|[Hcc|Hprint]].
      * vm_compute in Hpre. discriminate.
      * by left.
      * by right.
    + exists ext. split; [done|]. unfold _retry_limit in *. lia.
Qed.

Lemma clear_cache_if_short_sleeps (obj : option Element) (t t1 : list (action Element))
    (r : result unit) :
  clear_cache_if clear_cache_outcome obj t = (r, t1) ->
  exists ext, t1 = t ++ ext /\ count is_long_sleep ext = 0.
Proof.
  destruct obj as [o|]; simpl.
  - unfold clear_cache. intros [= <- <-]. by eexists.
  - intros [= <- <-]. exists []. by rewrite app_nil_r.
Qed.

Lemma getter_short_sleeps (property_name : string) (obj : option Element)
    (t t1 : list (action Element)) (r : result (Retry.value Payload)) :
  getter getter_outcome property_name obj t = (r, t1) ->
  exists ext, t1 = t ++ ext /\ count is_long_sleep ext = 0.
Proof.
  unfold getter. destruct (String.eqb property_name "accessible").
  - intros [= <- <-]. exists []. by rewrite app_nil_r.
  - intros [= <- <-]. by eexists.
Qed.

Lemma get_property_value_short_sleeps (obj : option Element) (property_name : string)
    (retries : nat) (t : list (action Element)) :
  exists ext,
    snd (get_property_value obj property_name retries t) = t ++ ext
    /\ count is_long_sleep ext = 0.
Proof.
  funelim (Retry.get_property_value clear_cache_outcome getter_outcome print_outcome
             obj property_name retries t).
  all: try rewrite <- Heqcall; simpl.
  all: try match goal with
           | Hc : clear_cache_if _ _ _ = _ |- _ =>
               destruct (clear_cache_if_short_sleeps _ _ _ _ Hc) as (ext0 & -> & Hs0)
           end.
  all: try match goal with
           | Hg : getter _ _ _ _ = _ |- _ =>
               destruct (getter_short_sleeps _ _ _ _ _ Hg) as (ext1 & -> & Hs1)
           end.
  - exists []. by rewrite app_nil_r.
  - by exists ext0.
  - eexists (ext0 ++ [PrintError _]). rewrite app_assoc. split; [done|].
    by rewrite count_app, Hs0.
  - eexists (ext0 ++ [PrintError _]). rewrite app_assoc. split; [done|].
    by rewrite count_app, Hs0.
  - exists (ext0 ++ ext1). rewrite app_assoc. split; [done|].
    by rewrite count_app, Hs0, Hs1.
  - match goal with
    | IH : exists _, _ |- _ => destruct IH as (ext2 & Hsnd & Hs2)
    end.
    exists (ext0 ++ ext1 ++ [Sleep 500] ++ ext2). split.
    + rewrite Hsnd. by rewrite <- !app_assoc.
    + by rewrite !count_app, Hs0, Hs1, Hs2.
Qed.

Lemma get_property_value_step (obj : option Element) (property_name : string)
    (t : list (action Element)) :
  exists ext,
    snd (get_property_value obj property_name 0 t) = t ++ ext
    /\ count is_read ext <= 1 + _retry_limit
    /\ count is_long_sleep ext = 0.
Proof.
  destruct (get_property_value_history clear_cache_outcome getter_outcome print_outcome
              obj property_name 0 t) as (ext & Hext & Hreads & _).
  destruct (get_property_value_short_sleeps obj property_name 0 t)
    as (ext' & Hext' & Hsleeps).
  rewrite Hext in Hext'. apply app_inv_head in Hext'. subst ext'.
  exists ext. split; [done|]. split; [|done]. unfold _retry_limit in *. lia.
Qed.

Lemma read_children_length (o : Element) (indices : list nat)
    (t : list (action Element)) (children : list Element) :
  read_children child_outcome o indices t = Some children ->
  length children = length indices
  /\ forall i index child,
       indices !! i = Some index ->
       children !! i = Some child ->
       child_outcome t o index = Return child.
Proof.
  revert children. induction indices as [|index indices IH]; intros children; simpl.
  - intros [= <-]. split; [done|]. intros i index child Hi. done.
  - destruct (child_outcome t o index) as [c|e] eqn:Hc; [|done].
    destruct (read_children child_outcome o indices t) as [cs|]; [|done].
    intros [= <-]. destruct (IH cs eq_refl) as [Hlen Heach]. split; [simpl; by rewrite Hlen|].
    intros [|i] index' child; simpl.
    + by intros [= <-] [= <-].
    + apply Heach.
Qed.

Lemma get_children_history (obj : option Element) (retries : nat)
    (t : list (action Element)) :
  exists ext,
    snd (_get_children obj retries t) = t ++ ext
    /\ count is_long_sleep ext <= S _retry_limit - retries
    /\ count is_read ext <= (1 + _retry_limit) * (S _retry_limit - retries)
    /\ (forall e,
          fst (_get_children obj retries t) = Raise e ->
          precondition obj "childCount" = Some e
          \/ (exists h o, clear_cache_outcome h o = Raise e)
          \/ exists h, print_outcome h = Raise e)
    /\ (forall children,
          fst (_get_children obj retries t) = Return children ->
          children = []
          \/ exists o h count indices,
               obj = Some o
               /\ range count = Some indices
               /\ read_children child_outcome o indices h = Some children).
Proof.
  funelim (AtkReads._get_children clear_cache_outcome getter_outcome print_outcome
             range child_outcome obj retries t).
  all: try rewrite <- Heqcall; simpl.
  all: try match goal with
           | Hg : Retry.get_property_value _ _ _ _ _ _ _ = (?r, ?t1) |- _ =>
               destruct (get_property_value_step obj "childCount" t)
                 as (ext & Hext & Hreads & Hsleeps);
               destruct (get_property_value_history clear_cache_outcome getter_outcome
                           print_outcome obj "childCount" 0 t)
                 as (ext' & Hext' & _ & _ & Hraise);
               rewrite Hg in Hext, Hraise; simpl in Hext, Hraise; subst t1
           end.
  all: try match goal with
           | IH : exists _, _ |- _ =>
               destruct IH as (ext2 & Hsnd & Hs2 & Hr2 & He2 & Hc2)
           end.
  all: try (exists (ext ++ [Sleep 1000] ++ ext2); split;
            [rewrite Hsnd; by rewrite <- !app_assoc|];
            rewrite !count_app, Hsleeps; cbn; unfold _retry_limit in *;
            split; [lia|]; split; [lia|]; split; [exact He2|exact Hc2]).
  all: try (exists ext; split; [done|]; rewrite ?Hsleeps;
            unfold _retry_limit in *; split; [lia|]; split; [lia|]; split;
            [ intros e0 He0; simplify_eq; by apply Hraise
            | intros cs Hcs; simplify_eq; first [ by left | right ] ]).
  all: try (eexists [PrintError _]; split; [done|]; cbn; unfold _retry_limit in *;
            split; [lia|]; split; [lia|]; split;
            [ intros e0 He0; simplify_eq; try done; right; right; eauto
            | intros cs Hcs; simplify_eq; by left ]).
  all: match goal with
       | Hc : children_of _ _ _ _ _ = Some _ |- _ =>
           unfold children_of in Hc; destruct obj as [o|]; [|done];
           match type of Hc with
           | context [range ?c] =>
               destruct (range c) as [indices|] eqn:Hrange; [|done];
               by exists o, (t ++ ext), c, indices
           end
       end.
Qed.

(** X29. [_get_children] of the ATK adapter ends whatever the platform
    does: it makes at most three attempts, each with one retrying read of
    [childCount], and sleeps one second after each attempt that failed.
    The list it returns is empty, or holds what the platform gave for every
    index of the count, in their order. The reads of the children never
    make it raise: what it raises comes from the read of [childCount], for
    a missing object or when [clear_cache] raised, or from the logging of
    an error past the ceiling of the retries. *)
Theorem get_children_reads_every_index :
  forall (obj : option Element) (t : list (action Element)),
    (exists ext,
       snd (_get_children obj 0 t) = t ++ ext
       /\ count is_long_sleep ext <= 1 + _retry_limit
       /\ count is_read ext <= (1 + _retry_limit) * (1 + _retry_limit))
    /\ (forall e,
          fst (_get_children obj 0 t) = Raise e ->
          precondition obj "childCount" = Some e
          \/ (exists h o, clear_cache_outcome h o = Raise e)
          \/ exists h, print_outcome h = Raise e)
    /\ (forall children,
          fst (_get_children obj 0 t) = Return children ->
          children = []
          \/ exists o h count indices,
               obj = Some o
               /\ range count = Some indices
               /\ length children = length indices
               /\ forall i index child,
                    indices !! i = Some index ->
                    children !! i = Some child ->
                    child_outcome h o index = Return child)
    /\ _get_children None 0 t = (Raise AttributeError, t).
Proof.
  intros obj t.
  destruct (get_children_history obj 0 t) as (ext & Hext & Hs & Hr & He & Hc).
  split; [|split; [|split]].
  - exists ext. split; [done|]. unfold _retry_limit in *. split; lia.
  - exact He.
  - intros children Hchildren.
    destruct (Hc children Hchildren) as [->|(o & h & c & indices & -> & Hrange & Hread)];
      [by left|].
    right. exists o, h, c, indices. split; [done|]. split; [done|].
    by apply read_children_length.
  - simp _get_children. simpl. by simp get_property_value.
Qed.

End ReadFacts.

(** X30. [get_property_value] and [_get_uri] end whatever the platform
    answers. With [_retry_limit = 2], a call makes at most three read
    attempts (for [_get_uri], at most three failed ones and six in all) and
    sleeps after every failed read. The exception of a read never comes
    out: [get_property_value] raises only for a missing object or an
    unsupported property, what [clear_cache] raised, or what the logging of
    the error past the ceiling raised, and [_get_uri] only the last of
    these. When every read fails and [clear_cache] and the logging work, the
    first returns [None] and the second the empty string, after three
    attempts and three sleeps of half a second. *)
Theorem retrying_reads_are_bounded :
  forall (Element Payload : Type)
         (clear_cache_outcome : list (action Element) -> Element -> result unit)
         (getter_outcome :
            list (action Element) -> string -> option Element -> result (value Payload))
         (document_attribute_outcome :
            list (action Element) -> Element -> string -> result (option string))
         (print_outcome : list (action Element) -> result unit),
    _retry_limit = 2
    /\ (forall obj property_name t,
          exists ext,
            snd (get_property_value clear_cache_outcome getter_outcome print_outcome
                   obj property_name 0 t) = t ++ ext
            /\ count is_read ext <= 1 + _retry_limit
            /\ count is_sleep ext = count is_failed_read ext
            /\ (forall e,
                  fst (get_property_value clear_cache_outcome getter_outcome
                         print_outcome obj property_name 0 t) = Raise e ->
                  precondition obj property_name = Some e
                  \/ (exists h o, clear_cache_outcome h o = Raise e)
                  \/ exists h, print_outcome h = Raise e))
    /\ (forall o property_name t,
          precondition (Some o) property_name = None ->
          String.eqb property_name "accessible" = false ->
          (forall h, clear_cache_outcome h o = Return tt) ->
          (forall h, is_return (getter_outcome h property_name (Some o)) = false) ->
          (forall h, print_outcome h = Return tt) ->
          get_property_value clear_cache_outcome getter_outcome print_outcome
            (Some o) property_name 0 t
          = (Return VNone,
             t ++ [ClearCache o true; Getter property_name (Some o) false; Sleep 500;
                   ClearCache o true; Getter property_name (Some o) false; Sleep 500;
                   ClearCache o true; Getter property_name (Some o) false; Sleep 500;
                   ClearCache o true; PrintError true]))
    /\ (forall document t,
          exists r ext,
            _get_uri clear_cache_outcome document_attribute_outcome print_outcome
              document 0 t
            = (r, t ++ ext)
            /\ count is_failed_read ext <= 1 + _retry_limit
            /\ count is_read ext <= 2 * (1 + _retry_limit)
            /\ (forall e, r = Raise e -> exists h, print_outcome h = Raise e))
    /\ (forall document t,
          (forall h, clear_cache_outcome h document = Return tt) ->
          (forall h name,
             is_return (document_attribute_outcome h document name) = false) ->
          (forall h, print_outcome h = Return tt) ->
          _get_uri clear_cache_outcome document_attribute_outcome print_outcome
            (Some document) 0 t
          = (Return "",
             t ++ [ClearCache document true;
                   GetDocumentAttributeValue document "DocURL" false; Sleep 500;
                   ClearCache document true;
                   GetDocumentAttributeValue document "DocURL" false; Sleep 500;
                   ClearCache document true;
                   GetDocumentAttributeValue document "DocURL" false; Sleep 500;
                   PrintError true])).
Proof.
  intros. split; [done|]. split; [|split; [|split]].
  - intros obj property_name t.
    exact (get_property_value_history clear_cache_outcome getter_outcome print_outcome
             obj property_name 0 t).
  - intros o property_name t. apply get_property_value_all_reads_fail.
  - intros document t.
    exact (get_uri_history clear_cache_outcome document_attribute_outcome
             print_outcome document 0 t).
  - intros document t. apply get_uri_all_reads_fail.
Qed.

Lemma retrying_reads_are_bounded_witness :
  get_property_value working_clear_cache always_failing_getter working_print
    (Some 3) "name" 0 []
  = (Return VNone,
     [ClearCache 3 true; Getter "name" (Some 3) false; Sleep 500;
      ClearCache 3 true; Getter "name" (Some 3) false; Sleep 500;
      ClearCache 3 true; Getter "name" (Some 3) false; Sleep 500;
      ClearCache 3 true; PrintError true])
  /\ _get_uri working_clear_cache always_failing_attribute working_print (Some 3) 0 []
     = (Return "",
        [ClearCache 3 true; GetDocumentAttributeValue 3 "DocURL" false; Sleep 500;
         ClearCache 3 true; GetDocumentAttributeValue 3 "DocURL" false; Sleep 500;
         ClearCache 3 true; GetDocumentAttributeValue 3 "DocURL" false; Sleep 500;
         PrintError true]).
Proof.
  destruct (retrying_reads_are_bounded nat unit working_clear_cache
              always_failing_getter always_failing_attribute working_print)
    as (_ & _ & Hproperty & _ & Huri).
  split.
  - apply (Hproperty 3 "name" []); reflexivity.
  - apply (Huri 3 []); reflexivity.
Defined.
